(** * The QUIC outbound queue (net/quic/output.c)

    A shallow embedding of the frame queue manager of the QUIC socket:
    the pending lists, the flow-control gate, the ack and loss
    processors, the loss timer, and the close and probe entry points.

    Conventions.
    - An intrusive [list_head] of frames is a [list quic_frame]; the
      cursor [head = &pos->list] followed by [list_add_tail] is an
      insertion immediately before [pos].
    - [frame->stream] is a pointer: [None] is NULL, [Some p] an address in
      the stream store of the socket.  Dereferencing NULL or an address
      that holds no stream is undefined; the functions that can do so
      return [option], with [None] for the undefined run.
    - Unsigned C integers are [Z] with the wrap-around written out.  The
      widths of the locals are those of output.c; the widths of the
      struct fields are declared in headers that are not part of this
      directory and are kept as the parameter [field_bits].
    - The collaborators of the queue (packet builder, congestion control,
      timers, event channel, frame factory, path manager) are opaque.  A
      call that only acts on a collaborator is recorded in [sk_log], most
      recent first; a value read from a collaborator is a function of the
      socket. *)

From Stdlib Require Import ZArith List Bool Lia Sorted.
From stdpp Require Import base option list gmap.

Open Scope Z_scope.

(** ** Machine integers *)

Definition wrap (bits x : Z) : Z := x mod 2 ^ bits.
Definition u32 (x : Z) : Z := wrap 32 x.

(** [int] and [s64]: two's complement. *)
Definition s32 (x : Z) : Z := (x + 2 ^ 31) mod 2 ^ 32 - 2 ^ 31.
Definition s64 (x : Z) : Z := (x + 2 ^ 63) mod 2 ^ 64 - 2 ^ 63.

(** Widths, in bits, of the unsigned struct fields the queue does
    arithmetic on. *)
Record field_bits := mk_field_bits {
  data_inflight_bits : Z;   (* outq->data_inflight *)
  inflight_bits : Z;        (* outq->inflight *)
  bytes_bits : Z;           (* outq->bytes *)
  send_bytes_bits : Z;      (* stream->send.bytes *)
  send_frags_bits : Z;      (* stream->send.frags *)
  pn_inflight_bits : Z      (* the in-flight count of quic_pnmap *)
}.

(** Usual arithmetic conversions: a field of [bits] bits combined with a
    [u32] local is computed in the wider of the two types. *)
Definition with_u32 (bits : Z) : Z := Z.max bits 32.

(** ** Data model

    The structs are declared in headers that are absent; the records hold
    the fields output.c reads and writes. *)

Record quic_frame := mk_frame {
  frame_type : Z;
  frame_level : Z;
  frame_len : Z;
  frame_bytes : Z;
  frame_offset : Z;
  frame_stream : option Z;
  frame_number : Z;
  frame_transmit_ts : Z;
  frame_ecn : Z;
  frame_path_alt : Z
}.

Definition frame_set_level (f : quic_frame) (level : Z) : quic_frame :=
  mk_frame (frame_type f) level (frame_len f) (frame_bytes f) (frame_offset f)
           (frame_stream f) (frame_number f) (frame_transmit_ts f)
           (frame_ecn f) (frame_path_alt f).

(** [stream->id] and [stream->send]. *)
Record quic_stream := mk_stream {
  stream_id : Z;
  send_state : Z;
  send_bytes : Z;
  send_max_bytes : Z;
  send_last_max_bytes : Z;
  send_data_blocked : Z;
  send_frags : Z;
  send_errcode : Z
}.

Definition stream_set_state (s : quic_stream) (v : Z) : quic_stream :=
  mk_stream (stream_id s) v (send_bytes s) (send_max_bytes s)
            (send_last_max_bytes s) (send_data_blocked s) (send_frags s)
            (send_errcode s).
Definition stream_set_bytes (s : quic_stream) (v : Z) : quic_stream :=
  mk_stream (stream_id s) (send_state s) v (send_max_bytes s)
            (send_last_max_bytes s) (send_data_blocked s) (send_frags s)
            (send_errcode s).
Definition stream_set_last_max_bytes (s : quic_stream) (v : Z) : quic_stream :=
  mk_stream (stream_id s) (send_state s) (send_bytes s) (send_max_bytes s)
            v (send_data_blocked s) (send_frags s) (send_errcode s).
Definition stream_set_data_blocked (s : quic_stream) (v : Z) : quic_stream :=
  mk_stream (stream_id s) (send_state s) (send_bytes s) (send_max_bytes s)
            (send_last_max_bytes s) v (send_frags s) (send_errcode s).
Definition stream_set_frags (s : quic_stream) (v : Z) : quic_stream :=
  mk_stream (stream_id s) (send_state s) (send_bytes s) (send_max_bytes s)
            (send_last_max_bytes s) (send_data_blocked s) v (send_errcode s).

Record quic_outqueue := mk_outq {
  transmitted_list : list quic_frame;
  datagram_list : list quic_frame;
  control_list : list quic_frame;
  stream_list : list quic_frame;
  outq_last_max_bytes : Z;
  outq_data_inflight : Z;
  outq_max_bytes : Z;
  outq_inflight : Z;
  outq_window : Z;
  outq_bytes : Z;
  outq_close_errcode : Z;
  outq_close_frame : Z;
  outq_rtx_count : Z;
  outq_data_blocked : Z;
  outq_data_level : Z
}.

Definition outq_set_transmitted_list (q : quic_outqueue) (l : list quic_frame) :=
  mk_outq l (datagram_list q) (control_list q) (stream_list q)
    (outq_last_max_bytes q) (outq_data_inflight q) (outq_max_bytes q)
    (outq_inflight q) (outq_window q) (outq_bytes q) (outq_close_errcode q)
    (outq_close_frame q) (outq_rtx_count q) (outq_data_blocked q)
    (outq_data_level q).
Definition outq_set_control_list (q : quic_outqueue) (l : list quic_frame) :=
  mk_outq (transmitted_list q) (datagram_list q) l (stream_list q)
    (outq_last_max_bytes q) (outq_data_inflight q) (outq_max_bytes q)
    (outq_inflight q) (outq_window q) (outq_bytes q) (outq_close_errcode q)
    (outq_close_frame q) (outq_rtx_count q) (outq_data_blocked q)
    (outq_data_level q).
Definition outq_set_stream_list (q : quic_outqueue) (l : list quic_frame) :=
  mk_outq (transmitted_list q) (datagram_list q) (control_list q) l
    (outq_last_max_bytes q) (outq_data_inflight q) (outq_max_bytes q)
    (outq_inflight q) (outq_window q) (outq_bytes q) (outq_close_errcode q)
    (outq_close_frame q) (outq_rtx_count q) (outq_data_blocked q)
    (outq_data_level q).
Definition outq_set_last_max_bytes (q : quic_outqueue) (v : Z) :=
  mk_outq (transmitted_list q) (datagram_list q) (control_list q) (stream_list q)
    v (outq_data_inflight q) (outq_max_bytes q)
    (outq_inflight q) (outq_window q) (outq_bytes q) (outq_close_errcode q)
    (outq_close_frame q) (outq_rtx_count q) (outq_data_blocked q)
    (outq_data_level q).
Definition outq_set_data_inflight (q : quic_outqueue) (v : Z) :=
  mk_outq (transmitted_list q) (datagram_list q) (control_list q) (stream_list q)
    (outq_last_max_bytes q) v (outq_max_bytes q)
    (outq_inflight q) (outq_window q) (outq_bytes q) (outq_close_errcode q)
    (outq_close_frame q) (outq_rtx_count q) (outq_data_blocked q)
    (outq_data_level q).
Definition outq_set_inflight (q : quic_outqueue) (v : Z) :=
  mk_outq (transmitted_list q) (datagram_list q) (control_list q) (stream_list q)
    (outq_last_max_bytes q) (outq_data_inflight q) (outq_max_bytes q)
    v (outq_window q) (outq_bytes q) (outq_close_errcode q)
    (outq_close_frame q) (outq_rtx_count q) (outq_data_blocked q)
    (outq_data_level q).
(** Modelled from the spec: [quic_outq_set_window], like
    [quic_outq_set_close_errcode] and [quic_outq_set_close_frame] below,
    is an accessor of the absent outqueue header; the spec has the close
    "record errcode/frame" and the ack and loss processors "refresh
    window", so each writes the field of its name. *)
Definition quic_outq_set_window (q : quic_outqueue) (v : Z) :=
  mk_outq (transmitted_list q) (datagram_list q) (control_list q) (stream_list q)
    (outq_last_max_bytes q) (outq_data_inflight q) (outq_max_bytes q)
    (outq_inflight q) v (outq_bytes q) (outq_close_errcode q)
    (outq_close_frame q) (outq_rtx_count q) (outq_data_blocked q)
    (outq_data_level q).
Definition outq_set_bytes (q : quic_outqueue) (v : Z) :=
  mk_outq (transmitted_list q) (datagram_list q) (control_list q) (stream_list q)
    (outq_last_max_bytes q) (outq_data_inflight q) (outq_max_bytes q)
    (outq_inflight q) (outq_window q) v (outq_close_errcode q)
    (outq_close_frame q) (outq_rtx_count q) (outq_data_blocked q)
    (outq_data_level q).
Definition quic_outq_set_close_errcode (q : quic_outqueue) (v : Z) :=
  mk_outq (transmitted_list q) (datagram_list q) (control_list q) (stream_list q)
    (outq_last_max_bytes q) (outq_data_inflight q) (outq_max_bytes q)
    (outq_inflight q) (outq_window q) (outq_bytes q) v
    (outq_close_frame q) (outq_rtx_count q) (outq_data_blocked q)
    (outq_data_level q).
Definition quic_outq_set_close_frame (q : quic_outqueue) (v : Z) :=
  mk_outq (transmitted_list q) (datagram_list q) (control_list q) (stream_list q)
    (outq_last_max_bytes q) (outq_data_inflight q) (outq_max_bytes q)
    (outq_inflight q) (outq_window q) (outq_bytes q) (outq_close_errcode q)
    v (outq_rtx_count q) (outq_data_blocked q)
    (outq_data_level q).
Definition outq_set_rtx_count (q : quic_outqueue) (v : Z) :=
  mk_outq (transmitted_list q) (datagram_list q) (control_list q) (stream_list q)
    (outq_last_max_bytes q) (outq_data_inflight q) (outq_max_bytes q)
    (outq_inflight q) (outq_window q) (outq_bytes q) (outq_close_errcode q)
    (outq_close_frame q) v (outq_data_blocked q)
    (outq_data_level q).
Definition outq_set_data_blocked (q : quic_outqueue) (v : Z) :=
  mk_outq (transmitted_list q) (datagram_list q) (control_list q) (stream_list q)
    (outq_last_max_bytes q) (outq_data_inflight q) (outq_max_bytes q)
    (outq_inflight q) (outq_window q) (outq_bytes q) (outq_close_errcode q)
    (outq_close_frame q) (outq_rtx_count q) v
    (outq_data_level q).

(** Modelled from the spec: the packet-number map (pnmap.h is absent).
    The spec lists its interface as
    [pnmap.{next_number, inflight, set_loss_ts, loss_ts, dec_inflight,
    last_sent_ts, max_pn_acked, set_max_pn_acked, set_max_record_ts}];
    output.c itself reads the field [max_pn_acked].  Each accessor reads
    or writes the field of its name. *)
Record struct_quic_pnmap := mk_pnmap {
  pn_next_number : Z;
  pn_inflight : Z;
  pn_loss_ts : Z;
  pn_last_sent_ts : Z;
  max_pn_acked : Z;
  pn_max_record_ts : Z
}.

Definition quic_pnmap_next_number (m : struct_quic_pnmap) : Z := pn_next_number m.
Definition quic_pnmap_inflight (m : struct_quic_pnmap) : Z := pn_inflight m.
Definition quic_pnmap_loss_ts (m : struct_quic_pnmap) : Z := pn_loss_ts m.
Definition quic_pnmap_last_sent_ts (m : struct_quic_pnmap) : Z := pn_last_sent_ts m.
Definition quic_pnmap_set_loss_ts (m : struct_quic_pnmap) (v : Z) : struct_quic_pnmap :=
  mk_pnmap (pn_next_number m) (pn_inflight m) v (pn_last_sent_ts m)
           (max_pn_acked m) (pn_max_record_ts m).
Definition quic_pnmap_set_max_pn_acked (m : struct_quic_pnmap) (v : Z) : struct_quic_pnmap :=
  mk_pnmap (pn_next_number m) (pn_inflight m) (pn_loss_ts m)
           (pn_last_sent_ts m) v (pn_max_record_ts m).
Definition quic_pnmap_set_max_record_ts (m : struct_quic_pnmap) (v : Z) : struct_quic_pnmap :=
  mk_pnmap (pn_next_number m) (pn_inflight m) (pn_loss_ts m)
           (pn_last_sent_ts m) (max_pn_acked m) v.
Definition quic_pnmap_dec_inflight (B : field_bits) (m : struct_quic_pnmap) (len : Z)
  : struct_quic_pnmap :=
  mk_pnmap (pn_next_number m) (wrap (pn_inflight_bits B) (pn_inflight m - len))
           (pn_loss_ts m) (pn_last_sent_ts m) (max_pn_acked m)
           (pn_max_record_ts m).

(** Events offered to the user through [quic_inq_event_recv].  The
    [errcode] of a stream update is set only on the RESET_STREAM path. *)
Inductive quic_event :=
| QUIC_EVENT_STREAM_UPDATE (id state : Z) (errcode : option Z)
| QUIC_EVENT_CONNECTION_CLOSE (errcode frame : Z).

(** Argument of [quic_frame_create]. *)
Inductive frame_data :=
| data_stream (p : Z)
| data_outq
| data_probe_size
| data_null.

(** The [head] handed to [quic_outq_retransmit_list]: the transmitted
    list of the socket itself, or a list that is not one of its queues. *)
Inductive list_ref :=
| ref_transmitted
| ref_external (l : list quic_frame).

(** Calls into the collaborators, as recorded in the log. *)
Inductive call :=
| call_timer_reduce (type timeout : Z)
| call_timer_reset (type timeout : Z)
| call_timer_stop (type : Z)
| call_event_recv (e : quic_event)
| call_frame_free (f : quic_frame)
| call_cong_rtt_update (transmit_ts ack_delay : Z)
| call_cong_cwnd_update_after_sack (number transmit_ts acked_bytes inflight : Z)
| call_cong_cwnd_update_after_timeout (number transmit_ts last : Z)
| call_crypto_set_key_update_ts (level ts : Z)
| call_set_sk_ecn (ecn : Z)
| call_packet_mss_update (mss : Z)
| call_path_pl_send (number : Z)
| call_path_pl_recv
| call_refcount_sub (len : Z)
| call_wmem_queued_add (val : Z)
| call_mem_uncharge (len : Z)
| call_write_space.

Record sock := mk_sock {
  sk_outq : quic_outqueue;
  sk_streams : gmap Z quic_stream;
  sk_pnmap : gmap Z struct_quic_pnmap;
  sk_state : Z;
  sk_log : list call
}.

Definition set_outq (sk : sock) (q : quic_outqueue) : sock :=
  mk_sock q (sk_streams sk) (sk_pnmap sk) (sk_state sk) (sk_log sk).
Definition set_streams (sk : sock) (m : gmap Z quic_stream) : sock :=
  mk_sock (sk_outq sk) m (sk_pnmap sk) (sk_state sk) (sk_log sk).
Definition set_pnmaps (sk : sock) (m : gmap Z struct_quic_pnmap) : sock :=
  mk_sock (sk_outq sk) (sk_streams sk) m (sk_state sk) (sk_log sk).
(** Modelled from the spec: [quic_set_state] (socket.h is absent) is the
    "set socket state to CLOSED" of the close path; it writes the state
    that [quic_is_established] reads. *)
Definition quic_set_state (sk : sock) (v : Z) : sock :=
  mk_sock (sk_outq sk) (sk_streams sk) (sk_pnmap sk) v (sk_log sk).
Definition log_call (sk : sock) (c : call) : sock :=
  mk_sock (sk_outq sk) (sk_streams sk) (sk_pnmap sk) (sk_state sk)
          (c :: sk_log sk).

(** Update of the outqueue in place. *)
Definition with_outq (sk : sock) (f : quic_outqueue -> quic_outqueue) : sock :=
  set_outq sk (f (sk_outq sk)).

(** [*p = f( *p )] for a stream pointer and for [quic_pnmap(sk, level)]:
    undefined when nothing lives at the address. *)
Definition stream_at (sk : sock) (p : option Z) : option quic_stream :=
  a ← p; sk_streams sk !! a.
Definition stream_update (sk : sock) (p : option Z)
    (f : quic_stream -> quic_stream) : option sock :=
  a ← p; s ← sk_streams sk !! a;
  Some (set_streams sk (<[a := f s]> (sk_streams sk))).
Definition quic_pnmap (sk : sock) (level : Z) : option struct_quic_pnmap :=
  sk_pnmap sk !! level.
Definition pnmap_update (sk : sock) (level : Z)
    (f : struct_quic_pnmap -> struct_quic_pnmap) : option sock :=
  m ← sk_pnmap sk !! level;
  Some (set_pnmaps sk (<[level := f m]> (sk_pnmap sk))).

(** The timer subsystem (timer.h): only the calls are visible. *)
Definition quic_timer_reduce (sk : sock) (type timeout : Z) : sock :=
  log_call sk (call_timer_reduce type timeout).
Definition quic_timer_reset (sk : sock) (type timeout : Z) : sock :=
  log_call sk (call_timer_reset type timeout).
Definition quic_timer_stop (sk : sock) (type : Z) : sock :=
  log_call sk (call_timer_stop type).
Definition quic_frame_free (sk : sock) (f : quic_frame) : sock :=
  log_call sk (call_frame_free f).

(** Modelled from the spec: the encryption levels (the enum is declared
    in a header that is absent).  The spec has "0 denotes App"; timer.h
    numbers the loss timers by level and then SACK and PATH, so
    [QUIC_TIMER_PATH] is two past the handshake level, which is kept as a
    parameter below. *)
Definition QUIC_CRYPTO_APP : Z := 0.

(** More field updates, for the functions beyond the pending lists of the
    control path. *)
Definition outq_set_datagram_list (q : quic_outqueue) (l : list quic_frame) :=
  mk_outq (transmitted_list q) l (control_list q) (stream_list q)
    (outq_last_max_bytes q) (outq_data_inflight q) (outq_max_bytes q)
    (outq_inflight q) (outq_window q) (outq_bytes q) (outq_close_errcode q)
    (outq_close_frame q) (outq_rtx_count q) (outq_data_blocked q)
    (outq_data_level q).
Definition outq_set_max_bytes (q : quic_outqueue) (v : Z) :=
  mk_outq (transmitted_list q) (datagram_list q) (control_list q) (stream_list q)
    (outq_last_max_bytes q) (outq_data_inflight q) v
    (outq_inflight q) (outq_window q) (outq_bytes q) (outq_close_errcode q)
    (outq_close_frame q) (outq_rtx_count q) (outq_data_blocked q)
    (outq_data_level q).
Definition frame_set_path_alt (f : quic_frame) (path_alt : Z) : quic_frame :=
  mk_frame (frame_type f) (frame_level f) (frame_len f) (frame_bytes f)
           (frame_offset f) (frame_stream f) (frame_number f)
           (frame_transmit_ts f) (frame_ecn f) path_alt.

(** The four queues of the outqueue, and the [head] handed to
    [quic_outq_list_purge]: one of them or a list that is none of them. *)
Inductive outq_list :=
| list_transmitted
| list_datagram
| list_control
| list_stream.

Inductive purge_ref :=
| purge_outq (which : outq_list)
| purge_external (l : list quic_frame).

Definition outq_get_list (q : quic_outqueue) (which : outq_list)
  : list quic_frame :=
  match which with
  | list_transmitted => transmitted_list q
  | list_datagram => datagram_list q
  | list_control => control_list q
  | list_stream => stream_list q
  end.

Definition outq_set_list (q : quic_outqueue) (which : outq_list)
    (l : list quic_frame) : quic_outqueue :=
  match which with
  | list_transmitted => outq_set_transmitted_list q l
  | list_datagram => outq_set_datagram_list q l
  | list_control => outq_set_control_list q l
  | list_stream => outq_set_stream_list q l
  end.

(** [pos->path_alt &= ~path_alt] on a [u8] field. *)
Definition clear_path_alt (path_alt : Z) (pos : quic_frame) : quic_frame :=
  frame_set_path_alt pos
    (wrap 8 (Z.land (frame_path_alt pos) (Z.lnot path_alt))).

(** Calls into the path manager, the socket address and the ECN probe
    counter, which [quic_outq_validate_path] makes; they are recorded in
    a log of their own, most recent first. *)
Inductive path_call :=
| pcall_event_recv_migration (local : Z)
| pcall_path_swap_active
| pcall_path_addr_free (alt : Z)
| pcall_set_sk_addr (local : Z)
| pcall_path_set_sent_cnt (cnt : Z)
| pcall_packet_set_ecn_probes (probes : Z).

(** What [quic_outq_free] releases besides frames: the close phrase, a
    buffer the records do not hold. *)
Inductive mem_call :=
| mcall_kfree_close_phrase.

Definition is_frame_free (c : call) : bool :=
  match c with
  | call_frame_free _ => true
  | _ => false
  end.

(** The congestion update of the ack processor, among the calls. *)
Definition is_cwnd_update_after_sack (c : call) : bool :=
  match c with
  | call_cong_cwnd_update_after_sack _ _ _ _ => true
  | _ => false
  end.

(** Modelled from the spec: the packet builder moves the frames of a
    packet to [transmitted_list] when it emits the packet and stamps
    [number] and [transmit_ts] on each, and within a level the list is
    FIFO.  So a frame [g] that the reverse walk meets after a frame [f]
    of its level is of the packet of [f], with its number and transmit
    time, or of a packet numbered below. *)
Definition earlier_packet (f g : quic_frame) : Prop :=
  frame_number g = frame_number f /\
  frame_transmit_ts g = frame_transmit_ts f \/
  0 <= frame_number g < frame_number f.
Definition packet_order (walk : list quic_frame) : Prop :=
  StronglySorted earlier_packet walk.

(** ** Insertion loops

    Each loop walks a list up to the first [pos] at which it sets
    [head = &pos->list] and breaks; [list_add_tail(&frame->list, head)]
    then links the frame immediately before [pos], or at the tail of the
    list when the loop ran to its end. *)

(** The loop of [quic_outq_ctrl_tail]: break at the first [pos] with
    [!pos->level]. *)
Fixpoint ctrl_tail_add (frame : quic_frame) (l : list quic_frame)
  : list quic_frame :=
  match l with
  | [] => [frame]
  | pos :: rest =>
      if frame_level pos =? 0 then frame :: pos :: rest
      else pos :: ctrl_tail_add frame rest
  end.

(** The loop of [quic_outq_retransmit_one]. *)
Fixpoint retransmit_one_add (frame : quic_frame) (l : list quic_frame)
  : list quic_frame :=
  match l with
  | [] => [frame]
  | pos :: rest =>
      if frame_level frame <? frame_level pos then
        pos :: retransmit_one_add frame rest
      else if frame_level pos <? frame_level frame then
        frame :: pos :: rest
      else if (frame_offset pos =? 0) || (frame_offset frame <? frame_offset pos) then
        frame :: pos :: rest
      else pos :: retransmit_one_add frame rest
  end.

(** The same insertions as the specification words them, for comparison
    with the loops above.  Control-tail: "if the frame is handshake-level,
    append at the tail; if the frame is App-level, insert immediately
    before the first existing App-level frame". *)
Definition claimed_ctrl_tail_add (frame : quic_frame) (l : list quic_frame)
  : list quic_frame :=
  if negb (frame_level frame =? 0) then l ++ [frame]
  else ctrl_tail_add frame l.

(** Reinsertion of a lost frame: "lower-level frames precede higher-level
    frames within the list" and "within a level, insert before the first
    existing frame whose offset is greater". *)
Fixpoint claimed_retransmit_one_add (frame : quic_frame) (l : list quic_frame)
  : list quic_frame :=
  match l with
  | [] => [frame]
  | pos :: rest =>
      if frame_level frame <? frame_level pos then frame :: pos :: rest
      else if (frame_level pos =? frame_level frame)
              && (frame_offset frame <? frame_offset pos)
      then frame :: pos :: rest
      else pos :: claimed_retransmit_one_add frame rest
  end.

(** [l'] is [l] with [frame] linked immediately before the first frame
    that satisfies [P], or at the tail when no frame does. *)
Definition inserted_before_first (P : quic_frame -> Prop) (frame : quic_frame)
    (l l' : list quic_frame) : Prop :=
  exists before after,
    l = before ++ after /\
    l' = before ++ frame :: after /\
    Forall (fun pos => ~ P pos) before /\
    match after with
    | [] => True
    | pos :: _ => P pos
    end.

(** Where [quic_outq_retransmit_one] stops its scan for [frame]. *)
Definition retransmit_one_stop (frame pos : quic_frame) : Prop :=
  frame_level pos < frame_level frame \/
  (frame_level pos = frame_level frame /\
   (frame_offset pos = 0 \/ frame_offset frame < frame_offset pos)).

(** Levels never increase along the list: handshake before App. *)
Definition levels_descending (l : list quic_frame) : Prop :=
  StronglySorted (fun a b => frame_level b <= frame_level a) l.

(** The delay [quic_outq_update_loss_timer] hands to the timer for a
    deadline [timeout] read at time [now]. *)
Definition loss_timer_delay (now timeout : Z) : Z :=
  if timeout <? now then 1 else timeout - now.

(** The frames the reverse walk of [quic_outq_transmitted_sack]
    processes, in the order of the walk: those of [level] numbered at
    most [largest], up to the first one numbered below [smallest]. *)
Fixpoint sack_processed (level largest smallest : Z) (todo : list quic_frame)
  : list quic_frame :=
  match todo with
  | [] => []
  | frame :: todo =>
      if negb (level =? frame_level frame)
      then sack_processed level largest smallest todo
      else if largest <? frame_number frame
      then sack_processed level largest smallest todo
      else if frame_number frame <? smallest then []
      else frame :: sack_processed level largest smallest todo
  end.

(** [if (!acked_number) { acked_number = ...; transmit_ts = ...; }] over
    the processed frames. *)
Fixpoint sack_capture (processed : list quic_frame) (c : Z * Z) : Z * Z :=
  match processed with
  | [] => c
  | frame :: rest =>
      sack_capture rest
        (if c.1 =? 0
         then (frame_number frame, u32 (frame_transmit_ts frame)) else c)
  end.

(** Two sockets with the same live addresses: the same stream pointers
    and the same packet-number maps are valid in both. *)
Definition same_addresses (sk sk' : sock) : Prop :=
  dom (sk_streams sk') =@{gset Z} dom (sk_streams sk) /\
  dom (sk_pnmap sk') =@{gset Z} dom (sk_pnmap sk).

(** The pending list a lost frame goes back to. *)
Definition retransmit_origin (frame : quic_frame) (q : quic_outqueue)
  : list quic_frame :=
  if frame_bytes frame =? 0 then control_list q else stream_list q.

(** ** A concrete socket

    An instance of the parameters of the development and a few frames and
    sockets, on which the definitions can be run. *)
Module Fx.

Definition bits : field_bits := mk_field_bits 32 32 64 64 32 32.

(** Frame type codes of RFC 9000, stream send states and levels. *)
Definition PING : Z := 1.
Definition RESET_STREAM : Z := 4.
Definition STREAM : Z := 8.
Definition DATA_BLOCKED : Z := 20.
Definition STREAM_DATA_BLOCKED : Z := 21.
Definition CONNECTION_CLOSE : Z := 28.
Definition DATAGRAM : Z := 48.
Definition SENT : Z := 2.
Definition RECVD : Z := 4.
Definition RESET_RECVD : Z := 6.
Definition ESTABLISHED : Z := 2.
Definition CLOSED : Z := 0.
Definition INITIAL : Z := 1.
Definition HANDSHAKE : Z := 2.
Definition ECT_0 : Z := 2.

Definition is_dgram (type : Z) : bool := (type =? 48) || (type =? 49).

(** A packet builder that packs every pending control frame at once. *)
Definition transmit (sk : sock) : sock :=
  with_outq sk (fun q =>
    outq_set_control_list
      (outq_set_transmitted_list q (transmitted_list q ++ control_list q)) []).

Definition create (sk : sock) (type : Z) (d : frame_data) : option quic_frame :=
  Some (mk_frame type 0 9 0 0
          (match d with data_stream p => Some p | _ => None end) 0 0 0 0).
Definition create_fails (sk : sock) (type : Z) (d : frame_data)
  : option quic_frame := None.
Definition create_no_data_blocked (sk : sock) (type : Z) (d : frame_data)
  : option quic_frame :=
  if type =? DATA_BLOCKED then None else create sk type d.

Definition refused (sk : sock) (e : quic_event) : bool := true.
Definition delivered (sk : sock) (e : quic_event) : bool := false.

Definition rto (sk : sock) : Z := 100.
Definition window (sk : sock) : Z := 12000.
Definition duration (sk : sock) : Z := 300.
Definition probe_timeout (sk : sock) : Z := 5000.
Definition taglen (sk : sock) : Z := 16.
Definition pl_send (sk : sock) (number : Z) : Z := 0.
Definition pl_confirm (sk : sock) (largest smallest : Z) : bool := false.
Definition pl_recv (sk : sock) : Z * bool * bool := (0, false, true).
Definition wspace (sk : sock) : Z := 0.

(** Frames: a control frame at a level, and a stream frame of stream 4. *)
Definition ctrl (type level : Z) : quic_frame :=
  mk_frame type level 5 0 0 None 0 0 0 0.
Definition data (bytes offset number transmit_ts : Z) : quic_frame :=
  mk_frame STREAM 0 (bytes + 4) bytes offset (Some 4) number transmit_ts 0 0.

Definition stream4 (state bytes max_bytes frags : Z) : quic_stream :=
  mk_stream 4 state bytes max_bytes 0 0 frags 0.

Definition pnmap0 : struct_quic_pnmap := mk_pnmap 8 0 0 0 0 0.

Definition outq0 : quic_outqueue :=
  mk_outq [] [] [] [] 0 0 100000 0 12000 0 0 0 0 0 0.

(** An established socket with stream 4 and the three packet-number
    maps. *)
Definition sock0 (q : quic_outqueue) (s : quic_stream) : sock :=
  mk_sock q {[ 4 := s ]} {[ 0 := pnmap0; 1 := pnmap0; 2 := pnmap0 ]}
          ESTABLISHED [].

(** A socket whose App packet-number map has 120 bytes in flight, was
    last sent to at 650 and carries [loss_ts]; [rtx_count] is 2. *)
Definition timer_sock (loss_ts : Z) : sock :=
  mk_sock (outq_set_rtx_count outq0 2) ∅
          {[ 0 := mk_pnmap 8 120 loss_ts 650 0 0 ]} ESTABLISHED [].

(** Stream 4 is SENT with two fragments in flight, in packets 41 and 42;
    a PING of packet 40 is in flight too. *)
Definition f40 : quic_frame := mk_frame PING 0 5 0 0 None 40 7 0 0.
Definition f41 : quic_frame := data 300 0 41 8.
Definition f42 : quic_frame := data 500 300 42 10.
Definition inflight_sock : sock :=
  mk_sock
    (mk_outq [f40; f41; f42] [] [] [] 0 800 100000 813 12000 800 0 0 3 0 0)
    {[ 4 := stream4 SENT 800 1000 2 ]}
    {[ 0 := mk_pnmap 43 813 0 10 39 0; 1 := pnmap0; 2 := pnmap0 ]}
    ESTABLISHED [].

(** Stream 4 is SENT and its last fragment, of packet 42, is in flight. *)
Definition last_fragment_sock : sock :=
  mk_sock
    (mk_outq [f42] [] [] [] 0 500 100000 504 12000 800 0 0 0 0 0)
    {[ 4 := stream4 SENT 800 1000 1 ]}
    {[ 0 := mk_pnmap 43 504 0 10 41 0; 1 := pnmap0; 2 := pnmap0 ]}
    ESTABLISHED [].

(** The stream send states before SENT, and the FIN bit of a STREAM
    frame type. *)
Definition READY : Z := 0.
Definition SEND : Z := 1.
Definition FIN : Z := 1.

(** A handshake-level frame ahead of an App-level one, in flight and
    pending. *)
Definition hs_sock : sock :=
  sock0 (outq_set_control_list
           (outq_set_transmitted_list outq0 [ctrl PING HANDSHAKE; f41])
           [ctrl PING HANDSHAKE; ctrl PING 0])
        (stream4 SENT 800 1000 2).

(** Streams 4 and 6 with fragments in flight, in packets 41 to 43, and a
    fragment of stream 4 pending. *)
Definition f43 : quic_frame := mk_frame STREAM 0 104 100 0 (Some 6) 43 11 0 0.
Definition f44 : quic_frame := data 200 800 0 0.
Definition two_stream_sock : sock :=
  mk_sock
    (mk_outq [f40; f41; f43; f42] [] [] [f44] 0 900 100000 917 12000 900
             0 0 0 0 0)
    {[ 4 := stream4 SENT 800 1000 2; 6 := mk_stream 6 SEND 100 1000 0 0 1 0 ]}
    {[ 0 := mk_pnmap 44 917 0 11 39 0; 1 := pnmap0; 2 := pnmap0 ]}
    ESTABLISHED [].

(** Stream 4 has advertised its limit of 1000 already. *)
Definition advertised_stream : quic_stream := mk_stream 4 SEND 900 1000 1000 1 0 0.

End Fx.

Set Default Proof Using "Type".

Section Outqueue.

(** *** Parameters: what the absent headers and collaborators fix *)

Variable B : field_bits.

(** Frame types, stream send states, socket states, the handshake level
    and the ECN codepoint. *)
Variable QUIC_FRAME_PING : Z.
Variable QUIC_FRAME_RESET_STREAM : Z.
Variable QUIC_FRAME_DATA_BLOCKED : Z.
Variable QUIC_FRAME_STREAM_DATA_BLOCKED : Z.
Variable QUIC_FRAME_CONNECTION_CLOSE : Z.
Variable QUIC_STREAM_SEND_STATE_SENT : Z.
Variable QUIC_STREAM_SEND_STATE_RECVD : Z.
Variable QUIC_STREAM_SEND_STATE_RESET_RECVD : Z.
Variable QUIC_SS_ESTABLISHED : Z.
Variable QUIC_SS_CLOSED : Z.
Variable QUIC_CRYPTO_HANDSHAKE : Z.
Variable INET_ECN_ECT_0 : Z.

(** timer.h: AP_LOSS, IN_LOSS and HS_LOSS are the levels; SACK and PATH
    follow HS_LOSS. *)
Definition QUIC_TIMER_PATH : Z := QUIC_CRYPTO_HANDSHAKE + 2.

(** The transmit scheduler.  [quic_outq_transmit] and its control phase
    are driven by the packet builder, which unlinks the frames it packs;
    they are kept opaque. *)
Variable quic_outq_transmit : sock -> sock.
Variable quic_outq_transmit_ctrl : sock -> sock.

(** Frame factory: [None] is an allocation failure. *)
Variable quic_frame_create : sock -> Z -> frame_data -> option quic_frame.
Variable quic_frame_is_dgram : Z -> bool.

(** The answer of the event channel: [true] when the user took the
    event.  The payload is taken to come back as it was passed. *)
Variable event_recv_handled : sock -> quic_event -> bool.

(** Values read from the congestion controller, the inqueue, the packet
    builder, the path manager and the socket memory accounting. *)
Variable quic_cong_rto : sock -> Z.
Variable quic_cong_window : sock -> Z.
Variable quic_cong_duration : sock -> Z.
Variable quic_inq_probe_timeout : sock -> Z.
Variable quic_packet_taglen : sock -> Z.
Variable path_pl_send_mtu : sock -> Z -> Z.
Variable quic_path_pl_confirm : sock -> Z -> Z -> bool.
Variable path_pl_recv_result : sock -> Z * bool * bool.
Variable sk_stream_wspace : sock -> Z.

(** Modelled from the spec: [quic_is_established] (socket.h is absent),
    the "only when established" of the probe, compares the socket
    state. *)
Definition quic_is_established (sk : sock) : bool :=
  sk_state sk =? QUIC_SS_ESTABLISHED.

(** [quic_inq_event_recv]: the delivery is logged, the answer is the
    oracle's at the socket of the call. *)
Definition quic_inq_event_recv (sk : sock) (e : quic_event) : bool * sock :=
  (event_recv_handled sk e, log_call sk (call_event_recv e)).

(** *** Queue manager *)

Definition quic_outq_ctrl_tail (sk : sock) (frame : quic_frame) (cork : bool)
  : sock :=
  let head := control_list (sk_outq sk) in
  let l :=
    if negb (frame_level frame =? 0) then (* prioritize handshake frames *)
      ctrl_tail_add frame head
    else head ++ [frame] in
  let sk := with_outq sk (fun q => outq_set_control_list q l) in
  if cork then sk else quic_outq_transmit sk.

(** [quic_outq_wfree]. *)
Definition quic_outq_wfree (len : Z) (sk : sock) : sock :=
  if len =? 0 then sk
  else
    let sk := log_call sk (call_refcount_sub len) in
    let sk := log_call sk (call_wmem_queued_add (s32 (- len))) in
    let sk := log_call sk (call_mem_uncharge len) in
    if 0 <? sk_stream_wspace sk then log_call sk call_write_space else sk.

(** *** Flow-control gate

    [quic_outq_flow_control] is the sequence of its three gates; the
    locals [nframe] and [blocked] are threaded through them. *)

(** [if (outq->data_inflight + len > outq->window) blocked = 1;] *)
Definition flow_control_cong (sk : sock) (len : Z) : Z :=
  if outq_window (sk_outq sk)
     <? wrap (with_u32 (data_inflight_bits B))
             (outq_data_inflight (sk_outq sk) + len)
  then 1 else 0.

(** The block under [/* send flow control */], on [stream = frame->stream]. *)
Definition flow_control_stream (sk : sock) (sptr : option Z) (len : Z)
    (blocked : Z) : option (sock * option quic_frame * Z) :=
  stream ← stream_at sk sptr;
  if send_max_bytes stream
     <? wrap (with_u32 (send_bytes_bits B)) (send_bytes stream + len)
  then
    if (send_data_blocked stream =? 0)
       && (send_last_max_bytes stream <? send_max_bytes stream)
    then
      let nframe :=
        quic_frame_create sk QUIC_FRAME_STREAM_DATA_BLOCKED
          (from_option data_stream data_null sptr) in
      let sk := match nframe with
                | Some nf => quic_outq_ctrl_tail sk nf true
                | None => sk
                end in
      sk ← stream_update sk sptr (fun s =>
             stream_set_data_blocked
               (stream_set_last_max_bytes s (send_max_bytes s)) 1);
      Some (sk, nframe, 1)
    else Some (sk, None, 1)
  else Some (sk, None, blocked).

(** The block on [outq->bytes + len > outq->max_bytes]. *)
Definition flow_control_conn (sk : sock) (len : Z)
    (nframe : option quic_frame) (blocked : Z)
  : sock * option quic_frame * Z :=
  let outq := sk_outq sk in
  if outq_max_bytes outq
     <? wrap (with_u32 (bytes_bits B)) (outq_bytes outq + len)
  then
    if (outq_data_blocked outq =? 0)
       && (outq_last_max_bytes outq <? outq_max_bytes outq)
    then
      let nframe := quic_frame_create sk QUIC_FRAME_DATA_BLOCKED data_outq in
      let sk := match nframe with
                | Some nf => quic_outq_ctrl_tail sk nf true
                | None => sk
                end in
      let sk := with_outq sk (fun q =>
                  outq_set_data_blocked
                    (outq_set_last_max_bytes q (outq_max_bytes q)) 1) in
      (sk, nframe, 1)
    else (sk, nframe, 1)
  else (sk, nframe, blocked).

(** [if (nframe) quic_outq_transmit_ctrl(sk); return blocked;] *)
Definition flow_control_ret (st : sock * option quic_frame * Z) : Z * sock :=
  let '(sk, nframe, blocked) := st in
  (blocked, match nframe with
            | Some _ => quic_outq_transmit_ctrl sk
            | None => sk
            end).

Definition quic_outq_flow_control (sk : sock) (frame : quic_frame)
  : option (Z * sock) :=
  let len := u32 (frame_bytes frame) in
  let blocked := flow_control_cong sk len in
  '(sk, nframe, blocked) ← flow_control_stream sk (frame_stream frame) len blocked;
  Some (flow_control_ret (flow_control_conn sk len nframe blocked)).

(** The three conditions of the gate, as the code computes them. *)
Definition cong_gate (sk : sock) (frame : quic_frame) : Prop :=
  outq_window (sk_outq sk)
  < wrap (with_u32 (data_inflight_bits B))
         (outq_data_inflight (sk_outq sk) + u32 (frame_bytes frame)).
Definition stream_gate (s : quic_stream) (frame : quic_frame) : Prop :=
  send_max_bytes s
  < wrap (with_u32 (send_bytes_bits B)) (send_bytes s + u32 (frame_bytes frame)).
Definition conn_gate (sk : sock) (frame : quic_frame) : Prop :=
  outq_max_bytes (sk_outq sk)
  < wrap (with_u32 (bytes_bits B))
         (outq_bytes (sk_outq sk) + u32 (frame_bytes frame)).

(** *** Probe and close *)

Definition quic_outq_transmit_probe (sk : sock) : option sock :=
  let taglen := wrap 8 (quic_packet_taglen sk) in
  if negb (quic_is_established sk) then Some sk
  else
    sk ← match quic_frame_create sk QUIC_FRAME_PING data_probe_size with
         | Some frame =>
             pnmap ← quic_pnmap sk QUIC_CRYPTO_APP;
             let number := quic_pnmap_next_number pnmap in
             let sk := quic_outq_ctrl_tail sk frame false in
             let pathmtu := u32 (path_pl_send_mtu sk number) in
             let sk := log_call sk (call_path_pl_send number) in
             Some (if pathmtu =? 0 then sk
                   else log_call sk (call_packet_mss_update (u32 (pathmtu + taglen))))
         | None => Some sk
         end;
    Some (quic_timer_reset sk QUIC_TIMER_PATH (u32 (quic_inq_probe_timeout sk))).

Definition quic_outq_transmit_close (sk : sock) (type errcode level : Z) : sock :=
  if errcode =? 0 then sk
  else
    let close := QUIC_EVENT_CONNECTION_CLOSE errcode type in
    let '(handled, sk) := quic_inq_event_recv sk close in
    if handled then sk
    else
      let sk := with_outq sk (fun q => quic_outq_set_close_errcode q errcode) in
      let sk := with_outq sk (fun q => quic_outq_set_close_frame q type) in
      let sk := match quic_frame_create sk QUIC_FRAME_CONNECTION_CLOSE data_null with
                | Some frame =>
                    quic_outq_ctrl_tail sk (frame_set_level frame level) false
                | None => sk
                end in
      quic_set_state sk QUIC_SS_CLOSED.

(** *** Loss timer

    [now] is the reading of [jiffies_to_usecs(jiffies)]. *)
Definition quic_outq_update_loss_timer (sk : sock) (level : Z) (now : Z)
  : option sock :=
  pnmap ← quic_pnmap sk level;
  let now := u32 now in
  let out (timeout : Z) : sock :=
    let timeout := if timeout <? now then u32 (now + 1) else timeout in
    quic_timer_reduce sk level (u32 (timeout - now)) in
  let timeout := u32 (quic_pnmap_loss_ts pnmap) in
  if negb (timeout =? 0) then Some (out timeout)
  else if quic_pnmap_inflight pnmap =? 0 then Some (quic_timer_stop sk level)
  else
    let timeout := u32 (quic_cong_duration sk) in
    let timeout := u32 (timeout * (1 + outq_rtx_count (sk_outq sk))) in
    let timeout := u32 (timeout + quic_pnmap_last_sent_ts pnmap) in
    Some (out timeout).

(** *** Loss processor *)

(** put the timeout frame back to the corresponding outqueue *)
Definition quic_outq_retransmit_one (sk : sock) (frame : quic_frame)
  : option sock :=
  if negb (frame_bytes frame =? 0) then
    sk ← stream_update sk (frame_stream frame) (fun s =>
           stream_set_frags s (wrap (send_frags_bits B) (send_frags s - 1)));
    sk ← stream_update sk (frame_stream frame) (fun s =>
           stream_set_bytes s
             (wrap (send_bytes_bits B) (send_bytes s - frame_bytes frame)));
    let sk := with_outq sk (fun q =>
                outq_set_bytes q
                  (wrap (bytes_bits B) (outq_bytes q - frame_bytes frame))) in
    Some (with_outq sk (fun q =>
            outq_set_stream_list q (retransmit_one_add frame (stream_list q))))
  else
    Some (with_outq sk (fun q =>
            outq_set_control_list q (retransmit_one_add frame (control_list q)))).

(** The loop of [quic_outq_retransmit_mark] over [transmitted_list];
    [kept] holds, last first, the frames the cursor has passed and left
    linked, [todo] the frames from the cursor on.  A [Some] result is the
    state at the end of the loop or at its [break]. *)
Fixpoint retransmit_mark_walk (level immediate now last : Z)
    (kept todo : list quic_frame) (st : sock * Z * Z) : option (sock * Z * Z) :=
  let '(sk, count, bytes) := st in
  match todo with
  | [] => Some st
  | frame :: todo =>
      if negb (level =? frame_level frame) then
        retransmit_mark_walk level immediate now last (frame :: kept) todo st
      else
        let transmit_ts := u32 (frame_transmit_ts frame) in
        let number := frame_number frame in
        let rto := u32 (quic_cong_rto sk) in
        pnmap ← quic_pnmap sk level;
        if (immediate =? 0) && (now <? u32 (transmit_ts + rto))
           && (max_pn_acked pnmap <? s64 (number + 6))
        then
          sk ← pnmap_update sk level (fun m =>
                 quic_pnmap_set_loss_ts m (u32 (transmit_ts + rto)));
          Some (sk, count, bytes)
        else
          sk ← pnmap_update sk level (fun m =>
                 quic_pnmap_dec_inflight B m (frame_len frame));
          let sk := with_outq sk (fun q =>
                      outq_set_data_inflight q
                        (wrap (data_inflight_bits B)
                              (outq_data_inflight q - frame_bytes frame))) in
          let sk := with_outq sk (fun q =>
                      outq_set_inflight q
                        (wrap (inflight_bits B)
                              (outq_inflight q - frame_len frame))) in
          let sk := with_outq sk (fun q =>
                      outq_set_transmitted_list q (rev kept ++ todo)) in
          '(sk, count, bytes) ←
            (if quic_frame_is_dgram (frame_type frame) then
               (* no need to retransmit dgram *)
               Some (quic_frame_free sk frame, count,
                     u32 (bytes + frame_bytes frame))
             else
               sk ← quic_outq_retransmit_one sk frame; (* mark as loss *)
               Some (sk, u32 (count + 1), bytes));
          let sk :=
            if negb (frame_bytes frame =? 0) then
              let sk := log_call sk
                (call_cong_cwnd_update_after_timeout number transmit_ts last) in
              with_outq sk (fun q => quic_outq_set_window q (quic_cong_window sk))
            else sk in
          retransmit_mark_walk level immediate now last kept todo
            (sk, count, bytes)
  end.

(** [now] and [now_timer] are the two clock readings, the second one
    taken inside [quic_outq_update_loss_timer]. *)
Definition quic_outq_retransmit_mark (sk : sock) (level immediate : Z)
    (now now_timer : Z) : option (Z * sock) :=
  sk ← pnmap_update sk level (fun m => quic_pnmap_set_loss_ts m 0);
  pnmap ← quic_pnmap sk level;
  let last := s64 (quic_pnmap_next_number pnmap - 1) in
  '(sk, count, bytes) ←
    retransmit_mark_walk level immediate (u32 now) last []
      (transmitted_list (sk_outq sk)) (sk, 0, 0);
  let sk := quic_outq_wfree (s32 bytes) sk in
  sk ← quic_outq_update_loss_timer sk level now_timer;
  Some (s32 count, sk).

(** [list_del(&frame->list)] on the list [head] refers to, whose
    remaining frames are [rest]. *)
Definition list_ref_store (head : list_ref) (rest : list quic_frame)
    (sk : sock) : sock :=
  match head with
  | ref_transmitted =>
      with_outq sk (fun q => outq_set_transmitted_list q rest)
  | ref_external _ => sk
  end.

Definition list_ref_frames (sk : sock) (head : list_ref) : list quic_frame :=
  match head with
  | ref_transmitted => transmitted_list (sk_outq sk)
  | ref_external l => l
  end.

(** The loop of [quic_outq_retransmit_list]: every frame is unlinked, so
    the cursor is always at the first frame of what remains. *)
Fixpoint retransmit_list_walk (head : list_ref) (todo : list quic_frame)
    (st : sock * Z) : option (sock * Z) :=
  let '(sk, bytes) := st in
  match todo with
  | [] => Some st
  | frame :: todo =>
      let sk := list_ref_store head todo sk in
      let sk := with_outq sk (fun q =>
                  outq_set_data_inflight q
                    (wrap (data_inflight_bits B)
                          (outq_data_inflight q - frame_bytes frame))) in
      if quic_frame_is_dgram (frame_type frame) then
        retransmit_list_walk head todo
          (quic_frame_free sk frame, s32 (bytes + frame_bytes frame))
      else
        sk ← quic_outq_retransmit_one sk frame;
        retransmit_list_walk head todo (sk, bytes)
  end.

Definition quic_outq_retransmit_list (sk : sock) (head : list_ref)
  : option sock :=
  '(sk, bytes) ← retransmit_list_walk head (list_ref_frames sk head) (sk, 0);
  Some (quic_outq_wfree bytes sk).

(** *** Ack processor *)

(** What one turn of the loop of [quic_outq_transmitted_sack] does with
    the cursor: [break], or move on with the frame left linked
    ([continue]) or unlinked and freed. *)
Inductive sack_outcome :=
| sack_break
| sack_next (unlinked : bool) (st : sock * Z * Z * Z).

(** The stream and connection state machine of the loop body, from
    [stream = frame->stream] to the label [unlink]: [true] when control
    reaches [unlink], [false] on [continue]. *)
Definition transmitted_sack_state (sk : sock) (frame : quic_frame)
  : option (bool * sock) :=
  let stream := frame_stream frame in
  if negb (frame_bytes frame =? 0) then
    match stream with
    | None => Some (true, sk)
    | Some _ =>
        sk ← stream_update sk stream (fun s =>
               stream_set_frags s (wrap (send_frags_bits B) (send_frags s - 1)));
        s ← stream_at sk stream;
        if negb (send_frags s =? 0)
           || negb (send_state s =? QUIC_STREAM_SEND_STATE_SENT)
        then Some (true, sk)
        else
          let update :=
            QUIC_EVENT_STREAM_UPDATE (stream_id s)
              QUIC_STREAM_SEND_STATE_RECVD None in
          let '(handled, sk) := quic_inq_event_recv sk update in
          if handled then
            sk ← stream_update sk stream (fun s =>
                   stream_set_frags s
                     (wrap (send_frags_bits B) (send_frags s + 1)));
            Some (false, sk)
          else
            sk ← stream_update sk stream (fun s =>
                   stream_set_state s QUIC_STREAM_SEND_STATE_RECVD);
            Some (true, sk)
    end
  else if frame_type frame =? QUIC_FRAME_RESET_STREAM then
    s ← stream_at sk stream;
    let update :=
      QUIC_EVENT_STREAM_UPDATE (stream_id s)
        QUIC_STREAM_SEND_STATE_RESET_RECVD (Some (send_errcode s)) in
    let '(handled, sk) := quic_inq_event_recv sk update in
    if handled then Some (false, sk)
    else
      sk ← stream_update sk stream (fun s =>
             stream_set_state s QUIC_STREAM_SEND_STATE_RESET_RECVD);
      Some (true, sk)
  else if frame_type frame =? QUIC_FRAME_STREAM_DATA_BLOCKED then
    sk ← stream_update sk stream (fun s => stream_set_data_blocked s 0);
    Some (true, sk)
  else if frame_type frame =? QUIC_FRAME_DATA_BLOCKED then
    Some (true, with_outq sk (fun q => outq_set_data_blocked q 0))
  else Some (true, sk).

(** The block on [frame->number == ack_largest]: the RTT sample and the
    two timestamps derived from the new RTO. *)
Definition transmitted_sack_rtt (sk : sock) (level ack_largest ack_delay : Z)
    (frame : quic_frame) : option sock :=
  if frame_number frame =? ack_largest then
    let sk := log_call sk
      (call_cong_rtt_update (frame_transmit_ts frame) ack_delay) in
    let rto := u32 (quic_cong_rto sk) in
    sk ← pnmap_update sk level (fun m =>
           quic_pnmap_set_max_record_ts m (u32 (rto * 2)));
    Some (log_call sk (call_crypto_set_key_update_ts level (u32 (rto * 2))))
  else Some sk.

(** The loop body at [frame]; [rest] is [transmitted_list] without the
    frame, [st] the socket with the locals [acked_bytes], [acked_number]
    and [transmit_ts]. *)
Definition transmitted_sack_frame (level largest smallest ack_largest ack_delay : Z)
    (rest : list quic_frame) (frame : quic_frame) (st : sock * Z * Z * Z)
  : option sack_outcome :=
  let '(sk, acked_bytes, acked_number, transmit_ts) := st in
  if negb (level =? frame_level frame) then Some (sack_next false st)
  else if largest <? frame_number frame then Some (sack_next false st)
  else if frame_number frame <? smallest then Some sack_break
  else
    sk ← transmitted_sack_rtt sk level ack_largest ack_delay frame;
    let '(acked_number, transmit_ts) :=
      if acked_number =? 0
      then (frame_number frame, u32 (frame_transmit_ts frame))
      else (acked_number, transmit_ts) in
    let sk := if negb (frame_ecn frame =? 0)
              then log_call sk (call_set_sk_ecn INET_ECN_ECT_0) else sk in
    r ← transmitted_sack_state sk frame;
    let to_unlink : bool := r.1 in
    let sk : sock := r.2 in
    if to_unlink then
      sk ← pnmap_update sk level (fun m =>
             quic_pnmap_set_max_pn_acked m (frame_number frame));
      let acked_bytes := u32 (acked_bytes + frame_bytes frame) in
      sk ← pnmap_update sk level (fun m =>
             quic_pnmap_dec_inflight B m (frame_len frame));
      let sk := with_outq sk (fun q =>
                  outq_set_data_inflight q
                    (wrap (data_inflight_bits B)
                          (outq_data_inflight q - frame_bytes frame))) in
      let sk := with_outq sk (fun q =>
                  outq_set_inflight q
                    (wrap (inflight_bits B) (outq_inflight q - frame_len frame))) in
      let sk := with_outq sk (fun q => outq_set_transmitted_list q rest) in
      let sk := quic_frame_free sk frame in
      Some (sack_next true (sk, acked_bytes, acked_number, transmit_ts))
    else Some (sack_next false (sk, acked_bytes, acked_number, transmit_ts)).

(** The reverse walk: [todo] holds the frames before the cursor, nearest
    first; [kept] the frames behind it that stayed linked, in list
    order. *)
Fixpoint transmitted_sack_walk (level largest smallest ack_largest ack_delay : Z)
    (todo kept : list quic_frame) (st : sock * Z * Z * Z)
  : option (sock * Z * Z * Z) :=
  match todo with
  | [] => Some st
  | frame :: todo =>
      match transmitted_sack_frame level largest smallest ack_largest ack_delay
              (rev todo ++ kept) frame st with
      | None => None
      | Some sack_break => Some st
      | Some (sack_next false st) =>
          transmitted_sack_walk level largest smallest ack_largest ack_delay
            todo (frame :: kept) st
      | Some (sack_next true st) =>
          transmitted_sack_walk level largest smallest ack_largest ack_delay
            todo kept st
      end
  end.

(** The path-MTU prologue of [quic_outq_transmitted_sack]. *)
Definition transmitted_sack_pl (sk : sock) (largest smallest : Z) : option sock :=
  if quic_path_pl_confirm sk largest smallest then
    let '(pathmtu, raise_timer, complete) := path_pl_recv_result sk in
    let pathmtu := u32 pathmtu in
    let sk := log_call sk call_path_pl_recv in
    let sk := if pathmtu =? 0 then sk
              else
                let taglen := u32 (quic_packet_taglen sk) in
                log_call sk (call_packet_mss_update (u32 (pathmtu + taglen))) in
    sk ← (if complete then Some sk else quic_outq_transmit_probe sk);
    Some (if raise_timer (* reuse probe timer as raise timer *)
          then quic_timer_reset sk QUIC_TIMER_PATH
                 (u32 (quic_inq_probe_timeout sk * 30))
          else sk)
  else Some sk.

(** The tail of [quic_outq_transmitted_sack], after the walk. *)
Definition transmitted_sack_finish (st : sock * Z * Z * Z) : Z * sock :=
  let '(sk, acked_bytes, acked_number, transmit_ts) := st in
  let sk := with_outq sk (fun q => outq_set_rtx_count q 0) in
  let sk :=
    if negb (acked_bytes =? 0) then
      let sk := log_call sk
        (call_cong_cwnd_update_after_sack acked_number transmit_ts acked_bytes
           (outq_data_inflight (sk_outq sk))) in
      with_outq sk (fun q => quic_outq_set_window q (quic_cong_window sk))
    else sk in
  (s32 acked_bytes, sk).

Definition quic_outq_transmitted_sack (sk : sock)
    (level largest smallest ack_largest ack_delay : Z) : option (Z * sock) :=
  sk ← transmitted_sack_pl sk largest smallest;
  st ← transmitted_sack_walk level largest smallest ack_largest ack_delay
         (rev (transmitted_list (sk_outq sk))) [] (sk, 0, 0, 0);
  Some (transmitted_sack_finish st).

(** The frame can go through the loop body of the ack processor without
    a wild dereference: a stream pointer that is set is valid, and a
    frame without a stream is not one whose type makes the body
    dereference it. *)
Definition sack_stream_ok (sk : sock) (frame : quic_frame) : Prop :=
  match frame_stream frame with
  | Some a => is_Some (sk_streams sk !! a)
  | None =>
      frame_bytes frame = 0 ->
      frame_type frame <> QUIC_FRAME_RESET_STREAM /\
      frame_type frame <> QUIC_FRAME_STREAM_DATA_BLOCKED
  end.

(** The frame can go through the loss processor: unless it is a
    datagram, which is dropped, a frame that carries bytes has a valid
    stream pointer. *)
Definition retransmit_ok (sk : sock) (frame : quic_frame) : Prop :=
  quic_frame_is_dgram (frame_type frame) = true \/
  frame_bytes frame = 0 \/
  is_Some (stream_at sk (frame_stream frame)).

(** Totals over a list of frames. *)
Definition total (g : quic_frame -> Z) (l : list quic_frame) : Z :=
  fold_right (fun f acc => g f + acc) 0 l.

(** [frame->len] of the frames of [level], which are the ones counted in
    the in-flight count of that level's packet-number map. *)
Definition len_at (level : Z) (f : quic_frame) : Z :=
  if frame_level f =? level then frame_len f else 0.

(** The in-flight counters do not move. *)
Definition inflight_kept (sk sk' : sock) : Prop :=
  transmitted_list (sk_outq sk') = transmitted_list (sk_outq sk) /\
  outq_data_inflight (sk_outq sk') = outq_data_inflight (sk_outq sk) /\
  outq_inflight (sk_outq sk') = outq_inflight (sk_outq sk) /\
  sk_pnmap sk' = sk_pnmap sk.

(** [outq->data_inflight -= frame->bytes], frame after frame. *)
Definition data_inflight_after (frames : list quic_frame) (data_inflight : Z)
  : Z :=
  fold_left (fun d f => wrap (data_inflight_bits B) (d - frame_bytes f))
            frames data_inflight.

(** What left [transmitted_list] between [sk] and [sk'], as a total of
    [g] over the frames. *)
Definition unlinked (g : quic_frame -> Z) (sk sk' : sock) : Z :=
  total g (transmitted_list (sk_outq sk))
  - total g (transmitted_list (sk_outq sk')).

(** From [sk] to [sk'] the three in-flight counters went down by what was
    unlinked from [transmitted_list]: [data_inflight] by the bytes,
    [inflight] by the lengths, and the in-flight count of the
    packet-number map of [level] by the lengths of its frames. *)
Definition inflight_settled (level : Z) (sk sk' : sock) : Prop :=
  wrap (data_inflight_bits B) (outq_data_inflight (sk_outq sk'))
    = wrap (data_inflight_bits B)
        (outq_data_inflight (sk_outq sk) - unlinked frame_bytes sk sk') /\
  wrap (inflight_bits B) (outq_inflight (sk_outq sk'))
    = wrap (inflight_bits B)
        (outq_inflight (sk_outq sk) - unlinked frame_len sk sk') /\
  exists m m',
    quic_pnmap sk level = Some m /\ quic_pnmap sk' level = Some m' /\
    wrap (pn_inflight_bits B) (pn_inflight m')
      = wrap (pn_inflight_bits B)
          (pn_inflight m - unlinked (len_at level) sk sk').

(** *** Queue manager: the other enqueue entry points *)

Variable QUIC_STREAM_SEND_STATE_READY : Z.
Variable QUIC_STREAM_SEND_STATE_SEND : Z.
Variable QUIC_STREAM_BIT_FIN : Z.

(** Modelled from the spec: the "active send stream" of the stream table
    (stream.h is absent), which [quic_stream_send_active] reads and
    [quic_stream_set_send_active] writes.  It is threaded through
    [quic_outq_stream_tail] as [send_active]. *)
Definition quic_outq_stream_tail (sk : sock) (send_active : Z)
    (frame : quic_frame) (cork : bool) : option (sock * Z) :=
  let stream := frame_stream frame in
  s ← stream_at sk stream;
  sk ← (if send_state s =? QUIC_STREAM_SEND_STATE_READY
        then stream_update sk stream (fun s =>
               stream_set_state s QUIC_STREAM_SEND_STATE_SEND)
        else Some sk);
  s ← stream_at sk stream;
  st ← (if negb (Z.land (frame_type frame) QUIC_STREAM_BIT_FIN =? 0)
           && (send_state s =? QUIC_STREAM_SEND_STATE_SEND)
        then
          let send_active :=
            if send_active =? stream_id s then -1 else send_active in
          sk ← stream_update sk stream (fun s =>
                 stream_set_state s QUIC_STREAM_SEND_STATE_SENT);
          Some (sk, send_active)
        else Some (sk, send_active));
  let sk := with_outq st.1 (fun q =>
              outq_set_stream_list q (stream_list q ++ [frame])) in
  Some (if cork then sk else quic_outq_transmit sk, st.2).

Definition quic_outq_dgram_tail (sk : sock) (frame : quic_frame) (cork : bool)
  : sock :=
  let sk := with_outq sk (fun q =>
              outq_set_datagram_list q (datagram_list q ++ [frame])) in
  if cork then sk else quic_outq_transmit sk.

(** The loop is the one of [quic_outq_ctrl_tail], on [transmitted_list]. *)
Definition quic_outq_transmitted_tail (sk : sock) (frame : quic_frame) : sock :=
  let head := transmitted_list (sk_outq sk) in
  let l :=
    if negb (frame_level frame =? 0) then (* prioritize handshake frames *)
      ctrl_tail_add frame head
    else head ++ [frame] in
  with_outq sk (fun q => outq_set_transmitted_list q l).

(** *** Application close *)

Variable QUIC_TRANSPORT_ERROR_APPLICATION : Z.
Variable QUIC_FRAME_CONNECTION_CLOSE_APP : Z.
Variable QUIC_CRYPTO_INITIAL : Z.
Variable QUIC_SS_ESTABLISHING : Z.

(** Modelled from the spec: [quic_is_establishing] (socket.h is absent),
    the "if establishing" of the application close, compares the socket
    state as [quic_is_established] does. *)
Definition quic_is_establishing (sk : sock) : bool :=
  sk_state sk =? QUIC_SS_ESTABLISHING.

Definition quic_outq_transmit_app_close (sk : sock) : sock :=
  let errcode := QUIC_TRANSPORT_ERROR_APPLICATION in
  let send (sk : sock) (type level : Z) : sock :=
    (* send close frame only when it's NOT idle timeout or closed by peer *)
    match quic_frame_create sk type data_null with
    | Some frame => quic_outq_ctrl_tail sk (frame_set_level frame level) false
    | None => sk
    end in
  if quic_is_established sk then
    send sk QUIC_FRAME_CONNECTION_CLOSE_APP QUIC_CRYPTO_APP
  else if quic_is_establishing sk then
    let sk := with_outq sk (fun q => quic_outq_set_close_errcode q errcode) in
    send sk QUIC_FRAME_CONNECTION_CLOSE QUIC_CRYPTO_INITIAL
  else sk.

(** *** Purges *)

(** The first loop of [quic_outq_stream_purge], over [transmitted_list];
    [kept] and [todo] as in [retransmit_mark_walk].  [stream] is the
    pointer the frames are compared with. *)
Fixpoint stream_purge_transmitted (stream : option Z)
    (kept todo : list quic_frame) (st : sock * Z) : option (sock * Z) :=
  let '(sk, bytes) := st in
  match todo with
  | [] => Some st
  | frame :: todo =>
      if negb (bool_decide (frame_stream frame = stream)) then
        stream_purge_transmitted stream (frame :: kept) todo st
      else
        sk ← pnmap_update sk (frame_level frame) (fun m =>
               quic_pnmap_dec_inflight B m (frame_len frame));
        let sk := with_outq sk (fun q =>
                    outq_set_data_inflight q
                      (wrap (data_inflight_bits B)
                            (outq_data_inflight q - frame_bytes frame))) in
        let sk := with_outq sk (fun q =>
                    outq_set_inflight q
                      (wrap (inflight_bits B)
                            (outq_inflight q - frame_len frame))) in
        let sk := with_outq sk (fun q =>
                    outq_set_transmitted_list q (rev kept ++ todo)) in
        let bytes := s32 (bytes + frame_bytes frame) in
        stream_purge_transmitted stream kept todo
          (quic_frame_free sk frame, bytes)
  end.

(** Its second loop, over [stream_list]. *)
Fixpoint stream_purge_pending (stream : option Z)
    (kept todo : list quic_frame) (st : sock * Z) : sock * Z :=
  let '(sk, bytes) := st in
  match todo with
  | [] => st
  | frame :: todo =>
      if negb (bool_decide (frame_stream frame = stream)) then
        stream_purge_pending stream (frame :: kept) todo st
      else
        let sk := with_outq sk (fun q =>
                    outq_set_stream_list q (rev kept ++ todo)) in
        let bytes := s32 (bytes + frame_bytes frame) in
        stream_purge_pending stream kept todo (quic_frame_free sk frame, bytes)
  end.

Definition quic_outq_stream_purge (sk : sock) (stream : option Z)
  : option sock :=
  st ← stream_purge_transmitted stream [] (transmitted_list (sk_outq sk))
         (sk, 0);
  let st := stream_purge_pending stream [] (stream_list (sk_outq st.1)) st in
  Some (quic_outq_wfree st.2 st.1).

Definition purge_frames (sk : sock) (head : purge_ref) : list quic_frame :=
  match head with
  | purge_outq which => outq_get_list (sk_outq sk) which
  | purge_external l => l
  end.

(** [list_del(&frame->list)] on the list [head] refers to, whose
    remaining frames are [rest]. *)
Definition purge_store (head : purge_ref) (rest : list quic_frame)
    (sk : sock) : sock :=
  match head with
  | purge_outq which => with_outq sk (fun q => outq_set_list q which rest)
  | purge_external _ => sk
  end.

Fixpoint list_purge_walk (head : purge_ref) (todo : list quic_frame)
    (st : sock * Z) : sock * Z :=
  let '(sk, bytes) := st in
  match todo with
  | [] => st
  | frame :: todo =>
      let sk := purge_store head todo sk in
      let bytes := s32 (bytes + frame_bytes frame) in
      list_purge_walk head todo (quic_frame_free sk frame, bytes)
  end.

Definition quic_outq_list_purge (sk : sock) (head : purge_ref) : sock :=
  let st := list_purge_walk head (purge_frames sk head) (sk, 0) in
  quic_outq_wfree st.2 st.1.

(** *** Path validation *)

Variable QUIC_PATH_ALT_SRC : Z.
Variable QUIC_PATH_ALT_DST : Z.

(** The answer of the event channel to CONNECTION_MIGRATION. *)
Variable migration_handled : sock -> Z -> bool.

(** [local] is the reading of [quic_path_udp_bind(path)]; [calls] is the
    log of the path manager.  The result holds the triggering frame as
    the function leaves it. *)
Definition quic_outq_validate_path (sk : sock) (calls : list path_call)
    (frame : quic_frame) (local : Z) : sock * list path_call * quic_frame :=
  let handled := migration_handled sk local in
  let calls := pcall_event_recv_migration local :: calls in
  if handled then (sk, calls, frame)
  else
    let path_alt := if negb (local =? 0) then QUIC_PATH_ALT_SRC
                    else QUIC_PATH_ALT_DST in
    let calls := if negb (local =? 0) then pcall_path_swap_active :: calls
                 else calls in
    let calls := pcall_path_addr_free 1 :: calls in
    let calls := pcall_set_sk_addr local :: calls in
    let calls := pcall_path_set_sent_cnt 0 :: calls in
    let sk := quic_timer_stop sk QUIC_TIMER_PATH in
    let sk := quic_timer_reset sk QUIC_TIMER_PATH
                (u32 (quic_inq_probe_timeout sk)) in
    let sk := with_outq sk (fun q =>
                outq_set_control_list q
                  (List.map (clear_path_alt path_alt) (control_list q))) in
    let sk := with_outq sk (fun q =>
                outq_set_transmitted_list q
                  (List.map (clear_path_alt path_alt) (transmitted_list q))) in
    (sk, pcall_packet_set_ecn_probes 0 :: calls, clear_path_alt path_alt frame).

(** Handshake-level frames (level nonzero) and App-level frames. *)
Definition is_handshake (f : quic_frame) : bool := negb (frame_level f =? 0).
Definition is_app (f : quic_frame) : bool := frame_level f =? 0.

(** The order [control_list] and [transmitted_list] are kept in: every
    handshake-level frame before every App-level frame. *)
Definition handshake_first (l : list quic_frame) : Prop :=
  exists hs app,
    l = hs ++ app /\
    Forall (fun f => is_handshake f = true) hs /\
    Forall (fun f => is_app f = true) app.

(** Where an enqueue with the handshake priority puts [frame] in a list
    that is split into its handshake-level and App-level parts. *)
Definition priority_add (frame : quic_frame) (hs app : list quic_frame)
  : list quic_frame :=
  if is_handshake frame then (hs ++ [frame]) ++ app
  else hs ++ (app ++ [frame]).

(** Enqueueing a batch of control frames, corked, one after the other. *)
Definition ctrl_tail_all (sk : sock) (frames : list quic_frame) : sock :=
  fold_left (fun sk frame => quic_outq_ctrl_tail sk frame true) frames sk.

(** [quic_frame_free] on each frame of a list, first to last, and the
    [int bytes] the purges add up for the refund. *)
Definition free_all (frames : list quic_frame) (sk : sock) : sock :=
  fold_left quic_frame_free frames sk.
Definition refund_from (bytes : Z) (frames : list quic_frame) : Z :=
  fold_left (fun b f => s32 (b + frame_bytes f)) frames bytes.

(** The frames [quic_outq_stream_purge] compares equal to [stream], and
    what the purge needs of them: the packet-number map of their level. *)
Definition of_stream (stream : option Z) (f : quic_frame) : bool :=
  bool_decide (frame_stream f = stream).
Definition not_of_stream (stream : option Z) (f : quic_frame) : bool :=
  negb (of_stream stream f).
Definition purge_ok (sk : sock) (stream : option Z) (f : quic_frame) : Prop :=
  of_stream stream f = true -> is_Some (quic_pnmap sk (frame_level f)).

(** The pending lists and the streams do not move. *)
Definition pending_kept (sk sk' : sock) : Prop :=
  stream_list (sk_outq sk') = stream_list (sk_outq sk) /\
  control_list (sk_outq sk') = control_list (sk_outq sk) /\
  datagram_list (sk_outq sk') = datagram_list (sk_outq sk) /\
  sk_streams sk' = sk_streams sk.

(** The frames an ack of [smallest..largest] at [level] covers. *)
Definition sack_covers (level largest smallest : Z) (f : quic_frame) : bool :=
  (level =? frame_level f) && (smallest <=? frame_number f)
  && (frame_number f <=? largest).

(** *** Flow-control gate: when it advertises

    The conditions of the two nested [if]s under which the stream block
    and the connection block build a STREAM_DATA_BLOCKED or DATA_BLOCKED
    frame, and the state at the end of the two blocks, before
    [if (nframe) quic_outq_transmit_ctrl(sk)]. *)
Definition stream_advertises (s : quic_stream) (len : Z) : bool :=
  (send_max_bytes s <? wrap (with_u32 (send_bytes_bits B)) (send_bytes s + len))
  && (send_data_blocked s =? 0)
  && (send_last_max_bytes s <? send_max_bytes s).
Definition conn_advertises (sk : sock) (len : Z) : bool :=
  (outq_max_bytes (sk_outq sk)
   <? wrap (with_u32 (bytes_bits B)) (outq_bytes (sk_outq sk) + len))
  && (outq_data_blocked (sk_outq sk) =? 0)
  && (outq_last_max_bytes (sk_outq sk) <? outq_max_bytes (sk_outq sk)).
Definition flow_control_blocks (sk : sock) (frame : quic_frame)
  : option (sock * option quic_frame * Z) :=
  let len := u32 (frame_bytes frame) in
  let blocked := flow_control_cong sk len in
  '(sk, nframe, blocked) ← flow_control_stream sk (frame_stream frame) len blocked;
  Some (flow_control_conn sk len nframe blocked).

(** *** Teardown *)

(** [calls] is the log of the allocator. *)
Definition quic_outq_free (sk : sock) (calls : list mem_call)
  : sock * list mem_call :=
  let sk := quic_outq_list_purge sk (purge_outq list_transmitted) in
  let sk := quic_outq_list_purge sk (purge_outq list_datagram) in
  let sk := quic_outq_list_purge sk (purge_outq list_control) in
  let sk := quic_outq_list_purge sk (purge_outq list_stream) in
  (sk, mcall_kfree_close_phrase :: calls).

(** The window and the congestion updates after an ack do not move. *)
Definition cong_kept (sk sk' : sock) : Prop :=
  outq_window (sk_outq sk') = outq_window (sk_outq sk) /\
  List.filter is_cwnd_update_after_sack (sk_log sk')
  = List.filter is_cwnd_update_after_sack (sk_log sk).

(** ** Properties *)

Lemma ctrl_tail_add_position frame l :
  inserted_before_first (fun pos => frame_level pos = 0) frame l
    (ctrl_tail_add frame l).
Proof.
  induction l as [|pos rest IH]; simpl.
  - exists [], []. repeat split; auto.
  - destruct (Z.eqb_spec (frame_level pos) 0) as [E|E].
    + exists [], (pos :: rest). repeat split; auto.
    + destruct IH as (before & after & -> & -> & Hb & Ha).
      exists (pos :: before), after. repeat split; auto.
Qed.

Lemma retransmit_one_add_position frame l :
  inserted_before_first (retransmit_one_stop frame) frame l
    (retransmit_one_add frame l).
Proof.
  unfold retransmit_one_stop.
  induction l as [|pos rest IH]; simpl.
  - exists [], []. repeat split; auto.
  - destruct (Z.ltb_spec (frame_level frame) (frame_level pos)) as [L1|L1].
    { destruct IH as (before & after & -> & -> & Hb & Ha).
      exists (pos :: before), after. repeat split; auto.
      constructor; auto. lia. }
    destruct (Z.ltb_spec (frame_level pos) (frame_level frame)) as [L2|L2].
    { exists [], (pos :: rest). repeat split; auto. }
    destruct (Z.eqb_spec (frame_offset pos) 0) as [O1|O1]; simpl.
    { exists [], (pos :: rest). repeat split; auto. right. split; [lia|auto]. }
    destruct (Z.ltb_spec (frame_offset frame) (frame_offset pos)) as [O2|O2].
    { exists [], (pos :: rest). repeat split; auto. right. split; [lia|auto]. }
    destruct IH as (before & after & -> & -> & Hb & Ha).
    exists (pos :: before), after. repeat split; auto.
    constructor; auto. lia.
Qed.

Lemma retransmit_one_add_elem frame l x :
  In x (retransmit_one_add frame l) -> x = frame \/ In x l.
Proof.
  induction l as [|pos rest IH]; simpl.
  - intros [->|[]]. now left.
  - repeat case_match; simpl; intros Hin.
    + destruct Hin as [->|Hin]; [right; now left|].
      destruct (IH Hin); auto.
    + destruct Hin as [->|[->|Hin]]; auto.
    + destruct Hin as [->|[->|Hin]]; auto.
    + destruct Hin as [->|Hin]; [right; now left|].
      destruct (IH Hin); auto.
Qed.

Lemma retransmit_one_add_descending frame l :
  levels_descending l -> levels_descending (retransmit_one_add frame l).
Proof.
  unfold levels_descending.
  induction l as [|pos rest IH]; simpl; intros Hs.
  - repeat constructor.
  - apply StronglySorted_inv in Hs as [Hrest Hpos].
    destruct (Z.ltb_spec (frame_level frame) (frame_level pos)) as [L1|L1].
    { constructor; auto.
      apply List.Forall_forall. intros x Hx.
      apply retransmit_one_add_elem in Hx as [->|Hx]; [lia|].
      rewrite List.Forall_forall in Hpos. now apply Hpos. }
    assert (Hall : Forall (fun b => frame_level b <= frame_level frame)
                          (pos :: rest)).
    { constructor; [lia|].
      eapply List.Forall_impl; [|exact Hpos]. simpl. intros; lia. }
    assert (Hcons : StronglySorted
              (fun a b => frame_level b <= frame_level a) (pos :: rest))
      by (constructor; auto).
    destruct (Z.ltb_spec (frame_level pos) (frame_level frame)) as [L2|L2].
    { constructor; auto. }
    destruct ((frame_offset pos =? 0)
              || (frame_offset frame <? frame_offset pos)).
    { constructor; auto. }
    constructor; auto.
    apply List.Forall_forall. intros x Hx.
    apply retransmit_one_add_elem in Hx as [->|Hx]; [lia|].
    rewrite List.Forall_forall in Hpos. now apply Hpos.
Qed.

(** Pointer lemmas. *)

Lemma stream_update_Some sk p s f :
  stream_at sk p = Some s ->
  exists a, p = Some a /\ sk_streams sk !! a = Some s /\
    stream_update sk p f = Some (set_streams sk (<[a := f s]> (sk_streams sk))).
Proof.
  unfold stream_at, stream_update. destruct p as [a|]; simpl; [|discriminate].
  intros Hs. exists a. rewrite Hs. simpl. auto.
Qed.

Lemma stream_at_set_streams sk a v :
  stream_at (set_streams sk (<[a := v]> (sk_streams sk))) (Some a) = Some v.
Proof. unfold stream_at. simpl. apply lookup_insert_eq. Qed.

(** C2 (amended): [quic_outq_ctrl_tail] links a handshake-level frame
    (level nonzero) immediately before the first App-level frame of
    [control_list], hence after the last handshake frame, or at the tail
    when the list holds no App-level frame; it appends an App-level frame
    (level 0) at the tail.  Unless corked, the transmit scheduler runs on
    the result. *)
Theorem ctrl_tail_handshake_before_app sk frame cork :
  exists l',
    quic_outq_ctrl_tail sk frame cork =
      (let sk' := with_outq sk (fun q => outq_set_control_list q l') in
       if cork then sk' else quic_outq_transmit sk') /\
    (frame_level frame <> 0 ->
       inserted_before_first (fun pos => frame_level pos = 0) frame
         (control_list (sk_outq sk)) l') /\
    (frame_level frame = 0 -> l' = control_list (sk_outq sk) ++ [frame]).
Proof.
  unfold quic_outq_ctrl_tail.
  destruct (Z.eqb_spec (frame_level frame) 0) as [E|E]; simpl.
  - exists (control_list (sk_outq sk) ++ [frame]). repeat split; auto.
    intros; contradiction.
  - exists (ctrl_tail_add frame (control_list (sk_outq sk))).
    repeat split; auto.
    + intros _. apply ctrl_tail_add_position.
    + intros; contradiction.
Qed.

(** C1 (amended): [quic_outq_retransmit_one] puts the frame back into its
    origin list ([stream_list] when [frame.bytes] is nonzero, otherwise
    [control_list]; the other list is untouched), immediately before the
    first frame that has a lower level, or the same level and an offset
    that is zero or greater than the frame's, and at the tail when there
    is none.  So higher levels come first: a list whose levels never
    increase keeps that order. *)
Theorem retransmit_one_position sk frame :
  frame_bytes frame = 0 \/ is_Some (stream_at sk (frame_stream frame)) ->
  exists sk' l',
    quic_outq_retransmit_one sk frame = Some sk' /\
    inserted_before_first (retransmit_one_stop frame) frame
      (retransmit_origin frame (sk_outq sk)) l' /\
    (levels_descending (retransmit_origin frame (sk_outq sk)) ->
     levels_descending l') /\
    retransmit_origin frame (sk_outq sk') = l' /\
    (if frame_bytes frame =? 0
     then stream_list (sk_outq sk') = stream_list (sk_outq sk)
     else control_list (sk_outq sk') = control_list (sk_outq sk)).
Proof.
  unfold quic_outq_retransmit_one, retransmit_origin.
  destruct (Z.eqb_spec (frame_bytes frame) 0) as [E|E]; simpl; intros Hs.
  - eexists _, _. split; [reflexivity|].
    split; [apply retransmit_one_add_position|].
    split; [apply retransmit_one_add_descending|]. split; reflexivity.
  - destruct Hs as [Hs|[s Hs]]; [contradiction|].
    destruct (stream_update_Some sk _ s
                (fun s => stream_set_frags s
                   (wrap (send_frags_bits B) (send_frags s - 1))) Hs)
      as (a & Hp & Ha & ->).
    simpl. rewrite Hp. unfold stream_update. simpl.
    rewrite lookup_insert_eq. simpl.
    eexists _, _. split; [reflexivity|]. simpl.
    split; [apply retransmit_one_add_position|].
    split; [apply retransmit_one_add_descending|]. split; reflexivity.
Qed.

Arguments quic_outq_ctrl_tail : simpl never.

(** A corked control-tail only relinks [control_list]. *)
Lemma ctrl_tail_corked sk frame :
  exists l,
    quic_outq_ctrl_tail sk frame true =
      with_outq sk (fun q => outq_set_control_list q l) /\
    In frame l.
Proof.
  unfold quic_outq_ctrl_tail. eexists. split; [reflexivity|].
  destruct (negb (frame_level frame =? 0)).
  - destruct (ctrl_tail_add_position frame (control_list (sk_outq sk)))
      as (b & a & _ & -> & _). apply in_or_app. right. now left.
  - apply in_or_app. right. now left.
Qed.

Lemma flow_control_stream_spec sk frame b s :
  stream_at sk (frame_stream frame) = Some s ->
  exists sk1 nframe b1,
    flow_control_stream sk (frame_stream frame) (u32 (frame_bytes frame)) b
      = Some (sk1, nframe, b1) /\
    (b1 = 1 /\ stream_gate s frame \/ b1 = b /\ ~ stream_gate s frame) /\
    outq_bytes (sk_outq sk1) = outq_bytes (sk_outq sk) /\
    outq_max_bytes (sk_outq sk1) = outq_max_bytes (sk_outq sk) /\
    (stream_gate s frame -> send_data_blocked s = 0 ->
     send_last_max_bytes s < send_max_bytes s ->
       nframe = quic_frame_create sk QUIC_FRAME_STREAM_DATA_BLOCKED
                  (from_option data_stream data_null (frame_stream frame)) /\
       sk_outq sk1 =
         sk_outq (match nframe with
                  | Some nf => quic_outq_ctrl_tail sk nf true
                  | None => sk
                  end) /\
       stream_at sk1 (frame_stream frame) =
         Some (stream_set_data_blocked
                 (stream_set_last_max_bytes s (send_max_bytes s)) 1)).
Proof.
  intros Hs. unfold flow_control_stream, stream_gate. rewrite Hs. simpl.
  destruct (Z.ltb_spec (send_max_bytes s)
              (wrap (with_u32 (send_bytes_bits B))
                    (send_bytes s + u32 (frame_bytes frame)))) as [G|G].
  - destruct (Z.eqb_spec (send_data_blocked s) 0) as [D|D]; simpl.
    + destruct (Z.ltb_spec (send_last_max_bytes s) (send_max_bytes s)) as [M|M].
      * set (nframe := quic_frame_create sk QUIC_FRAME_STREAM_DATA_BLOCKED _).
        set (sk0 := match nframe with
                    | Some nf => quic_outq_ctrl_tail sk nf true
                    | None => sk
                    end).
        assert (Hst : sk_streams sk0 = sk_streams sk).
        { subst sk0. destruct nframe as [nf|]; [|reflexivity].
          destruct (ctrl_tail_corked sk nf) as (l & -> & _). reflexivity. }
        assert (Hq : outq_bytes (sk_outq sk0) = outq_bytes (sk_outq sk) /\
                     outq_max_bytes (sk_outq sk0) = outq_max_bytes (sk_outq sk)).
        { subst sk0. destruct nframe as [nf|]; [|split; reflexivity].
          destruct (ctrl_tail_corked sk nf) as (l & -> & _). split; reflexivity. }
        assert (Hs0 : stream_at sk0 (frame_stream frame) = Some s).
        { unfold stream_at in *. rewrite Hst. exact Hs. }
        destruct (stream_update_Some sk0 _ s
                    (fun s => stream_set_data_blocked
                       (stream_set_last_max_bytes s (send_max_bytes s)) 1) Hs0)
          as (a & Hp & Ha & ->). simpl.
        eexists _, _, _. split; [reflexivity|].
        split; [left; split; [reflexivity|lia]|].
        split; [apply Hq|]. split; [apply Hq|].
        intros _ _ _. split; [reflexivity|]. split; [reflexivity|].
        rewrite Hp. apply stream_at_set_streams.
      * eexists _, _, _. split; [reflexivity|].
        split; [left; split; [reflexivity|lia]|].
        repeat split; try reflexivity; lia.
    + eexists _, _, _. split; [reflexivity|].
      split; [left; split; [reflexivity|lia]|].
      repeat split; try reflexivity; contradiction.
  - eexists _, _, _. split; [reflexivity|].
    split; [right; split; [reflexivity|lia]|].
    repeat split; try reflexivity; lia.
Qed.

Lemma flow_control_conn_blocked sk len nframe b :
  snd (flow_control_conn sk len nframe b) =
    if outq_max_bytes (sk_outq sk)
       <? wrap (with_u32 (bytes_bits B)) (outq_bytes (sk_outq sk) + len)
    then 1 else b.
Proof.
  unfold flow_control_conn.
  repeat (case_match; simpl; try reflexivity).
Qed.

Lemma flow_control_ret_blocked st : fst (flow_control_ret st) = snd st.
Proof. destruct st as [[sk nframe] b]. reflexivity. Qed.

(** The verdict of the gate: on a frame whose stream pointer is valid it
    returns, and blocked exactly when one of the three conditions
    holds. *)
Lemma flow_control_verdict sk frame s :
  stream_at sk (frame_stream frame) = Some s ->
  exists blocked sk',
    quic_outq_flow_control sk frame = Some (blocked, sk') /\
    (blocked = 1 \/ blocked = 0) /\
    (blocked = 1 <->
       cong_gate sk frame \/ stream_gate s frame \/ conn_gate sk frame).
Proof.
  intros Hs.
  destruct (flow_control_stream_spec sk frame
              (flow_control_cong sk (u32 (frame_bytes frame))) s Hs)
    as (sk1 & nframe & b1 & Hrun & Hb1 & Hbytes & Hmax & _).
  unfold quic_outq_flow_control. rewrite Hrun. simpl.
  destruct (flow_control_ret
              (flow_control_conn sk1 (u32 (frame_bytes frame)) nframe b1))
    as [blocked sk'] eqn:R.
  exists blocked, sk'. split; [reflexivity|].
  assert (Hblocked : blocked =
            if outq_max_bytes (sk_outq sk)
               <? wrap (with_u32 (bytes_bits B))
                       (outq_bytes (sk_outq sk) + u32 (frame_bytes frame))
            then 1 else b1).
  { change blocked with (fst (blocked, sk')). rewrite <- R.
    rewrite flow_control_ret_blocked, flow_control_conn_blocked.
    now rewrite Hbytes, Hmax. }
  assert (Hcong : flow_control_cong sk (u32 (frame_bytes frame)) = 1
                  /\ cong_gate sk frame
               \/ flow_control_cong sk (u32 (frame_bytes frame)) = 0
                  /\ ~ cong_gate sk frame).
  { unfold flow_control_cong, cong_gate.
    destruct (Z.ltb_spec (outq_window (sk_outq sk))
                (wrap (with_u32 (data_inflight_bits B))
                   (outq_data_inflight (sk_outq sk) + u32 (frame_bytes frame))));
      [left|right]; split; auto; lia. }
  revert Hblocked. unfold conn_gate.
  destruct (Z.ltb_spec (outq_max_bytes (sk_outq sk))
              (wrap (with_u32 (bytes_bits B))
                 (outq_bytes (sk_outq sk) + u32 (frame_bytes frame))))
    as [C|C]; intros ->.
  - split; [now left|].
    split; [intros _; right; right; exact C|reflexivity].
  - destruct Hb1 as [[-> G]|[-> NG]].
    + split; [now left|].
      split; [intros _; right; left; exact G|reflexivity].
    + destruct Hcong as [[Hc CG]|[Hc NC]]; rewrite Hc.
      * split; [now left|].
        split; [intros _; left; exact CG|reflexivity].
      * split; [now right|].
        split; [discriminate|]. intros [?|[?|?]]; try contradiction. lia.
Qed.

(** 32-bit arithmetic of the loss timer. *)

Lemma u32_range x : 0 <= u32 x < 2 ^ 32.
Proof. unfold u32, wrap. apply Z.mod_pos_bound. lia. Qed.

Lemma u32_clamp_delay now timeout :
  0 <= now < 2 ^ 32 -> 0 <= timeout < 2 ^ 32 ->
  u32 ((if timeout <? now then u32 (now + 1) else timeout) - now)
  = loss_timer_delay now timeout.
Proof.
  intros Hn Ht. unfold loss_timer_delay.
  destruct (Z.ltb_spec timeout now) as [L|L].
  - unfold u32, wrap. rewrite Zminus_mod_idemp_l.
    replace (now + 1 - now) with 1 by lia. reflexivity.
  - unfold u32, wrap. apply Z.mod_small. lia.
Qed.

Lemma u32_duration d k l : u32 (u32 (u32 d * k) + l) = u32 (d * k + l).
Proof.
  unfold u32, wrap.
  rewrite Zplus_mod_idemp_l, Z.add_mod, Zmult_mod_idemp_l, <- Z.add_mod; lia.
Qed.

(** C7 (amended): the three cases of the loss timer, in the 32-bit
    unsigned arithmetic of the code, read off the calls the timer
    subsystem receives.  The call returns with one more call logged and
    nothing else changed.  With a nonzero [loss_ts] that call arms the
    per-level timer for that instant; else with nothing in flight it
    stops the timer; else it arms the timer for
    [duration * (1 + rtx_count)] after [last_sent_ts].  Arming hands the
    timer the delay [timeout - now], where a [timeout] strictly before
    [now] is first replaced by [now + 1] (delay 1); a [timeout] equal to
    [now] is kept and gives delay 0. *)
Theorem update_loss_timer_cases sk level now m :
  quic_pnmap sk level = Some m ->
  exists sk',
    quic_outq_update_loss_timer sk level now = Some sk' /\
    sk_outq sk' = sk_outq sk /\ sk_streams sk' = sk_streams sk /\
    sk_pnmap sk' = sk_pnmap sk /\ sk_state sk' = sk_state sk /\
    (u32 (quic_pnmap_loss_ts m) <> 0 ->
       sk_log sk'
       = call_timer_reduce level
           (loss_timer_delay (u32 now) (u32 (quic_pnmap_loss_ts m)))
         :: sk_log sk) /\
    (u32 (quic_pnmap_loss_ts m) = 0 -> quic_pnmap_inflight m = 0 ->
       sk_log sk' = call_timer_stop level :: sk_log sk) /\
    (u32 (quic_pnmap_loss_ts m) = 0 -> quic_pnmap_inflight m <> 0 ->
       sk_log sk'
       = call_timer_reduce level
           (loss_timer_delay (u32 now)
              (u32 (quic_cong_duration sk
                    * (1 + outq_rtx_count (sk_outq sk))
                    + quic_pnmap_last_sent_ts m)))
         :: sk_log sk) /\
    (forall timeout, timeout < u32 now ->
       loss_timer_delay (u32 now) timeout = 1) /\
    (forall timeout, u32 now <= timeout ->
       loss_timer_delay (u32 now) timeout = timeout - u32 now).
Proof.
  intros Hm. unfold quic_outq_update_loss_timer. rewrite Hm.
  cbn [mbind option_bind]. cbv zeta.
  assert (D1 : forall timeout, timeout < u32 now ->
                 loss_timer_delay (u32 now) timeout = 1).
  { intros timeout Ht. unfold loss_timer_delay.
    destruct (Z.ltb_spec timeout (u32 now)); [reflexivity|lia]. }
  assert (D2 : forall timeout, u32 now <= timeout ->
                 loss_timer_delay (u32 now) timeout = timeout - u32 now).
  { intros timeout Ht. unfold loss_timer_delay.
    destruct (Z.ltb_spec timeout (u32 now)); [lia|reflexivity]. }
  destruct (Z.eqb_spec (u32 (quic_pnmap_loss_ts m)) 0) as [L|L]; simpl negb;
    cbv iota.
  - destruct (Z.eqb_spec (quic_pnmap_inflight m) 0) as [I|I].
    + eexists. split; [reflexivity|]. simpl.
      repeat split; auto; intros; contradiction.
    + eexists. split; [reflexivity|]. simpl.
      rewrite u32_clamp_delay by apply u32_range. rewrite u32_duration.
      repeat split; auto; intros; contradiction.
  - eexists. split; [reflexivity|]. simpl.
    rewrite u32_clamp_delay by apply u32_range.
    repeat split; auto; intros; contradiction.
Qed.

(** What [quic_outq_ctrl_tail] does to the socket: the frame is linked
    into [control_list] and, unless corked, the result is handed to the
    transmit scheduler. *)
Lemma ctrl_tail_linked sk frame cork :
  exists queued before after,
    quic_outq_ctrl_tail sk frame cork
      = (if cork then queued else quic_outq_transmit queued) /\
    control_list (sk_outq sk) = before ++ after /\
    control_list (sk_outq queued) = before ++ frame :: after /\
    outq_set_control_list (sk_outq queued) []
      = outq_set_control_list (sk_outq sk) [] /\
    sk_streams queued = sk_streams sk /\ sk_pnmap queued = sk_pnmap sk /\
    sk_state queued = sk_state sk /\ sk_log queued = sk_log sk.
Proof.
  unfold quic_outq_ctrl_tail. cbv zeta.
  destruct (negb (frame_level frame =? 0)).
  - destruct (ctrl_tail_add_position frame (control_list (sk_outq sk)))
      as (before & after & E & E' & _).
    eexists _, before, after. split; [reflexivity|].
    split; [exact E|]. split; [exact E'|]. now repeat split.
  - eexists _, (control_list (sk_outq sk)), []. split; [reflexivity|].
    split; [now rewrite app_nil_r|]. now repeat split.
Qed.

(** C8: [quic_outq_transmit_close], read off the fields of the socket it
    returns.  With [errcode = 0] the socket is returned as it was.  With
    a nonzero [errcode], when the user takes the CONNECTION_CLOSE event
    its delivery is the one call logged and the outqueue (with
    [close_errcode], [close_frame] and the lists), the socket state, the
    streams and the maps are as before.  Otherwise the socket returned is
    CLOSED; on [recorded], the socket the frame factory is called on,
    [close_errcode] is [errcode] and [close_frame] is [type] and nothing
    else differs but the logged delivery.  When the factory fails, the
    socket returned is [recorded] but for the state.  When it yields a
    frame, that frame with its level set to [level] is linked into
    [control_list], and the socket returned is what the transmit
    scheduler makes of that, but for the state. *)
Theorem transmit_close_cases sk type errcode level :
  let close := QUIC_EVENT_CONNECTION_CLOSE errcode type in
  let r := quic_outq_transmit_close sk type errcode level in
  (errcode = 0 -> r = sk) /\
  (errcode <> 0 -> event_recv_handled sk close = true ->
     sk_log r = call_event_recv close :: sk_log sk /\
     sk_outq r = sk_outq sk /\ sk_state r = sk_state sk /\
     sk_streams r = sk_streams sk /\ sk_pnmap r = sk_pnmap sk) /\
  (errcode <> 0 -> event_recv_handled sk close = false ->
     sk_state r = QUIC_SS_CLOSED /\
     exists recorded,
       sk_log recorded = call_event_recv close :: sk_log sk /\
       outq_close_errcode (sk_outq recorded) = errcode /\
       outq_close_frame (sk_outq recorded) = type /\
       quic_outq_set_close_frame
         (quic_outq_set_close_errcode (sk_outq recorded) 0) 0
       = quic_outq_set_close_frame
           (quic_outq_set_close_errcode (sk_outq sk) 0) 0 /\
       sk_state recorded = sk_state sk /\
       sk_streams recorded = sk_streams sk /\
       sk_pnmap recorded = sk_pnmap sk /\
       match quic_frame_create recorded QUIC_FRAME_CONNECTION_CLOSE
               data_null with
       | None =>
           sk_outq r = sk_outq recorded /\ sk_log r = sk_log recorded /\
           sk_streams r = sk_streams recorded /\
           sk_pnmap r = sk_pnmap recorded
       | Some frame =>
           exists queued closing before after,
             let sent := quic_outq_transmit queued in
             sk_outq r = sk_outq sent /\ sk_log r = sk_log sent /\
             sk_streams r = sk_streams sent /\ sk_pnmap r = sk_pnmap sent /\
             control_list (sk_outq recorded) = before ++ after /\
             control_list (sk_outq queued) = before ++ closing :: after /\
             frame_level closing = level /\
             frame_set_level closing (frame_level frame) = frame /\
             outq_close_errcode (sk_outq queued) = errcode /\
             outq_close_frame (sk_outq queued) = type /\
             outq_set_control_list (sk_outq queued) []
               = outq_set_control_list (sk_outq recorded) [] /\
             sk_log queued = sk_log recorded /\
             sk_state queued = sk_state sk /\
             sk_streams queued = sk_streams sk /\
             sk_pnmap queued = sk_pnmap sk
       end).
Proof.
  cbv zeta. unfold quic_outq_transmit_close, quic_inq_event_recv.
  split; [|split].
  - intros ->. reflexivity.
  - intros He Hh. apply Z.eqb_neq in He. rewrite He, Hh. now repeat split.
  - intros He Hh. apply Z.eqb_neq in He. rewrite He, Hh. cbv zeta.
    split; [reflexivity|].
    set (recorded := with_outq (with_outq _ _) _).
    assert (R : sk_log recorded
                = call_event_recv (QUIC_EVENT_CONNECTION_CLOSE errcode type)
                  :: sk_log sk /\
                outq_close_errcode (sk_outq recorded) = errcode /\
                outq_close_frame (sk_outq recorded) = type /\
                quic_outq_set_close_frame
                  (quic_outq_set_close_errcode (sk_outq recorded) 0) 0
                = quic_outq_set_close_frame
                    (quic_outq_set_close_errcode (sk_outq sk) 0) 0 /\
                sk_state recorded = sk_state sk /\
                sk_streams recorded = sk_streams sk /\
                sk_pnmap recorded = sk_pnmap sk)
      by (subst recorded; now repeat split).
    destruct R as (R1 & R2 & R3 & R4 & R5 & R6 & R7). clearbody recorded.
    exists recorded. do 7 (split; [assumption|]).
    destruct (quic_frame_create recorded QUIC_FRAME_CONNECTION_CLOSE data_null)
      as [frame|]; [|now repeat split].
    destruct (ctrl_tail_linked recorded (frame_set_level frame level) false)
      as (queued & before & after & -> & C1 & C2 & Q & S & P & St & L).
    exists queued, (frame_set_level frame level), before, after. cbv zeta.
    do 4 (split; [reflexivity|]).
    split; [exact C1|]. split; [exact C2|]. split; [reflexivity|].
    split; [now destruct frame|].
    split; [rewrite <- R2; now apply (f_equal outq_close_errcode) in Q|].
    split; [rewrite <- R3; now apply (f_equal outq_close_frame) in Q|].
    split; [exact Q|]. split; [exact L|].
    split; [congruence|]. split; congruence.
Qed.

(** C10: [quic_outq_transmit_probe], read off the calls logged.  On a
    socket that is not established it returns the socket as it was.  On
    an established one the call logged last is the reset of the PATH
    timer to the probe timeout, and the reset changes nothing else.
    When the PING frame cannot be allocated the reset is the one call
    logged and the socket is otherwise as it was.  When it can, the
    frame is linked into [control_list] and handed to the transmit
    scheduler, the probe number is logged with the path and, for a
    nonzero path MTU, the MSS update, before the reset. *)
Theorem transmit_probe_timer sk :
  (quic_is_established sk = false -> quic_outq_transmit_probe sk = Some sk) /\
  (quic_is_established sk = true ->
   quic_frame_create sk QUIC_FRAME_PING data_probe_size = None \/
   is_Some (quic_pnmap sk QUIC_CRYPTO_APP) ->
   exists sk1 sk',
     quic_outq_transmit_probe sk = Some sk' /\
     sk_log sk'
     = call_timer_reset QUIC_TIMER_PATH (u32 (quic_inq_probe_timeout sk1))
       :: sk_log sk1 /\
     sk_outq sk' = sk_outq sk1 /\ sk_streams sk' = sk_streams sk1 /\
     sk_pnmap sk' = sk_pnmap sk1 /\ sk_state sk' = sk_state sk1 /\
     (quic_frame_create sk QUIC_FRAME_PING data_probe_size = None ->
        sk1 = sk) /\
     (forall frame m,
        quic_frame_create sk QUIC_FRAME_PING data_probe_size = Some frame ->
        quic_pnmap sk QUIC_CRYPTO_APP = Some m ->
        exists queued before after,
          let sent := quic_outq_transmit queued in
          let number := quic_pnmap_next_number m in
          let pathmtu := u32 (path_pl_send_mtu sent number) in
          control_list (sk_outq sk) = before ++ after /\
          control_list (sk_outq queued) = before ++ frame :: after /\
          outq_set_control_list (sk_outq queued) []
            = outq_set_control_list (sk_outq sk) [] /\
          sk_streams queued = sk_streams sk /\
          sk_pnmap queued = sk_pnmap sk /\
          sk_state queued = sk_state sk /\ sk_log queued = sk_log sk /\
          sk_log sk1
          = (if pathmtu =? 0 then []
             else [call_packet_mss_update
                     (u32 (pathmtu + wrap 8 (quic_packet_taglen sk)))])
            ++ call_path_pl_send number :: sk_log sent /\
          sk_outq sk1 = sk_outq sent /\ sk_streams sk1 = sk_streams sent /\
          sk_pnmap sk1 = sk_pnmap sent /\ sk_state sk1 = sk_state sent)).
Proof.
  unfold quic_outq_transmit_probe. split.
  - intros ->. reflexivity.
  - intros -> Hrun. simpl negb. cbv iota zeta.
    destruct (quic_frame_create sk QUIC_FRAME_PING data_probe_size)
      as [frame|] eqn:Hc.
    + destruct Hrun as [Hn|[m Hm]]; [discriminate|].
      rewrite Hm. cbn [mbind option_bind].
      destruct (ctrl_tail_linked sk frame false)
        as (queued & before & after & -> & C1 & C2 & Q & S & P & St & L).
      eexists _, _. split; [reflexivity|]. simpl.
      do 5 (split; [reflexivity|]). split; [discriminate|].
      intros frame' m' [= <-] [= <-].
      exists queued, before, after. cbv zeta.
      do 7 (split; [assumption|]).
      destruct (u32 (path_pl_send_mtu (quic_outq_transmit queued)
                       (quic_pnmap_next_number m)) =? 0);
        now repeat split.
    + cbn [mbind option_bind]. exists sk. eexists. split; [reflexivity|].
      simpl. do 5 (split; [reflexivity|]). split; [reflexivity|].
      intros; discriminate.
Qed.

(** Ack processor: the refused stream update. *)

Lemma pnmap_update_Some sk level f m :
  quic_pnmap sk level = Some m ->
  pnmap_update sk level f
    = Some (set_pnmaps sk (<[level := f m]> (sk_pnmap sk))).
Proof. unfold quic_pnmap, pnmap_update. intros ->. reflexivity. Qed.

Lemma stream_set_frags_back s v :
  stream_set_frags (stream_set_frags s v) (send_frags s) = s.
Proof. destruct s. reflexivity. Qed.

Lemma sack_state_refused sk frame a s :
  frame_bytes frame <> 0 ->
  frame_stream frame = Some a ->
  sk_streams sk !! a = Some s ->
  send_frags s = 1 ->
  0 < send_frags_bits B ->
  send_state s = QUIC_STREAM_SEND_STATE_SENT ->
  (forall sk0, event_recv_handled sk0
     (QUIC_EVENT_STREAM_UPDATE (stream_id s) QUIC_STREAM_SEND_STATE_RECVD None)
     = true) ->
  transmitted_sack_state sk frame =
    Some (false,
          log_call sk
            (call_event_recv
               (QUIC_EVENT_STREAM_UPDATE (stream_id s)
                  QUIC_STREAM_SEND_STATE_RECVD None))).
Proof.
  intros Hb Hp Hs Hf Hbits Hst Hev.
  unfold transmitted_sack_state. apply Z.eqb_neq in Hb. rewrite Hb, Hp. simpl.
  rewrite Hs. simpl. rewrite lookup_insert_eq. simpl.
  rewrite Hf. replace (wrap (send_frags_bits B) (1 - 1)) with 0
    by (unfold wrap; now rewrite Z.sub_diag, Z.mod_0_l
          by (apply Z.pow_nonzero; lia)).
  rewrite Hst, !Z.eqb_refl. simpl. rewrite ?Hev. simpl.
  rewrite insert_insert_eq.
  replace (wrap (send_frags_bits B) (0 + 1)) with (send_frags s).
  2:{ rewrite Hf. unfold wrap. symmetry. apply Z.mod_small.
      split; [lia|]. apply Z.pow_gt_1; lia. }
  rewrite stream_set_frags_back, (insert_id (sk_streams sk) a s Hs).
  destruct sk. reflexivity.
Qed.

(** C5: in the ack processor, take a frame that passes the level and
    number filters, carries bytes, and is the last in-flight fragment
    ([frags = 1]) of a stream in state SENT, and let the user refuse the
    STREAM_UPDATE event.  Then the turn of the loop ends in [continue]:
    the frame stays linked in [transmitted_list] and is not freed, the
    streams (so [frags]) are as before, the whole outqueue (so
    [data_inflight] and [inflight]) is as before, and [acked_bytes] did
    not grow. *)
Theorem sack_refused_update_keeps_frame
    level largest smallest ack_largest ack_delay todo kept frame
    sk acked_bytes acked_number transmit_ts a s :
  frame_level frame = level ->
  smallest <= frame_number frame <= largest ->
  frame_bytes frame <> 0 ->
  frame_stream frame = Some a ->
  sk_streams sk !! a = Some s ->
  send_frags s = 1 ->
  0 < send_frags_bits B ->
  send_state s = QUIC_STREAM_SEND_STATE_SENT ->
  (frame_number frame = ack_largest -> is_Some (quic_pnmap sk level)) ->
  (forall sk0, event_recv_handled sk0
     (QUIC_EVENT_STREAM_UPDATE (stream_id s) QUIC_STREAM_SEND_STATE_RECVD None)
     = true) ->
  exists sk' acked_number' transmit_ts' calls,
    transmitted_sack_frame level largest smallest ack_largest ack_delay
      (rev todo ++ kept) frame (sk, acked_bytes, acked_number, transmit_ts)
      = Some (sack_next false (sk', acked_bytes, acked_number', transmit_ts')) /\
    transmitted_sack_walk level largest smallest ack_largest ack_delay
      (frame :: todo) kept (sk, acked_bytes, acked_number, transmit_ts)
      = transmitted_sack_walk level largest smallest ack_largest ack_delay
          todo (frame :: kept) (sk', acked_bytes, acked_number', transmit_ts') /\
    sk_streams sk' = sk_streams sk /\
    sk_outq sk' = sk_outq sk /\
    sk_log sk' = calls ++ sk_log sk /\
    Forall (fun c => forall f, c <> call_frame_free f) calls.
Proof.
  intros Hl [Hlo Hhi] Hb Hp Hs Hf Hbits Hst Hpn Hev.
  assert (Hframe : exists sk' acked_number' transmit_ts' calls,
    transmitted_sack_frame level largest smallest ack_largest ack_delay
      (rev todo ++ kept) frame (sk, acked_bytes, acked_number, transmit_ts)
      = Some (sack_next false (sk', acked_bytes, acked_number', transmit_ts')) /\
    sk_streams sk' = sk_streams sk /\
    sk_outq sk' = sk_outq sk /\
    sk_log sk' = calls ++ sk_log sk /\
    Forall (fun c => forall f, c <> call_frame_free f) calls).
  { subst level. unfold transmitted_sack_frame, transmitted_sack_rtt.
    rewrite Z.eqb_refl. simpl.
    replace (largest <? frame_number frame) with false
      by (symmetry; apply Z.ltb_ge; lia).
    replace (frame_number frame <? smallest) with false
      by (symmetry; apply Z.ltb_ge; lia).
    destruct (Z.eqb_spec (frame_number frame) ack_largest) as [E|E].
    - destruct (Hpn E) as [m Hm].
      erewrite pnmap_update_Some by exact Hm. simpl.
      destruct (negb (frame_ecn frame =? 0));
        (erewrite sack_state_refused by eauto); simpl;
        destruct (acked_number =? 0); do 3 eexists.
      1,2: eexists [_; _; _; _].
      3,4: eexists [_; _; _].
      all: split; [reflexivity|]; repeat split;
        repeat (constructor; [intros ?; discriminate|]); constructor.
    - simpl.
      destruct (negb (frame_ecn frame =? 0));
        (erewrite sack_state_refused by eauto); simpl;
        destruct (acked_number =? 0); do 3 eexists.
      1,2: eexists [_; _].
      3,4: eexists [_].
      all: split; [reflexivity|]; repeat split;
        repeat (constructor; [intros ?; discriminate|]); constructor. }
  destruct Hframe as (sk' & an' & ts' & calls & Hrun & H1 & H2 & H3 & H4).
  exists sk', an', ts', calls. split; [exact Hrun|].
  split; [|auto]. cbn [transmitted_sack_walk]. now rewrite Hrun.
Qed.

(** Valid pointers stay valid. *)

Lemma same_addresses_refl sk : same_addresses sk sk.
Proof. split; reflexivity. Qed.

Lemma same_addresses_trans sk1 sk2 sk3 :
  same_addresses sk1 sk2 -> same_addresses sk2 sk3 -> same_addresses sk1 sk3.
Proof. intros [A1 A2] [B1 B2]. split; congruence. Qed.

Lemma same_addresses_stream sk sk' p :
  same_addresses sk sk' ->
  is_Some (stream_at sk p) -> is_Some (stream_at sk' p).
Proof.
  intros [A _]. unfold stream_at. destruct p as [a|]; simpl; [|auto].
  rewrite <- !elem_of_dom, A. auto.
Qed.

Lemma same_addresses_pnmap sk sk' level :
  same_addresses sk sk' ->
  is_Some (quic_pnmap sk level) -> is_Some (quic_pnmap sk' level).
Proof.
  intros [_ A]. unfold quic_pnmap. rewrite <- !elem_of_dom, A. auto.
Qed.

Lemma same_addresses_fields sk sk' :
  sk_streams sk' = sk_streams sk -> sk_pnmap sk' = sk_pnmap sk ->
  same_addresses sk sk'.
Proof. intros E1 E2. split; congruence. Qed.

Lemma stream_update_runs sk p f :
  is_Some (stream_at sk p) ->
  exists sk', stream_update sk p f = Some sk' /\
    same_addresses sk sk' /\
    sk_outq sk' = sk_outq sk /\ sk_pnmap sk' = sk_pnmap sk /\
    sk_log sk' = sk_log sk.
Proof.
  intros [s Hs].
  destruct (stream_update_Some sk p s f Hs) as (a & -> & Ha & ->).
  eexists. split; [reflexivity|]. repeat split; simpl.
  apply dom_insert_lookup_L. eauto.
Qed.

Lemma pnmap_update_runs sk level f :
  is_Some (quic_pnmap sk level) ->
  exists sk', pnmap_update sk level f = Some sk' /\
    same_addresses sk sk' /\
    sk_outq sk' = sk_outq sk /\ sk_streams sk' = sk_streams sk /\
    sk_log sk' = sk_log sk.
Proof.
  intros [m Hm]. rewrite (pnmap_update_Some sk level f m Hm).
  eexists. split; [reflexivity|]. repeat split; simpl.
  apply dom_insert_lookup_L. eauto.
Qed.

Lemma sack_stream_ok_addresses sk sk' frame :
  same_addresses sk sk' -> sack_stream_ok sk frame -> sack_stream_ok sk' frame.
Proof.
  intros [A _]. unfold sack_stream_ok. destruct (frame_stream frame); [|auto].
  rewrite <- !elem_of_dom, A. auto.
Qed.

(** Closes [same_addresses sk sk'] when [sk'] is [sk] up to its log and
    outqueue and to overwriting a live stream. *)
Ltac addresses :=
  first
    [ apply same_addresses_refl
    | apply same_addresses_fields; reflexivity
    | split; simpl; [|reflexivity];
      rewrite ?insert_insert_eq; apply dom_insert_lookup_L; eauto ].

Lemma sack_state_runs sk frame :
  sack_stream_ok sk frame ->
  exists u sk', transmitted_sack_state sk frame = Some (u, sk') /\
    same_addresses sk sk'.
Proof.
  unfold sack_stream_ok, transmitted_sack_state, stream_update, stream_at.
  intros Hok.
  destruct (Z.eqb_spec (frame_bytes frame) 0) as [Hb|Hb]; simpl.
  - destruct (frame_type frame =? QUIC_FRAME_RESET_STREAM) eqn:T1.
    { destruct (frame_stream frame) as [a|] eqn:Hp.
      2:{ apply Z.eqb_eq in T1. destruct (Hok Hb). contradiction. }
      destruct Hok as [s Hs]. simpl. rewrite Hs. simpl.
      destruct (event_recv_handled sk _).
      - eexists _, _. split; [reflexivity|addresses].
      - eexists _, _. split; [reflexivity|addresses]. }
    destruct (frame_type frame =? QUIC_FRAME_STREAM_DATA_BLOCKED) eqn:T2.
    { destruct (frame_stream frame) as [a|] eqn:Hp.
      2:{ apply Z.eqb_eq in T2. destruct (Hok Hb). contradiction. }
      destruct Hok as [s Hs]. simpl. rewrite Hs. simpl.
      eexists _, _. split; [reflexivity|addresses]. }
    destruct (frame_type frame =? QUIC_FRAME_DATA_BLOCKED);
      eexists _, _; (split; [reflexivity|addresses]).
  - destruct (frame_stream frame) as [a|] eqn:Hp.
    2:{ eexists _, _. split; [reflexivity|addresses]. }
    destruct Hok as [s Hs]. simpl. rewrite Hs. simpl.
    rewrite lookup_insert_eq. simpl.
    destruct (negb _ || negb _).
    { eexists _, _. split; [reflexivity|addresses]. }
    destruct (event_recv_handled _ _); simpl;
      rewrite ?lookup_insert_eq; simpl;
      (eexists _, _; split; [reflexivity|addresses]).
Qed.

Lemma same_addresses_log sk sk' c :
  same_addresses sk sk' -> same_addresses sk (log_call sk' c).
Proof. intros [A1 A2]. split; exact A1 || exact A2. Qed.

Lemma same_addresses_outq sk sk' f :
  same_addresses sk sk' -> same_addresses sk (with_outq sk' f).
Proof. intros [A1 A2]. split; exact A1 || exact A2. Qed.

(** A processed frame: the turn of the loop runs to [continue] or through
    [unlink], and the capture is the one of [sack_capture]. *)
Lemma sack_frame_processed level largest smallest ack_largest ack_delay
    rest frame sk acked_bytes acked_number transmit_ts :
  (level =? frame_level frame) = true ->
  (largest <? frame_number frame) = false ->
  (frame_number frame <? smallest) = false ->
  is_Some (quic_pnmap sk level) ->
  sack_stream_ok sk frame ->
  exists u sk' acked_bytes',
    transmitted_sack_frame level largest smallest ack_largest ack_delay rest
      frame (sk, acked_bytes, acked_number, transmit_ts)
    = Some (sack_next u
        (sk', acked_bytes',
         (sack_capture [frame] (acked_number, transmit_ts)).1,
         (sack_capture [frame] (acked_number, transmit_ts)).2)) /\
    same_addresses sk sk' /\
    (acked_bytes' = acked_bytes \/
     acked_bytes' = u32 (acked_bytes + frame_bytes frame)).
Proof.
  intros F1 F2 F3 Hpn Hok. unfold transmitted_sack_frame.
  rewrite F1, F2, F3. simpl negb. cbv iota.
  assert (Hpre : exists sk1,
    transmitted_sack_rtt sk level ack_largest ack_delay frame = Some sk1 /\
    same_addresses sk sk1).
  { unfold transmitted_sack_rtt.
    destruct (frame_number frame =? ack_largest);
      [|eauto using same_addresses_refl].
    cbv zeta.
    edestruct pnmap_update_runs as (sk2 & -> & A & _);
      [|simpl; eexists; split; [reflexivity|]].
    - exact Hpn.
    - apply same_addresses_log. eapply same_addresses_trans; [|exact A].
      addresses. }
  destruct Hpre as (sk1 & -> & A1). cbn [mbind option_bind].
  set (c := sack_capture [frame] (acked_number, transmit_ts)).
  assert (Hc : (if acked_number =? 0
                then (frame_number frame, u32 (frame_transmit_ts frame))
                else (acked_number, transmit_ts)) = (c.1, c.2)).
  { subst c. simpl. now destruct (acked_number =? 0). }
  rewrite Hc. cbv iota beta.
  set (sk2 := if negb (frame_ecn frame =? 0)
              then log_call sk1 (call_set_sk_ecn INET_ECN_ECT_0) else sk1).
  assert (A2 : same_addresses sk sk2).
  { subst sk2. destruct (negb _); [apply same_addresses_log|]; exact A1. }
  destruct (sack_state_runs sk2 frame) as (u & sk3 & -> & A3).
  { eapply sack_stream_ok_addresses; eauto. }
  cbn [mbind option_bind fst snd]. cbv zeta.
  assert (A23 : same_addresses sk sk3) by (eapply same_addresses_trans; eauto).
  destruct u.
  - edestruct (pnmap_update_runs sk3 level) as (sk4 & -> & A4 & _).
    { eapply same_addresses_pnmap; eauto. }
    cbn [mbind option_bind].
    edestruct (pnmap_update_runs sk4 level) as (sk5 & -> & A5 & _).
    { eapply same_addresses_pnmap; [|exact Hpn].
      eapply same_addresses_trans; eauto. }
    cbn [mbind option_bind].
    eexists _, _, _. split; [reflexivity|]. split; [|now right].
    unfold quic_frame_free. apply same_addresses_log.
    do 3 apply same_addresses_outq.
    eapply same_addresses_trans; [|exact A5].
    eapply same_addresses_trans; eauto.
  - eexists _, _, _. split; [reflexivity|]. split; [exact A23|now left].
Qed.

Lemma sack_walk_runs level largest smallest ack_largest ack_delay todo :
  forall kept sk acked_bytes acked_number transmit_ts,
    is_Some (quic_pnmap sk level) ->
    Forall (sack_stream_ok sk) todo ->
    0 <= acked_bytes < 2 ^ 32 ->
    exists sk' acked_bytes',
      transmitted_sack_walk level largest smallest ack_largest ack_delay
        todo kept (sk, acked_bytes, acked_number, transmit_ts)
      = Some (sk', acked_bytes',
              (sack_capture (sack_processed level largest smallest todo)
                 (acked_number, transmit_ts)).1,
              (sack_capture (sack_processed level largest smallest todo)
                 (acked_number, transmit_ts)).2) /\
      same_addresses sk sk' /\
      0 <= acked_bytes' < 2 ^ 32.
Proof.
  induction todo as [|frame todo IH]; intros kept sk ab an ts Hpn Hok Hab.
  - exists sk, ab. split; [reflexivity|]. split; [addresses|exact Hab].
  - apply List.Forall_cons_iff in Hok as [Hframe Hok].
    cbn [transmitted_sack_walk sack_processed].
    destruct (level =? frame_level frame) eqn:F1.
    2:{ unfold transmitted_sack_frame. rewrite F1. simpl. now apply IH. }
    destruct (largest <? frame_number frame) eqn:F2.
    { unfold transmitted_sack_frame. rewrite F1, F2. simpl. now apply IH. }
    destruct (frame_number frame <? smallest) eqn:F3.
    { unfold transmitted_sack_frame. rewrite F1, F2, F3. simpl.
      exists sk, ab. split; [reflexivity|]. split; [addresses|exact Hab]. }
    simpl negb. cbv iota.
    destruct (sack_frame_processed level largest smallest ack_largest ack_delay
                (rev todo ++ kept) frame sk ab an ts F1 F2 F3 Hpn Hframe)
      as (u & sk1 & ab1 & -> & A1 & Hab1).
    assert (Hab1' : 0 <= ab1 < 2 ^ 32)
      by (destruct Hab1 as [->| ->]; [exact Hab|apply u32_range]).
    assert (Hpn1 : is_Some (quic_pnmap sk1 level))
      by (eapply same_addresses_pnmap; eauto).
    assert (Hok1 : Forall (sack_stream_ok sk1) todo).
    { eapply List.Forall_impl; [|exact Hok].
      intros f. now apply sack_stream_ok_addresses. }
    cbn [sack_capture].
    change (if (an, ts).1 =? 0
            then (frame_number frame, u32 (frame_transmit_ts frame))
            else (an, ts))
      with (sack_capture [frame] (an, ts)).
    destruct (sack_capture [frame] (an, ts)) as [an1 ts1]. cbn [fst snd].
    destruct u;
      [destruct (IH kept sk1 ab1 an1 ts1 Hpn1 Hok1 Hab1')
         as (sk2 & ab2 & -> & A2 & Hab2)
      |destruct (IH (frame :: kept) sk1 ab1 an1 ts1 Hpn1 Hok1 Hab1')
         as (sk2 & ab2 & -> & A2 & Hab2)];
      (exists sk2, ab2; split; [reflexivity|]; split; [|exact Hab2];
       eapply same_addresses_trans; eauto).
Qed.

(** Loss processor. *)

Lemma retransmit_ok_addresses sk sk' frame :
  same_addresses sk sk' -> retransmit_ok sk frame -> retransmit_ok sk' frame.
Proof.
  intros A [H|[H|H]]; [now left|right; now left|].
  right. right. eapply same_addresses_stream; eauto.
Qed.

Lemma inflight_kept_refl sk : inflight_kept sk sk.
Proof. repeat split. Qed.

Lemma inflight_kept_trans sk1 sk2 sk3 :
  inflight_kept sk1 sk2 -> inflight_kept sk2 sk3 -> inflight_kept sk1 sk3.
Proof.
  intros (A1 & A2 & A3 & A4) (B1 & B2 & B3 & B4).
  repeat split; congruence.
Qed.

Lemma retransmit_one_runs sk frame :
  frame_bytes frame = 0 \/ is_Some (stream_at sk (frame_stream frame)) ->
  exists sk', quic_outq_retransmit_one sk frame = Some sk' /\
    same_addresses sk sk' /\ inflight_kept sk sk'.
Proof.
  unfold quic_outq_retransmit_one.
  destruct (Z.eqb_spec (frame_bytes frame) 0) as [E|E]; simpl; intros Hs.
  - eexists. split; [reflexivity|]. split; [addresses|].
    repeat split.
  - destruct Hs as [Hs|[s Hs]]; [contradiction|].
    destruct (stream_update_Some sk _ s
                (fun s => stream_set_frags s
                   (wrap (send_frags_bits B) (send_frags s - 1))) Hs)
      as (a & Hp & Ha & ->).
    simpl. rewrite Hp. unfold stream_update. simpl.
    rewrite lookup_insert_eq. simpl.
    eexists. split; [reflexivity|]. split; [addresses|].
    repeat split.
Qed.

Lemma total_app g l1 l2 : total g (l1 ++ l2) = total g l1 + total g l2.
Proof.
  unfold total. induction l1 as [|f l1 IH]; simpl; [reflexivity|].
  rewrite IH. lia.
Qed.

Lemma total_cons g f l : total g (f :: l) = g f + total g l.
Proof. reflexivity. Qed.

Arguments total : simpl never.

Lemma wrap_sub_l bits a b : wrap bits (wrap bits a - b) = wrap bits (a - b).
Proof. unfold wrap. apply Zminus_mod_idemp_l. Qed.

Lemma wrap_wrap bits a : wrap bits (wrap bits a) = wrap bits a.
Proof. unfold wrap. apply Zmod_mod. Qed.

Lemma wfree_fields len sk :
  sk_outq (quic_outq_wfree len sk) = sk_outq sk /\
  sk_pnmap (quic_outq_wfree len sk) = sk_pnmap sk /\
  sk_streams (quic_outq_wfree len sk) = sk_streams sk.
Proof.
  unfold quic_outq_wfree. destruct (len =? 0); [auto|].
  destruct (0 <? _); auto.
Qed.

Lemma retransmit_list_walk_runs head todo :
  forall sk bytes,
    Forall (retransmit_ok sk) todo ->
    exists sk' bytes',
      retransmit_list_walk head todo (sk, bytes) = Some (sk', bytes') /\
      same_addresses sk sk' /\
      outq_data_inflight (sk_outq sk')
        = data_inflight_after todo (outq_data_inflight (sk_outq sk)) /\
      outq_inflight (sk_outq sk') = outq_inflight (sk_outq sk) /\
      sk_pnmap sk' = sk_pnmap sk.
Proof.
  induction todo as [|frame todo IH]; intros sk bytes Hok.
  - exists sk, bytes. split; [reflexivity|]. split; [addresses|]. auto.
  - apply List.Forall_cons_iff in Hok as [Hframe Hok].
    cbn [retransmit_list_walk].
    set (sk2 := with_outq (list_ref_store head todo sk) _).
    assert (A2 : same_addresses sk sk2)
      by (subst sk2; destruct head; addresses).
    assert (D2 : outq_data_inflight (sk_outq sk2)
                 = wrap (data_inflight_bits B)
                        (outq_data_inflight (sk_outq sk) - frame_bytes frame)
                 /\ outq_inflight (sk_outq sk2) = outq_inflight (sk_outq sk)
                 /\ sk_pnmap sk2 = sk_pnmap sk)
      by (subst sk2; destruct head; auto).
    destruct D2 as (D2 & I2 & P2). clearbody sk2.
    destruct (quic_frame_is_dgram (frame_type frame)) eqn:Hd.
    + destruct (IH (quic_frame_free sk2 frame)
                   (s32 (bytes + frame_bytes frame)))
        as (sk' & bytes' & -> & A & D & I & P).
      { eapply List.Forall_impl; [|exact Hok]. intros f.
        apply retransmit_ok_addresses. now apply same_addresses_log. }
      exists sk', bytes'. split; [reflexivity|].
      split; [eapply same_addresses_trans; [|exact A];
              now apply same_addresses_log|].
      simpl in D, I, P. rewrite D, I, P, D2, I2, P2. auto.
    + destruct (retransmit_one_runs sk2 frame)
        as (sk3 & -> & A3 & (_ & D3 & I3 & P3)).
      { destruct Hframe as [H|[H|H]]; [congruence|now left|right].
        eapply same_addresses_stream; eauto. }
      cbn [mbind option_bind].
      destruct (IH sk3 bytes) as (sk' & bytes' & -> & A & D & I & P).
      { eapply List.Forall_impl; [|exact Hok]. intros f.
        apply retransmit_ok_addresses. eapply same_addresses_trans; eauto. }
      exists sk', bytes'. split; [reflexivity|].
      split; [eapply same_addresses_trans; [|exact A];
              eapply same_addresses_trans; eauto|].
      rewrite D, I, P, D3, I3, P3, D2, I2, P2. auto.
Qed.

Lemma wrap_sub_congr bits a a' r r' :
  wrap bits a' = wrap bits (a - r) ->
  forall a'', wrap bits a'' = wrap bits (a' - r') ->
  wrap bits a'' = wrap bits (a - (r + r')).
Proof.
  intros H1 a'' H2. rewrite H2, <- wrap_sub_l, H1, wrap_sub_l.
  f_equal. lia.
Qed.

Lemma inflight_settled_trans level sk1 sk2 sk3 :
  inflight_settled level sk1 sk2 -> inflight_settled level sk2 sk3 ->
  inflight_settled level sk1 sk3.
Proof.
  intros (D1 & I1 & m1 & m2 & Hm1 & Hm2 & P1)
         (D2 & I2 & m2' & m3 & Hm2' & Hm3 & P2).
  rewrite Hm2 in Hm2'. injection Hm2' as <-.
  assert (U : forall g, unlinked g sk1 sk3
                        = unlinked g sk1 sk2 + unlinked g sk2 sk3)
    by (intros g; unfold unlinked; lia).
  split; [|split].
  - rewrite U. eapply wrap_sub_congr; eauto.
  - rewrite U. eapply wrap_sub_congr; eauto.
  - exists m1, m3. split; [exact Hm1|]. split; [exact Hm3|].
    rewrite U. eapply wrap_sub_congr; eauto.
Qed.

Lemma inflight_settled_kept level sk sk' :
  is_Some (quic_pnmap sk level) ->
  inflight_kept sk sk' -> inflight_settled level sk sk'.
Proof.
  intros [m Hm] (T & D & I & P). unfold inflight_settled, unlinked.
  rewrite T, D, I, !Z.sub_diag, !Z.sub_0_r.
  split; [reflexivity|]. split; [reflexivity|].
  exists m, m. unfold quic_pnmap in *. rewrite P, Z.sub_0_r. auto.
Qed.

Lemma inflight_settled_kept_r level sk sk1 sk2 :
  inflight_settled level sk sk1 -> inflight_kept sk1 sk2 ->
  inflight_settled level sk sk2.
Proof.
  intros H1 H2. eapply inflight_settled_trans; [exact H1|].
  apply inflight_settled_kept; [|exact H2].
  destruct H1 as (_ & _ & m & m' & _ & Hm' & _). eauto.
Qed.

(** The unlink step of [quic_outq_retransmit_mark] on a frame of
    [level]: the three counters drop by the frame. *)
Lemma retransmit_mark_unlink level sk frame pre post m :
  frame_level frame = level ->
  quic_pnmap sk level = Some m ->
  transmitted_list (sk_outq sk) = pre ++ frame :: post ->
  let sk1 := set_pnmaps sk
    (<[level := quic_pnmap_dec_inflight B m (frame_len frame)]> (sk_pnmap sk)) in
  let sk2 := with_outq sk1 (fun q =>
    outq_set_data_inflight q
      (wrap (data_inflight_bits B)
            (outq_data_inflight q - frame_bytes frame))) in
  let sk3 := with_outq sk2 (fun q =>
    outq_set_inflight q
      (wrap (inflight_bits B) (outq_inflight q - frame_len frame))) in
  let sk4 := with_outq sk3 (fun q => outq_set_transmitted_list q (pre ++ post)) in
  inflight_settled level sk sk4 /\ same_addresses sk sk4 /\
  transmitted_list (sk_outq sk4) = pre ++ post.
Proof.
  intros Hl Hm Ht. cbv zeta. split; [|split; [|reflexivity]].
  - unfold inflight_settled, unlinked. simpl.
    rewrite Ht, !total_app, !total_cons, !wrap_wrap.
    split; [f_equal; lia|].
    split; [f_equal; lia|].
    eexists m, _. split; [exact Hm|]. unfold quic_pnmap. simpl.
    rewrite lookup_insert_eq. split; [reflexivity|]. simpl.
    unfold len_at at 2. rewrite Hl, Z.eqb_refl.
    rewrite wrap_wrap. f_equal. lia.
  - split; simpl; [reflexivity|]. apply dom_insert_lookup_L. eauto.
Qed.

Lemma set_loss_ts_settled sk level m v :
  quic_pnmap sk level = Some m ->
  let sk' := set_pnmaps sk
    (<[level := quic_pnmap_set_loss_ts m v]> (sk_pnmap sk)) in
  same_addresses sk sk' /\ inflight_settled level sk sk'.
Proof.
  intros Hm. cbv zeta. split.
  - split; simpl; [reflexivity|apply dom_insert_lookup_L; eauto].
  - unfold inflight_settled, unlinked. simpl.
    rewrite !Z.sub_diag, !Z.sub_0_r.
    split; [reflexivity|]. split; [reflexivity|].
    eexists m, _. split; [exact Hm|]. unfold quic_pnmap. simpl.
    rewrite lookup_insert_eq. split; [reflexivity|]. simpl.
    now rewrite Z.sub_0_r.
Qed.

Lemma retransmit_mark_walk_runs level immediate now last todo :
  forall kept sk count bytes,
    is_Some (quic_pnmap sk level) ->
    Forall (retransmit_ok sk) todo ->
    transmitted_list (sk_outq sk) = rev kept ++ todo ->
    exists sk' count' bytes',
      retransmit_mark_walk level immediate now last kept todo
        (sk, count, bytes) = Some (sk', count', bytes') /\
      same_addresses sk sk' /\
      inflight_settled level sk sk'.
Proof.
  induction todo as [|frame todo IH]; intros kept sk count bytes Hpn Hok Ht.
  - exists sk, count, bytes. split; [reflexivity|]. split; [addresses|].
    apply inflight_settled_kept; [exact Hpn|apply inflight_kept_refl].
  - apply List.Forall_cons_iff in Hok as [Hframe Hok].
    cbn [retransmit_mark_walk].
    destruct (Z.eqb_spec level (frame_level frame)) as [F|F]; simpl negb;
      cbv iota.
    2:{ apply IH; auto. simpl. now rewrite <- app_assoc. }
    destruct Hpn as [m Hm]. rewrite Hm. cbn [mbind option_bind].
    destruct (_ && _ && _).
    { rewrite (pnmap_update_Some sk level _ m Hm). cbn [mbind option_bind].
      eexists _, _, _. split; [reflexivity|].
      apply set_loss_ts_settled. exact Hm. }
    rewrite (pnmap_update_Some sk level _ m Hm). cbn [mbind option_bind].
    destruct (retransmit_mark_unlink level sk frame (rev kept) todo m
                (eq_sym F) Hm Ht) as (S4 & A4 & T4).
    cbv zeta in S4, A4, T4.
    match goal with
    | |- context [quic_frame_free ?s frame] => set (sk4 := s) in *
    end.
    assert (Hstep : exists sk5 count5 bytes5,
      (if quic_frame_is_dgram (frame_type frame)
       then Some (quic_frame_free sk4 frame, count,
                  u32 (bytes + frame_bytes frame))
       else sk5 ← quic_outq_retransmit_one sk4 frame;
            Some (sk5, u32 (count + 1), bytes))
      = Some (sk5, count5, bytes5) /\
      same_addresses sk4 sk5 /\ inflight_kept sk4 sk5).
    { destruct (quic_frame_is_dgram (frame_type frame)) eqn:Hd.
      - eexists _, _, _. split; [reflexivity|]. split; [addresses|].
        repeat split.
      - destruct (retransmit_one_runs sk4 frame) as (sk5 & -> & A5 & K5).
        { destruct Hframe as [H|[H|H]]; [congruence|now left|right].
          eapply same_addresses_stream; eauto. }
        eexists _, _, _. split; [reflexivity|]. auto. }
    destruct Hstep as (sk5 & count5 & bytes5 & -> & A5 & K5).
    cbn [mbind option_bind]. cbv iota beta.
    set (sk6 := if negb (frame_bytes frame =? 0) then _ else sk5).
    assert (K6 : same_addresses sk5 sk6 /\ inflight_kept sk5 sk6).
    { subst sk6. destruct (negb _); split;
        first [addresses | repeat split]. }
    destruct K6 as [A6 K6]. clearbody sk6 sk4.
    assert (A : same_addresses sk sk6)
      by (eapply same_addresses_trans; [exact A4|];
          eapply same_addresses_trans; eauto).
    assert (S6 : inflight_settled level sk sk6).
    { eapply inflight_settled_kept_r; [|exact K6].
      eapply inflight_settled_kept_r; eauto. }
    destruct (IH kept sk6 count5 bytes5)
      as (sk' & count' & bytes' & -> & A' & S').
    + eapply same_addresses_pnmap; eauto.
    + eapply List.Forall_impl; [|exact Hok]. intros f.
      now apply retransmit_ok_addresses.
    + destruct K6 as (-> & _). destruct K5 as (-> & _). exact T4.
    + exists sk', count', bytes'. split; [reflexivity|].
      split; [eapply same_addresses_trans; eauto|].
      eapply inflight_settled_trans; eauto.
Qed.

Lemma update_loss_timer_runs sk level now :
  is_Some (quic_pnmap sk level) ->
  exists sk', quic_outq_update_loss_timer sk level now = Some sk' /\
    same_addresses sk sk' /\ inflight_kept sk sk'.
Proof.
  intros [m Hm]. unfold quic_outq_update_loss_timer. rewrite Hm.
  cbn [mbind option_bind].
  destruct (negb _); [|destruct (_ =? 0)];
    (eexists; split; [reflexivity|]; split; [addresses|repeat split]).
Qed.

Lemma retransmit_mark_runs sk level immediate now now_timer :
  is_Some (quic_pnmap sk level) ->
  Forall (retransmit_ok sk) (transmitted_list (sk_outq sk)) ->
  exists count sk',
    quic_outq_retransmit_mark sk level immediate now now_timer
      = Some (count, sk') /\
    inflight_settled level sk sk'.
Proof.
  intros [m Hm] Hok. unfold quic_outq_retransmit_mark.
  rewrite (pnmap_update_Some sk level _ m Hm). cbn [mbind option_bind].
  destruct (set_loss_ts_settled sk level m 0 Hm) as [A1 S1].
  cbv zeta in A1, S1.
  set (sk1 := set_pnmaps sk _) in *.
  assert (Hpn1 : is_Some (quic_pnmap sk1 level))
    by (eapply same_addresses_pnmap; eauto).
  destruct Hpn1 as [m1 Hm1]. rewrite Hm1. cbn [mbind option_bind].
  destruct (retransmit_mark_walk_runs level immediate (u32 now)
              (s64 (quic_pnmap_next_number m1 - 1))
              (transmitted_list (sk_outq sk1)) [] sk1 0 0)
    as (sk2 & count & bytes & -> & A2 & S2); [eauto| |reflexivity|].
  { eapply List.Forall_impl; [|exact Hok]. intros f.
    now apply retransmit_ok_addresses. }
  cbn [mbind option_bind].
  set (sk3 := quic_outq_wfree (s32 bytes) sk2).
  destruct (wfree_fields (s32 bytes) sk2) as (W1 & W2 & W3).
  fold sk3 in W1, W2, W3.
  assert (K3 : inflight_kept sk2 sk3)
    by (repeat split; congruence).
  assert (A3 : same_addresses sk2 sk3)
    by (apply same_addresses_fields; assumption).
  clearbody sk3.
  destruct (update_loss_timer_runs sk3 level now_timer)
    as (sk4 & -> & A4 & K4).
  { eapply same_addresses_pnmap; [|exists m; exact Hm].
    eapply same_addresses_trans; [exact A1|].
    eapply same_addresses_trans; eauto. }
  cbn [mbind option_bind]. eexists _, _. split; [reflexivity|].
  eapply inflight_settled_kept_r; [|exact K4].
  eapply inflight_settled_kept_r; [|exact K3].
  eapply inflight_settled_trans; eauto.
Qed.

(** C9: [quic_outq_retransmit_list], on a list whose frames can be put
    back, returns with [data_inflight] lowered by [frame.bytes] frame
    after frame, and with [outq.inflight] and the packet-number maps (so
    their in-flight counts) as they were.  [quic_outq_retransmit_mark]
    instead lowers all three counters by what it unlinked from
    [transmitted_list]. *)
Theorem retransmit_list_data_inflight_only
    sk head level immediate now now_timer :
  Forall (retransmit_ok sk) (list_ref_frames sk head) ->
  is_Some (quic_pnmap sk level) ->
  Forall (retransmit_ok sk) (transmitted_list (sk_outq sk)) ->
  (exists sk',
     quic_outq_retransmit_list sk head = Some sk' /\
     outq_data_inflight (sk_outq sk')
       = data_inflight_after (list_ref_frames sk head)
           (outq_data_inflight (sk_outq sk)) /\
     outq_inflight (sk_outq sk') = outq_inflight (sk_outq sk) /\
     sk_pnmap sk' = sk_pnmap sk) /\
  (exists count sk',
     quic_outq_retransmit_mark sk level immediate now now_timer
       = Some (count, sk') /\
     inflight_settled level sk sk').
Proof.
  intros Hlist Hpn Hok. split.
  - unfold quic_outq_retransmit_list.
    destruct (retransmit_list_walk_runs head (list_ref_frames sk head) sk 0
                Hlist) as (sk1 & bytes & -> & _ & D & I & P).
    cbn [mbind option_bind]. eexists. split; [reflexivity|].
    destruct (wfree_fields bytes sk1) as (-> & -> & _). auto.
  - now apply retransmit_mark_runs.
Qed.

(** ** Properties of the rest of the queue manager *)

Lemma ctrl_tail_add_split frame hs app :
  Forall (fun f => is_handshake f = true) hs ->
  Forall (fun f => is_app f = true) app ->
  ctrl_tail_add frame (hs ++ app) = hs ++ frame :: app.
Proof.
  intros Hhs Happ. induction Hhs as [|h hs Hh _ IH]; simpl.
  - destruct Happ as [|a app Ha _]; [reflexivity|].
    simpl. unfold is_app in Ha. now rewrite Ha.
  - unfold is_handshake in Hh. apply negb_true_iff in Hh. rewrite Hh.
    now rewrite IH.
Qed.

Lemma priority_add_handshake_first frame hs app :
  Forall (fun f => is_handshake f = true) hs ->
  Forall (fun f => is_app f = true) app ->
  handshake_first (priority_add frame hs app).
Proof.
  intros Hhs Happ. unfold priority_add.
  destruct (is_handshake frame) eqn:E.
  - exists (hs ++ [frame]), app. split; [reflexivity|]. split; [|exact Happ].
    apply Forall_app. split; [exact Hhs|]. now constructor.
  - exists hs, (app ++ [frame]). split; [reflexivity|]. split; [exact Hhs|].
    apply Forall_app. split; [exact Happ|]. constructor; [|constructor].
    unfold is_app, is_handshake in *. now apply negb_false_iff in E.
Qed.

(** X1: [quic_outq_transmitted_tail] keeps [transmitted_list] in the
    order handshake-level before App-level, first in first out within
    each: on a list made of handshake frames [hs] followed by App frames
    [app], a handshake-level frame ends up right after [hs] and an
    App-level frame at the very end; nothing else of the socket moves. *)
Theorem transmitted_tail_keeps_order sk frame hs app :
  transmitted_list (sk_outq sk) = hs ++ app ->
  Forall (fun f => is_handshake f = true) hs ->
  Forall (fun f => is_app f = true) app ->
  quic_outq_transmitted_tail sk frame
    = with_outq sk (fun q =>
        outq_set_transmitted_list q (priority_add frame hs app)) /\
  handshake_first
    (transmitted_list (sk_outq (quic_outq_transmitted_tail sk frame))).
Proof.
  intros Hl Hhs Happ.
  assert (E : quic_outq_transmitted_tail sk frame
              = with_outq sk (fun q =>
                  outq_set_transmitted_list q (priority_add frame hs app))).
  { unfold quic_outq_transmitted_tail, priority_add, is_handshake.
    rewrite Hl. destruct (negb (frame_level frame =? 0)).
    - now rewrite ctrl_tail_add_split, <- app_assoc.
    - now rewrite <- app_assoc. }
  split; [exact E|]. rewrite E. simpl.
  now apply priority_add_handshake_first.
Qed.

(** X2: a corked batch of [quic_outq_ctrl_tail] is a stable partition.
    On a control list made of handshake frames [hs] followed by App
    frames [app], the batch leaves [hs], then the handshake-level frames
    of the batch in their order, then [app], then the App-level frames of
    the batch in their order. *)
Theorem ctrl_tail_batch_stable_partition frames :
  forall sk hs app,
    control_list (sk_outq sk) = hs ++ app ->
    Forall (fun f => is_handshake f = true) hs ->
    Forall (fun f => is_app f = true) app ->
    ctrl_tail_all sk frames
      = with_outq sk (fun q =>
          outq_set_control_list q
            ((hs ++ List.filter is_handshake frames)
             ++ (app ++ List.filter is_app frames))).
Proof.
  unfold ctrl_tail_all.
  induction frames as [|frame frames IH]; intros sk hs app Hl Hhs Happ.
  - simpl. rewrite !app_nil_r, <- Hl. destruct sk as [q ? ? ? ?].
    destruct q. reflexivity.
  - cbn [fold_left List.filter].
    assert (E : quic_outq_ctrl_tail sk frame true
                = with_outq sk (fun q =>
                    outq_set_control_list q (priority_add frame hs app))).
    { unfold quic_outq_ctrl_tail, priority_add, is_handshake.
      rewrite Hl. destruct (negb (frame_level frame =? 0)).
      - now rewrite ctrl_tail_add_split, <- app_assoc.
      - now rewrite <- app_assoc. }
    rewrite E. unfold priority_add.
    assert (Hx : is_app frame = negb (is_handshake frame))
      by (unfold is_app, is_handshake; now rewrite negb_involutive).
    rewrite Hx.
    destruct (is_handshake frame) eqn:Hf; simpl negb; cbv iota.
    + rewrite (IH _ (hs ++ [frame]) app); [|reflexivity| |exact Happ].
      * simpl. now rewrite <- !app_assoc.
      * apply Forall_app. split; [exact Hhs|]. now constructor.
    + rewrite (IH _ hs (app ++ [frame])); [|reflexivity|exact Hhs|].
      * simpl. now rewrite <- !app_assoc.
      * apply Forall_app. split; [exact Happ|]. constructor; [|constructor].
        exact Hx.
Qed.

(** X3: the send-state machine of [quic_outq_stream_tail], on a frame
    whose stream pointer is valid.  The frame is appended at the tail of
    [stream_list] and only its stream is written.  A stream in READY or
    SEND ends in SENT when the frame carries FIN and in SEND when it does
    not; a stream in any other state keeps it; so no stream is left in
    READY.  The active send stream is cleared (set to -1) exactly when a
    FIN closes the stream that was active. *)
Theorem stream_tail_send_state sk send_active frame cork a s :
  frame_stream frame = Some a ->
  sk_streams sk !! a = Some s ->
  QUIC_STREAM_SEND_STATE_READY <> QUIC_STREAM_SEND_STATE_SEND ->
  QUIC_STREAM_SEND_STATE_READY <> QUIC_STREAM_SEND_STATE_SENT ->
  let fin := negb (Z.land (frame_type frame) QUIC_STREAM_BIT_FIN =? 0) in
  let open := (send_state s =? QUIC_STREAM_SEND_STATE_READY)
              || (send_state s =? QUIC_STREAM_SEND_STATE_SEND) in
  let state' := if open
                then if fin then QUIC_STREAM_SEND_STATE_SENT
                     else QUIC_STREAM_SEND_STATE_SEND
                else send_state s in
  let sk1 :=
    with_outq (set_streams sk (<[a := stream_set_state s state']> (sk_streams sk)))
      (fun q => outq_set_stream_list q (stream_list q ++ [frame])) in
  quic_outq_stream_tail sk send_active frame cork
    = Some (if cork then sk1 else quic_outq_transmit sk1,
            if fin && open && (send_active =? stream_id s)
            then -1 else send_active) /\
  state' <> QUIC_STREAM_SEND_STATE_READY.
Proof.
  intros Hp Hs Hrs Hrt. cbv zeta.
  assert (Hid : forall m : gmap Z quic_stream,
            m !! a = Some s -> <[a := stream_set_state s (send_state s)]> m = m).
  { intros m Hm. replace (stream_set_state s (send_state s)) with s
      by (now destruct s). now apply insert_id. }
  assert (Hset : forall v w, stream_set_state (stream_set_state s v) w
                             = stream_set_state s w) by reflexivity.
  unfold quic_outq_stream_tail, stream_at, stream_update.
  rewrite Hp. cbn [mbind option_bind]. rewrite Hs. cbn [mbind option_bind].
  destruct (Z.eqb_spec (send_state s) QUIC_STREAM_SEND_STATE_READY) as [R|R].
  - cbn [mbind option_bind]. simpl sk_streams.
    rewrite lookup_insert_eq. cbn [mbind option_bind]. simpl send_state.
    rewrite Z.eqb_refl, andb_true_r. simpl orb.
    destruct (negb _) eqn:F; cbn [andb].
    + simpl. rewrite ?lookup_insert_eq. simpl.
      rewrite insert_insert_eq. split; [reflexivity|]. congruence.
    + simpl. split; [reflexivity|]. congruence.
  - simpl orb.
    destruct (Z.eqb_spec (send_state s) QUIC_STREAM_SEND_STATE_SEND) as [S|S].
    + cbn [mbind option_bind]. rewrite Hs. cbn [mbind option_bind].
      rewrite S, Z.eqb_refl, andb_true_r.
      destruct (negb _) eqn:F; cbn [andb].
      * simpl. rewrite ?Hs. simpl. split; [reflexivity|]. congruence.
      * simpl. rewrite <- S, (Hid _ Hs). split; [|congruence].
        destruct sk; reflexivity.
    + cbn [mbind option_bind]. rewrite Hs. cbn [mbind option_bind].
      apply Z.eqb_neq in S. rewrite S, !andb_false_r. simpl.
      rewrite (Hid _ Hs). split; [|exact R]. destruct sk; reflexivity.
Qed.

(** X4: what [quic_outq_transmit_app_close] leaves alone.  Whatever the
    socket state and the answer of the frame factory, the socket that is
    returned, or handed to the transmit scheduler when a frame was
    enqueued, has the socket state, the log (no event is delivered), the
    streams, the maps and the recorded close frame type of the call; on
    an established socket [close_errcode] is not recorded either, and on
    a socket that is neither established nor establishing nothing
    changes at all. *)
Theorem transmit_app_close_frame_condition sk :
  exists sk1,
    (quic_outq_transmit_app_close sk = sk1 \/
     quic_outq_transmit_app_close sk = quic_outq_transmit sk1) /\
    sk_state sk1 = sk_state sk /\ sk_log sk1 = sk_log sk /\
    sk_streams sk1 = sk_streams sk /\ sk_pnmap sk1 = sk_pnmap sk /\
    outq_close_frame (sk_outq sk1) = outq_close_frame (sk_outq sk) /\
    outq_set_control_list
      (quic_outq_set_close_errcode (sk_outq sk1) 0) []
    = outq_set_control_list
        (quic_outq_set_close_errcode (sk_outq sk) 0) [] /\
    (quic_is_established sk = true ->
       outq_close_errcode (sk_outq sk1) = outq_close_errcode (sk_outq sk)) /\
    (quic_is_established sk = false -> quic_is_establishing sk = true ->
       outq_close_errcode (sk_outq sk1) = QUIC_TRANSPORT_ERROR_APPLICATION) /\
    (quic_is_established sk = false -> quic_is_establishing sk = false ->
       quic_outq_transmit_app_close sk = sk).
Proof.
  unfold quic_outq_transmit_app_close, quic_outq_ctrl_tail.
  destruct (quic_is_established sk); [|destruct (quic_is_establishing sk)].
  - destruct (quic_frame_create sk _ _) as [frame|].
    + eexists. split; [right; reflexivity|]. simpl.
      repeat split; intros; discriminate.
    + exists sk. split; [now left|]. repeat split; intros; discriminate.
  - destruct (quic_frame_create _ _ _) as [frame|].
    + eexists. split; [right; reflexivity|]. simpl.
      repeat split; intros; discriminate.
    + eexists. split; [left; reflexivity|]. simpl.
      repeat split; intros; discriminate.
  - exists sk. split; [now left|]. repeat split; intros; discriminate.
Qed.

(** Purges. *)

Lemma free_all_fields frames sk :
  sk_outq (free_all frames sk) = sk_outq sk /\
  sk_streams (free_all frames sk) = sk_streams sk /\
  sk_pnmap (free_all frames sk) = sk_pnmap sk /\
  sk_state (free_all frames sk) = sk_state sk /\
  sk_log (free_all frames sk)
    = rev (List.map call_frame_free frames) ++ sk_log sk.
Proof.
  unfold free_all. revert sk.
  induction frames as [|f frames IH]; intros sk; [now repeat split|].
  cbn [fold_left List.map rev].
  destruct (IH (quic_frame_free sk f)) as (-> & -> & -> & -> & ->).
  simpl. rewrite <- app_assoc. now repeat split.
Qed.

Lemma list_purge_walk_eq head todo :
  forall sk bytes,
    list_purge_walk head todo (sk, bytes)
    = (free_all todo (match todo with
                      | [] => sk
                      | _ :: _ => purge_store head [] sk
                      end),
       refund_from bytes todo).
Proof.
  induction todo as [|f todo IH]; intros sk bytes; [reflexivity|].
  cbn [list_purge_walk]. rewrite IH. unfold free_all, refund_from.
  cbn [fold_left]. f_equal. f_equal.
  destruct todo as [|g todo]; [reflexivity|].
  destruct head as [[]|]; reflexivity.
Qed.

(** X5: [quic_outq_list_purge] frees every frame of the list, first to
    last, and hands their bytes to the write-memory refund; an empty list
    leaves the socket as it was.  When the list is one of the four queues
    it is empty afterwards, and the rest of the outqueue, with
    [data_inflight] and [inflight] even when [transmitted_list] is the
    one purged, the streams and the packet-number maps are as before. *)
Theorem list_purge_frees_all sk head :
  let frames := purge_frames sk head in
  let emptied := match frames with
                 | [] => sk
                 | _ :: _ => purge_store head [] sk
                 end in
  quic_outq_list_purge sk head
    = quic_outq_wfree (refund_from 0 frames) (free_all frames emptied) /\
  sk_log (free_all frames emptied)
    = rev (List.map call_frame_free frames) ++ sk_log sk /\
  (frames = [] -> quic_outq_list_purge sk head = sk) /\
  sk_streams (quic_outq_list_purge sk head) = sk_streams sk /\
  sk_pnmap (quic_outq_list_purge sk head) = sk_pnmap sk /\
  (forall which, head = purge_outq which ->
     outq_get_list (sk_outq (quic_outq_list_purge sk head)) which = [] /\
     outq_set_list (sk_outq (quic_outq_list_purge sk head)) which []
       = outq_set_list (sk_outq sk) which []).
Proof.
  cbv zeta.
  assert (E : quic_outq_list_purge sk head
              = quic_outq_wfree (refund_from 0 (purge_frames sk head))
                  (free_all (purge_frames sk head)
                     (match purge_frames sk head with
                      | [] => sk
                      | _ :: _ => purge_store head [] sk
                      end))).
  { unfold quic_outq_list_purge. now rewrite list_purge_walk_eq. }
  split; [exact E|].
  set (emptied := match purge_frames sk head with
                  | [] => sk
                  | _ :: _ => purge_store head [] sk
                  end) in *.
  destruct (free_all_fields (purge_frames sk head) emptied)
    as (Fq & Fs & Fp & _ & Fl).
  assert (Hemp : sk_streams emptied = sk_streams sk /\
                 sk_pnmap emptied = sk_pnmap sk /\
                 sk_log emptied = sk_log sk).
  { subst emptied. destruct (purge_frames sk head); [auto|].
    destruct head as [[]|]; auto. }
  destruct Hemp as (Es & Ep & El).
  destruct (wfree_fields (refund_from 0 (purge_frames sk head))
              (free_all (purge_frames sk head) emptied)) as (Wq & Wp & Ws).
  split; [now rewrite Fl, El|].
  split.
  { intros Hnil. rewrite E. subst emptied. rewrite Hnil. reflexivity. }
  rewrite E, Ws, Wp, Wq, Fs, Fp, Fq.
  split; [exact Es|]. split; [exact Ep|].
  intros which ->. subst emptied. simpl purge_frames.
  destruct (outq_get_list (sk_outq sk) which) eqn:L.
  - split; [exact L|reflexivity].
  - destruct which; split; reflexivity.
Qed.

Lemma purge_ok_addresses sk sk' stream f :
  same_addresses sk sk' -> purge_ok sk stream f -> purge_ok sk' stream f.
Proof.
  intros A H Hm. eapply same_addresses_pnmap; eauto.
Qed.

(** The unlink step of the purge, seen from the map of any level [l]. *)
Lemma purge_unlink l sk frame pre post m :
  quic_pnmap sk (frame_level frame) = Some m ->
  is_Some (quic_pnmap sk l) ->
  transmitted_list (sk_outq sk) = pre ++ frame :: post ->
  let sk1 := set_pnmaps sk
    (<[frame_level frame := quic_pnmap_dec_inflight B m (frame_len frame)]>
       (sk_pnmap sk)) in
  let sk2 := with_outq sk1 (fun q =>
    outq_set_data_inflight q
      (wrap (data_inflight_bits B)
            (outq_data_inflight q - frame_bytes frame))) in
  let sk3 := with_outq sk2 (fun q =>
    outq_set_inflight q
      (wrap (inflight_bits B) (outq_inflight q - frame_len frame))) in
  let sk4 := with_outq sk3 (fun q => outq_set_transmitted_list q (pre ++ post)) in
  inflight_settled l sk sk4.
Proof.
  intros Hm [ml Hl] Ht. cbv zeta.
  destruct (Z.eq_dec (frame_level frame) l) as [E|E].
  - subst l.
    exact (proj1 (retransmit_mark_unlink (frame_level frame) sk frame pre post
                    m eq_refl Hm Ht)).
  - destruct (retransmit_mark_unlink (frame_level frame) sk frame pre post
                m eq_refl Hm Ht) as ((D & I & _) & _).
    cbv zeta in D, I. split; [exact D|]. split; [exact I|].
    exists ml, ml. split; [exact Hl|]. unfold quic_pnmap. simpl.
    rewrite lookup_insert_ne by exact E. split; [exact Hl|].
    unfold unlinked. simpl. rewrite Ht, !total_app, !total_cons.
    unfold len_at at 2. apply Z.eqb_neq in E. rewrite E.
    f_equal. lia.
Qed.

Lemma stream_purge_transmitted_runs stream todo :
  forall kept sk bytes,
    Forall (purge_ok sk stream) todo ->
    transmitted_list (sk_outq sk) = rev kept ++ todo ->
    exists sk' bytes',
      stream_purge_transmitted stream kept todo (sk, bytes)
        = Some (sk', bytes') /\
      transmitted_list (sk_outq sk')
        = rev kept ++ List.filter (not_of_stream stream) todo /\
      bytes' = refund_from bytes (List.filter (of_stream stream) todo) /\
      same_addresses sk sk' /\
      pending_kept sk sk' /\
      (forall l, is_Some (quic_pnmap sk l) -> inflight_settled l sk sk').
Proof.
  induction todo as [|frame todo IH]; intros kept sk bytes Hok Ht.
  - exists sk, bytes. split; [reflexivity|]. split; [exact Ht|].
    split; [reflexivity|]. split; [addresses|]. split; [now repeat split|].
    intros l Hl. apply inflight_settled_kept; [exact Hl|].
    apply inflight_kept_refl.
  - apply List.Forall_cons_iff in Hok as [Hframe Hok].
    cbn [stream_purge_transmitted List.filter].
    unfold not_of_stream at 1. unfold purge_ok in Hframe.
    fold (of_stream stream frame).
    destruct (of_stream stream frame) eqn:M; simpl negb; cbv iota.
    2:{ destruct (IH (frame :: kept) sk bytes Hok) as (sk' & b' & H).
        { simpl. now rewrite <- app_assoc. }
        exists sk', b'. simpl in H. rewrite <- app_assoc in H. exact H. }
    destruct (Hframe eq_refl) as [m Hm].
    rewrite (pnmap_update_Some sk _ _ m Hm). cbn [mbind option_bind].
    pose proof (fun l Hl => purge_unlink l sk frame (rev kept) todo m Hm Hl Ht)
      as S4. cbv zeta in S4.
    destruct (retransmit_mark_unlink (frame_level frame) sk frame (rev kept)
                todo m eq_refl Hm Ht) as (_ & A4 & T4).
    cbv zeta in A4, T4.
    match goal with
    | |- context [quic_frame_free ?s frame] => set (sk4 := s) in *
    end.
    assert (P4 : pending_kept sk sk4) by (subst sk4; now repeat split).
    clearbody sk4.
    destruct (IH kept (quic_frame_free sk4 frame)
                 (s32 (bytes + frame_bytes frame)))
      as (sk' & b' & -> & T' & B' & A' & P' & S').
    + eapply List.Forall_impl; [|exact Hok]. intros f.
      apply purge_ok_addresses. now apply same_addresses_log.
    + exact T4.
    + exists sk', b'. split; [reflexivity|]. split; [exact T'|].
      split; [exact B'|].
      split; [eapply same_addresses_trans; [|exact A'];
              now apply same_addresses_log|].
      split.
      { destruct P4 as (P1 & P2 & P3 & P5), P' as (Q1 & Q2 & Q3 & Q5).
        simpl in Q1, Q2, Q3, Q5. repeat split; congruence. }
      intros l Hl. eapply inflight_settled_trans; [|apply S'].
      * eapply inflight_settled_kept_r; [exact (S4 l Hl)|].
        repeat split.
      * eapply same_addresses_pnmap; [|exact Hl].
        now apply same_addresses_log.
Qed.

Lemma stream_purge_pending_eq stream todo :
  forall kept sk bytes,
    stream_list (sk_outq sk) = rev kept ++ todo ->
    exists sk' bytes',
      stream_purge_pending stream kept todo (sk, bytes) = (sk', bytes') /\
      stream_list (sk_outq sk')
        = rev kept ++ List.filter (not_of_stream stream) todo /\
      bytes' = refund_from bytes (List.filter (of_stream stream) todo) /\
      same_addresses sk sk' /\ inflight_kept sk sk' /\
      control_list (sk_outq sk') = control_list (sk_outq sk) /\
      datagram_list (sk_outq sk') = datagram_list (sk_outq sk) /\
      sk_streams sk' = sk_streams sk.
Proof.
  induction todo as [|frame todo IH]; intros kept sk bytes Ht.
  - exists sk, bytes. split; [reflexivity|]. split; [exact Ht|].
    split; [reflexivity|]. split; [addresses|].
    split; [apply inflight_kept_refl|]. auto.
  - cbn [stream_purge_pending List.filter].
    unfold not_of_stream at 1. fold (of_stream stream frame).
    destruct (of_stream stream frame) eqn:M; simpl negb; cbv iota.
    2:{ destruct (IH (frame :: kept) sk bytes) as (sk' & b' & H).
        { simpl. now rewrite <- app_assoc. }
        exists sk', b'. simpl in H. rewrite <- app_assoc in H. exact H. }
    set (sk1 := quic_frame_free _ frame).
    destruct (IH kept sk1 (s32 (bytes + frame_bytes frame)))
      as (sk' & b' & -> & T' & B' & A' & K' & C' & D' & S'); [reflexivity|].
    exists sk', b'. split; [reflexivity|]. split; [exact T'|].
    split; [exact B'|].
    split; [eapply same_addresses_trans; [|exact A']; subst sk1; addresses|].
    split; [eapply inflight_kept_trans; [|exact K']; subst sk1;
            now repeat split|].
    rewrite C', D', S'. subst sk1. now repeat split.
Qed.

Lemma stream_purge_runs sk stream :
  Forall (purge_ok sk stream) (transmitted_list (sk_outq sk)) ->
  exists sk2,
    quic_outq_stream_purge sk stream
      = Some (quic_outq_wfree
                (refund_from 0
                   (List.filter (of_stream stream)
                      (transmitted_list (sk_outq sk)
                       ++ stream_list (sk_outq sk)))) sk2) /\
    transmitted_list (sk_outq sk2)
      = List.filter (not_of_stream stream) (transmitted_list (sk_outq sk)) /\
    stream_list (sk_outq sk2)
      = List.filter (not_of_stream stream) (stream_list (sk_outq sk)) /\
    control_list (sk_outq sk2) = control_list (sk_outq sk) /\
    datagram_list (sk_outq sk2) = datagram_list (sk_outq sk) /\
    sk_streams sk2 = sk_streams sk /\
    (forall l, is_Some (quic_pnmap sk l) -> inflight_settled l sk sk2).
Proof.
  intros Hok. unfold quic_outq_stream_purge.
  destruct (stream_purge_transmitted_runs stream
              (transmitted_list (sk_outq sk)) [] sk 0 Hok eq_refl)
    as (sk1 & b1 & -> & T1 & B1 & A1 & (P1 & P2 & P3 & P4) & S1).
  cbn [mbind option_bind fst snd].
  destruct (stream_purge_pending_eq stream (stream_list (sk_outq sk1)) []
              sk1 b1 eq_refl)
    as (sk2 & b2 & -> & T2 & B2 & A2 & K2 & C2 & D2 & S2).
  cbn [fst snd]. exists sk2. split.
  { f_equal. f_equal. rewrite B2, B1, P1, List.filter_app.
    unfold refund_from. now rewrite fold_left_app. }
  destruct K2 as (K21 & K22 & K23 & K24).
  split; [now rewrite K21, T1|]. split; [now rewrite T2, P1|].
  split; [congruence|]. split; [congruence|]. split; [congruence|].
  intros l Hl. eapply inflight_settled_kept_r; [exact (S1 l Hl)|].
  now repeat split.
Qed.

(** X6: [quic_outq_stream_purge], when the levels of the stream's frames
    in flight have their packet-number maps, removes from
    [transmitted_list] and from [stream_list] exactly the frames whose
    stream is the one given and keeps the other frames in their order; no
    frame of the stream is left in either list.  The control and datagram
    lists and the streams are not touched, and the refund is the sum of
    the bytes of the frames removed from both lists. *)
Theorem stream_purge_removes_stream sk stream :
  Forall (purge_ok sk stream) (transmitted_list (sk_outq sk)) ->
  exists sk',
    quic_outq_stream_purge sk stream = Some sk' /\
    transmitted_list (sk_outq sk')
      = List.filter (not_of_stream stream) (transmitted_list (sk_outq sk)) /\
    stream_list (sk_outq sk')
      = List.filter (not_of_stream stream) (stream_list (sk_outq sk)) /\
    Forall (fun f => frame_stream f <> stream)
           (transmitted_list (sk_outq sk') ++ stream_list (sk_outq sk')) /\
    control_list (sk_outq sk') = control_list (sk_outq sk) /\
    datagram_list (sk_outq sk') = datagram_list (sk_outq sk) /\
    sk_streams sk' = sk_streams sk /\
    exists sk2,
      sk' = quic_outq_wfree
              (refund_from 0
                 (List.filter (of_stream stream)
                    (transmitted_list (sk_outq sk)
                     ++ stream_list (sk_outq sk)))) sk2.
Proof.
  intros Hok.
  destruct (stream_purge_runs sk stream Hok)
    as (sk2 & -> & T & S & C & D & St & _).
  eexists. split; [reflexivity|].
  destruct (wfree_fields
              (refund_from 0
                 (List.filter (of_stream stream)
                    (transmitted_list (sk_outq sk)
                     ++ stream_list (sk_outq sk)))) sk2) as (-> & _ & ->).
  split; [exact T|]. split; [exact S|].
  split.
  { rewrite T, S, <- List.filter_app. apply List.Forall_forall.
    intros f Hf. apply List.filter_In in Hf as [_ Hf].
    unfold not_of_stream, of_stream in Hf. apply negb_true_iff in Hf.
    now apply bool_decide_eq_false in Hf. }
  repeat split; eauto.
Qed.

(** X7: [quic_outq_stream_purge] keeps the in-flight accounting: under
    the hypothesis of X6, [data_inflight], [inflight] and the in-flight
    count of the packet-number map of every level go down by the bytes
    and lengths of the frames that left [transmitted_list]; the frames
    removed from [stream_list] count for nothing. *)
Theorem stream_purge_settles_inflight sk stream l :
  Forall (purge_ok sk stream) (transmitted_list (sk_outq sk)) ->
  is_Some (quic_pnmap sk l) ->
  exists sk',
    quic_outq_stream_purge sk stream = Some sk' /\
    inflight_settled l sk sk' /\
    unlinked frame_bytes sk sk'
      = total frame_bytes
          (List.filter (of_stream stream) (transmitted_list (sk_outq sk))).
Proof.
  intros Hok Hl.
  destruct (stream_purge_runs sk stream Hok)
    as (sk2 & -> & T & S & C & D & St & Hset).
  eexists. split; [reflexivity|].
  set (r := refund_from 0 _).
  destruct (wfree_fields r sk2) as (Wq & Wp & Ws).
  split.
  - eapply inflight_settled_kept_r; [exact (Hset l Hl)|].
    repeat split; congruence.
  - unfold unlinked. rewrite Wq, T.
    clear. induction (transmitted_list (sk_outq sk)) as [|f tl IH];
      [reflexivity|].
    cbn [List.filter]. unfold not_of_stream at 1.
    destruct (of_stream stream f); simpl negb; cbv iota;
      rewrite !total_cons; lia.
Qed.

(** Path validation. *)

Lemma wrap8_land x : wrap 8 x = Z.land x (Z.ones 8).
Proof. unfold wrap. symmetry. apply Z.land_ones. lia. Qed.

Lemma clear_path_alt_clears mask f :
  Z.land (frame_path_alt (clear_path_alt mask f)) mask = 0.
Proof.
  unfold clear_path_alt. simpl. rewrite wrap8_land.
  apply Z.bits_inj'. intros i Hi.
  rewrite !Z.land_spec, Z.lnot_spec, Z.bits_0 by exact Hi.
  destruct (Z.testbit mask i); simpl.
  - now rewrite andb_false_r.
  - apply andb_false_r.
Qed.

Lemma clear_path_alt_keeps mask f i :
  0 <= frame_path_alt f < 2 ^ 8 -> 0 <= i -> Z.testbit mask i = false ->
  Z.testbit (frame_path_alt (clear_path_alt mask f)) i
  = Z.testbit (frame_path_alt f) i.
Proof.
  intros Hr Hi Hm. unfold clear_path_alt. simpl. rewrite wrap8_land.
  rewrite !Z.land_spec, Z.lnot_spec, Hm by exact Hi. simpl.
  rewrite andb_true_r.
  rewrite <- Z.land_spec, Z.land_ones by lia.
  now rewrite Z.mod_small.
Qed.

(** X8: [quic_outq_validate_path].  When the user takes the
    CONNECTION_MIGRATION event nothing happens beyond its delivery.
    Otherwise, with [mask] the SRC bit for the local side and the DST bit
    for the remote one, every frame of [control_list] and
    [transmitted_list] and the triggering frame comes out with the [mask]
    bits clear and its other bits and fields as they were, while
    [stream_list] and [datagram_list] are not walked: their frames keep
    the bit.  The PATH timer is stopped and then reset to the probe
    timeout. *)
Theorem validate_path_clears_alt sk calls frame local :
  let r := quic_outq_validate_path sk calls frame local in
  let mask := if local =? 0 then QUIC_PATH_ALT_DST else QUIC_PATH_ALT_SRC in
  (migration_handled sk local = true ->
     r = (sk, pcall_event_recv_migration local :: calls, frame)) /\
  (migration_handled sk local = false ->
     control_list (sk_outq r.1.1)
       = List.map (clear_path_alt mask) (control_list (sk_outq sk)) /\
     transmitted_list (sk_outq r.1.1)
       = List.map (clear_path_alt mask) (transmitted_list (sk_outq sk)) /\
     r.2 = clear_path_alt mask frame /\
     Forall (fun f => Z.land (frame_path_alt f) mask = 0)
       (r.2 :: control_list (sk_outq r.1.1)
            ++ transmitted_list (sk_outq r.1.1)) /\
     stream_list (sk_outq r.1.1) = stream_list (sk_outq sk) /\
     datagram_list (sk_outq r.1.1) = datagram_list (sk_outq sk) /\
     sk_log r.1.1
       = call_timer_reset QUIC_TIMER_PATH
           (u32 (quic_inq_probe_timeout (quic_timer_stop sk QUIC_TIMER_PATH)))
         :: call_timer_stop QUIC_TIMER_PATH :: sk_log sk) /\
  (forall f i,
     0 <= frame_path_alt f < 2 ^ 8 -> 0 <= i -> Z.testbit mask i = false ->
     Z.testbit (frame_path_alt (clear_path_alt mask f)) i
     = Z.testbit (frame_path_alt f) i) /\
  (forall f, frame_set_path_alt (clear_path_alt mask f) (frame_path_alt f) = f).
Proof.
  cbv zeta. unfold quic_outq_validate_path.
  split; [intros ->; reflexivity|].
  split.
  - intros ->. destruct (local =? 0); simpl.
    all: repeat split.
    all: constructor; [apply clear_path_alt_clears|].
    all: apply Forall_app; split; apply List.Forall_forall; intros f Hf;
         apply List.in_map_iff in Hf as (g & <- & _);
         apply clear_path_alt_clears.
  - split; [intros f i; apply clear_path_alt_keeps|].
    intros f. now destruct f.
Qed.

(** Ack processor: what leaves [transmitted_list] and what is settled. *)

Lemma stream_update_kept sk p f sk' :
  stream_update sk p f = Some sk' -> inflight_kept sk sk'.
Proof.
  unfold stream_update. intros H.
  destruct p as [a|]; [|discriminate]. simpl in H.
  destruct (sk_streams sk !! a); [|discriminate].
  injection H as <-. repeat split.
Qed.

Lemma sack_state_kept sk frame u sk' :
  transmitted_sack_state sk frame = Some (u, sk') -> inflight_kept sk sk'.
Proof.
  unfold transmitted_sack_state, quic_inq_event_recv. intros H.
  repeat match type of H with
  | Some _ = Some _ => injection H as <- <-
  | None = Some _ => discriminate H
  | context [mbind _ ?x] =>
      let E := fresh "E" in
      destruct x eqn:E; cbn [mbind option_bind] in H
  | context [if ?c then _ else _] => destruct c
  | context [match ?x with _ => _ end] => destruct x
  end.
  all: repeat match goal with
  | E : stream_update _ _ _ = Some _ |- _ =>
      apply stream_update_kept in E
  end.
  all: eauto using inflight_kept_refl, inflight_kept_trans.
  all: try (repeat split; fail).
Qed.

Lemma pnmap_update_settled sk level f sk' :
  (forall m, pn_inflight (f m) = pn_inflight m) ->
  pnmap_update sk level f = Some sk' ->
  inflight_settled level sk sk' /\
  transmitted_list (sk_outq sk') = transmitted_list (sk_outq sk).
Proof.
  unfold pnmap_update. intros Hf H.
  destruct (sk_pnmap sk !! level) as [m|] eqn:Hm; [|discriminate].
  injection H as <-. split; [|reflexivity].
  unfold inflight_settled, unlinked. simpl.
  rewrite !Z.sub_diag, !Z.sub_0_r.
  split; [reflexivity|]. split; [reflexivity|].
  exists m, (f m). split; [exact Hm|]. unfold quic_pnmap. simpl.
  rewrite lookup_insert_eq. split; [reflexivity|].
  now rewrite Hf, Z.sub_0_r.
Qed.

(** One turn of the loop of the ack processor that goes on to the next
    frame: the counters are settled, and the frame is unlinked only if
    the ack covers it. *)
Lemma sack_frame_settled level largest smallest ack_largest ack_delay
    pre post frame sk acked_bytes acked_number transmit_ts u st' :
  transmitted_list (sk_outq sk) = pre ++ frame :: post ->
  is_Some (quic_pnmap sk level) ->
  transmitted_sack_frame level largest smallest ack_largest ack_delay
    (pre ++ post) frame (sk, acked_bytes, acked_number, transmit_ts)
  = Some (sack_next u st') ->
  inflight_settled level sk st'.1.1.1 /\
  transmitted_list (sk_outq st'.1.1.1)
    = (if u then pre ++ post else pre ++ frame :: post) /\
  (u = true -> sack_covers level largest smallest frame = true).
Proof.
  intros Ht Hpn. unfold transmitted_sack_frame, sack_covers.
  assert (Hrefl : inflight_settled level sk sk)
    by (apply inflight_settled_kept; [exact Hpn|apply inflight_kept_refl]).
  destruct (Z.eqb_spec level (frame_level frame)) as [F1|F1]; simpl negb;
    cbv iota.
  2:{ intros [= <- <-]. simpl. split; [exact Hrefl|]. split; [exact Ht|].
      discriminate. }
  destruct (Z.ltb_spec largest (frame_number frame)) as [F2|F2].
  { intros [= <- <-]. simpl. split; [exact Hrefl|]. split; [exact Ht|].
    discriminate. }
  destruct (Z.ltb_spec (frame_number frame) smallest) as [F3|F3];
    [discriminate|].
  assert (Hcov : true && (smallest <=? frame_number frame)
                 && (frame_number frame <=? largest) = true).
  { simpl. apply andb_true_iff. split; [apply Z.leb_le|apply Z.leb_le]; lia. }
  destruct (transmitted_sack_rtt sk level ack_largest ack_delay frame)
    as [sk1|] eqn:E1; [|discriminate].
  cbn [mbind option_bind].
  assert (S1 : inflight_settled level sk sk1 /\
               transmitted_list (sk_outq sk1) = transmitted_list (sk_outq sk)).
  { unfold transmitted_sack_rtt in E1.
    destruct (frame_number frame =? ack_largest).
    2:{ injection E1 as <-. split; [exact Hrefl|reflexivity]. }
    cbv zeta in E1.
    destruct (pnmap_update _ level _) as [sk0|] eqn:E0; [|discriminate].
    injection E1 as <-.
    apply pnmap_update_settled in E0 as [S0 T0]; [|reflexivity].
    split; [|exact T0].
    eapply inflight_settled_kept_r; [|instantiate (1 := sk0); repeat split].
    eapply inflight_settled_trans; [|exact S0].
    apply inflight_settled_kept; [exact Hpn|repeat split]. }
  destruct S1 as [S1 T1].
  destruct (if acked_number =? 0 then _ else _) as [an1 ts1].
  set (sk2 := if negb (frame_ecn frame =? 0) then _ else sk1).
  assert (K2 : inflight_kept sk1 sk2)
    by (subst sk2; destruct (negb _); repeat split).
  clearbody sk2.
  destruct (transmitted_sack_state sk2 frame) as [[u3 sk3]|] eqn:E3;
    [|discriminate].
  cbn [mbind option_bind fst snd]. cbv zeta.
  apply sack_state_kept in E3.
  assert (K3 : inflight_kept sk1 sk3) by (eapply inflight_kept_trans; eauto).
  assert (S3 : inflight_settled level sk sk3)
    by (eapply inflight_settled_kept_r; eauto).
  assert (T3 : transmitted_list (sk_outq sk3) = pre ++ frame :: post)
    by (destruct K3 as (-> & _); congruence).
  destruct u3.
  2:{ intros [= <- <-]. simpl. split; [exact S3|]. split; [exact T3|].
      discriminate. }
  destruct (pnmap_update sk3 level _) as [sk4|] eqn:E4; [|discriminate].
  cbn [mbind option_bind].
  apply pnmap_update_settled in E4 as [S4 T4]; [|reflexivity].
  assert (Hm4 : is_Some (quic_pnmap sk4 level))
    by (destruct S4 as (_ & _ & m & m' & _ & Hm' & _); eauto).
  destruct Hm4 as [m4 Hm4].
  rewrite (pnmap_update_Some sk4 level _ m4 Hm4). cbn [mbind option_bind].
  intros [= <- <-]. cbn [fst snd].
  destruct (retransmit_mark_unlink level sk4 frame pre post m4
              (eq_sym F1) Hm4 ltac:(congruence)) as (S5 & _ & T5).
  cbv zeta in S5, T5.
  split; [|split; [exact T5|intros _; exact Hcov]].
  eapply inflight_settled_kept_r; [|unfold quic_frame_free; repeat split].
  eapply inflight_settled_trans; [exact S3|].
  eapply inflight_settled_trans; [exact S4|exact S5].
Qed.

Lemma filter_uncovered_drop (P : quic_frame -> bool) pre frame post :
  P frame = true ->
  List.filter (fun f => negb (P f)) (pre ++ frame :: post)
  = List.filter (fun f => negb (P f)) (pre ++ post).
Proof.
  intros H. rewrite !List.filter_app. simpl. now rewrite H.
Qed.

Lemma sack_walk_settled level largest smallest ack_largest ack_delay todo :
  forall kept sk acked_bytes acked_number transmit_ts st',
    transmitted_list (sk_outq sk) = rev todo ++ kept ->
    is_Some (quic_pnmap sk level) ->
    transmitted_sack_walk level largest smallest ack_largest ack_delay
      todo kept (sk, acked_bytes, acked_number, transmit_ts) = Some st' ->
    inflight_settled level sk st'.1.1.1 /\
    sublist (transmitted_list (sk_outq st'.1.1.1)) (rev todo ++ kept) /\
    List.filter (fun f => negb (sack_covers level largest smallest f))
      (transmitted_list (sk_outq st'.1.1.1))
    = List.filter (fun f => negb (sack_covers level largest smallest f))
        (rev todo ++ kept).
Proof.
  induction todo as [|frame todo IH]; intros kept sk ab an ts st' Ht Hpn.
  - intros [= <-]. simpl in *. rewrite Ht.
    split; [|split; reflexivity].
    apply inflight_settled_kept; [exact Hpn|apply inflight_kept_refl].
  - cbn [transmitted_sack_walk].
    simpl rev in *. rewrite <- app_assoc in *. simpl app in *.
    destruct (transmitted_sack_frame _ _ _ _ _ _ _ _)
      as [[|u [[[sk1 ab1] an1] ts1]]|] eqn:E; [|..|discriminate].
    { intros [= <-]. simpl. rewrite Ht. split; [|split; reflexivity].
      apply inflight_settled_kept; [exact Hpn|apply inflight_kept_refl]. }
    destruct (sack_frame_settled _ _ _ _ _ _ _ _ _ _ _ _ _ _ Ht Hpn E)
      as (S1 & T1 & C1).
    cbn [fst snd] in S1, T1.
    assert (Hpn1 : is_Some (quic_pnmap sk1 level))
      by (destruct S1 as (_ & _ & m & m' & _ & Hm' & _); eauto).
    destruct u; intros Hw.
    + destruct (IH _ _ _ _ _ _ T1 Hpn1 Hw) as (S2 & L2 & F2).
      split; [eapply inflight_settled_trans; eauto|]. split.
      * etransitivity; [exact L2|].
        apply sublist_app; [reflexivity|]. now apply sublist_cons.
      * rewrite F2. symmetry. apply filter_uncovered_drop. now apply C1.
    + destruct (IH (frame :: kept) _ _ _ _ _ T1 Hpn1 Hw) as (S2 & L2 & F2).
      split; [eapply inflight_settled_trans; eauto|]. now split.
Qed.

Lemma sack_finish_kept st :
  inflight_kept st.1.1.1 (transmitted_sack_finish st).2.
Proof.
  destruct st as [[[sk ab] an] ts]. unfold transmitted_sack_finish. simpl.
  destruct (negb _); repeat split.
Qed.

(** X9: [quic_outq_transmitted_sack] unlinks nothing but frames the ack
    covers.  [transmitted_list] after the call is a sublist of the one
    the walk started from (no frame added, none reordered), and the
    frames of another level or with a packet number outside
    [smallest..largest] are all still there. *)
Theorem transmitted_sack_unlinks_covered_only
    sk level largest smallest ack_largest ack_delay sk0 :
  transmitted_sack_pl sk largest smallest = Some sk0 ->
  is_Some (quic_pnmap sk0 level) ->
  Forall (sack_stream_ok sk0) (transmitted_list (sk_outq sk0)) ->
  exists acked sk',
    quic_outq_transmitted_sack sk level largest smallest ack_largest ack_delay
      = Some (acked, sk') /\
    sublist (transmitted_list (sk_outq sk')) (transmitted_list (sk_outq sk0)) /\
    List.filter (fun f => negb (sack_covers level largest smallest f))
      (transmitted_list (sk_outq sk'))
    = List.filter (fun f => negb (sack_covers level largest smallest f))
        (transmitted_list (sk_outq sk0)).
Proof.
  intros Hpl Hpn Hok.
  destruct (sack_walk_runs level largest smallest ack_largest ack_delay
              (rev (transmitted_list (sk_outq sk0))) [] sk0 0 0 0 Hpn)
    as (sk1 & ab & Hwalk & _ & _).
  { apply List.Forall_rev. exact Hok. }
  { lia. }
  unfold quic_outq_transmitted_sack. rewrite Hpl. cbn [mbind option_bind].
  rewrite Hwalk. cbn [mbind option_bind].
  eapply sack_walk_settled in Hwalk as (_ & L & F); [|idtac|exact Hpn].
  2:{ now rewrite rev_involutive, app_nil_r. }
  rewrite rev_involutive, app_nil_r in L, F. cbn [fst snd] in L, F.
  match goal with
  | |- context [transmitted_sack_finish ?s] =>
      pose proof (sack_finish_kept s) as (T & _);
      set (r := transmitted_sack_finish s) in *
  end.
  cbn [fst snd] in T. clearbody r.
  exists r.1, r.2. split; [now rewrite <- surjective_pairing|].
  rewrite T. now split.
Qed.

(** X10: [quic_outq_transmitted_sack] keeps the in-flight accounting
    balanced.  Between the state the walk starts from and the state
    returned, [outq.data_inflight], [outq.inflight] and the in-flight
    count of the packet-number map of [level] each went down, in the
    arithmetic of their fields, by the bytes and lengths of exactly the
    frames that left [transmitted_list]. *)
Theorem transmitted_sack_settles_inflight
    sk level largest smallest ack_largest ack_delay sk0 :
  transmitted_sack_pl sk largest smallest = Some sk0 ->
  is_Some (quic_pnmap sk0 level) ->
  Forall (sack_stream_ok sk0) (transmitted_list (sk_outq sk0)) ->
  exists acked sk',
    quic_outq_transmitted_sack sk level largest smallest ack_largest ack_delay
      = Some (acked, sk') /\
    inflight_settled level sk0 sk'.
Proof.
  intros Hpl Hpn Hok.
  destruct (sack_walk_runs level largest smallest ack_largest ack_delay
              (rev (transmitted_list (sk_outq sk0))) [] sk0 0 0 0 Hpn)
    as (sk1 & ab & Hwalk & _ & _).
  { apply List.Forall_rev. exact Hok. }
  { lia. }
  unfold quic_outq_transmitted_sack. rewrite Hpl. cbn [mbind option_bind].
  rewrite Hwalk. cbn [mbind option_bind].
  eapply sack_walk_settled in Hwalk as (S & _ & _); [|idtac|exact Hpn].
  2:{ now rewrite rev_involutive, app_nil_r. }
  cbn [fst snd] in S.
  match goal with
  | |- context [transmitted_sack_finish ?s] =>
      pose proof (sack_finish_kept s) as K;
      set (r := transmitted_sack_finish s) in *
  end.
  cbn [fst snd] in K. clearbody r.
  exists r.1, r.2. split; [now rewrite <- surjective_pairing|].
  eapply inflight_settled_kept_r; [exact S|exact K].
Qed.

Lemma sack_walk_nothing level largest smallest ack_largest ack_delay todo :
  forall kept st,
    sack_processed level largest smallest todo = [] ->
    transmitted_sack_walk level largest smallest ack_largest ack_delay
      todo kept st = Some st.
Proof.
  induction todo as [|frame todo IH]; intros kept st; [reflexivity|].
  cbn [sack_processed transmitted_sack_walk].
  unfold transmitted_sack_frame. destruct st as [[[sk ab] an] ts].
  destruct (negb (level =? frame_level frame)); [apply IH|].
  destruct (largest <? frame_number frame); [apply IH|].
  destruct (frame_number frame <? smallest); [reflexivity|discriminate].
Qed.

(** X11: an ack that covers no frame of [transmitted_list] (the list is
    empty, holds other levels only, or the walk from the tail meets a
    number below [smallest] before any number in range) makes
    [quic_outq_transmitted_sack] return 0 with [rtx_count] reset and
    nothing else done: no congestion update, no frame freed, no stream or
    packet-number map read, so no condition on them. *)
Theorem transmitted_sack_nothing_acked
    sk level largest smallest ack_largest ack_delay sk0 :
  transmitted_sack_pl sk largest smallest = Some sk0 ->
  sack_processed level largest smallest (rev (transmitted_list (sk_outq sk0)))
    = [] ->
  quic_outq_transmitted_sack sk level largest smallest ack_largest ack_delay
  = Some (0, with_outq sk0 (fun q => outq_set_rtx_count q 0)).
Proof.
  intros Hpl Hnone. unfold quic_outq_transmitted_sack.
  rewrite Hpl. cbn [mbind option_bind].
  rewrite sack_walk_nothing by exact Hnone. reflexivity.
Qed.

(** Loss processor: where the frames go. *)

Lemma retransmit_one_add_perm frame l :
  retransmit_one_add frame l ≡ₚ frame :: l.
Proof.
  induction l as [|pos rest IH]; simpl; [reflexivity|].
  repeat case_match; try reflexivity.
  all: rewrite IH; apply Permutation_swap.
Qed.

Lemma stream_update_outq sk p f sk' :
  stream_update sk p f = Some sk' -> sk_outq sk' = sk_outq sk.
Proof.
  unfold stream_update. intros H.
  destruct p as [a|]; [|discriminate]. simpl in H.
  destruct (sk_streams sk !! a); [|discriminate].
  now injection H as <-.
Qed.

Lemma retransmit_one_pending sk frame sk' :
  quic_outq_retransmit_one sk frame = Some sk' ->
  transmitted_list (sk_outq sk') = transmitted_list (sk_outq sk) /\
  datagram_list (sk_outq sk') = datagram_list (sk_outq sk) /\
  control_list (sk_outq sk') ++ stream_list (sk_outq sk')
    ≡ₚ frame :: control_list (sk_outq sk) ++ stream_list (sk_outq sk).
Proof.
  unfold quic_outq_retransmit_one.
  destruct (negb (frame_bytes frame =? 0)).
  - destruct (stream_update sk _ _) as [sk1|] eqn:E1; [|discriminate].
    cbn [mbind option_bind].
    destruct (stream_update sk1 _ _) as [sk2|] eqn:E2; [|discriminate].
    cbn [mbind option_bind]. intros [= <-].
    apply stream_update_outq in E1, E2. simpl. rewrite E2, E1.
    split; [reflexivity|]. split; [reflexivity|].
    rewrite retransmit_one_add_perm. symmetry. apply Permutation_middle.
  - intros [= <-]. simpl. split; [reflexivity|]. split; [reflexivity|].
    now rewrite retransmit_one_add_perm.
Qed.

Lemma update_loss_timer_outq sk level now sk' :
  quic_outq_update_loss_timer sk level now = Some sk' ->
  sk_outq sk' = sk_outq sk.
Proof.
  unfold quic_outq_update_loss_timer.
  destruct (quic_pnmap sk level); [|discriminate].
  cbn [mbind option_bind].
  destruct (negb _); [|destruct (_ =? 0)]; now intros [= <-].
Qed.

Lemma pnmap_update_outq sk level f sk' :
  pnmap_update sk level f = Some sk' -> sk_outq sk' = sk_outq sk.
Proof.
  unfold pnmap_update. destruct (sk_pnmap sk !! level); [|discriminate].
  now intros [= <-].
Qed.

Lemma u32_succ_add a n : u32 (u32 (a + 1) + n) = u32 (a + (1 + n)).
Proof.
  unfold u32, wrap. rewrite Zplus_mod_idemp_l. f_equal. lia.
Qed.

Lemma s32_u32 x : s32 (u32 x) = s32 x.
Proof.
  unfold s32, u32, wrap. now rewrite Zplus_mod_idemp_l.
Qed.

Lemma retransmit_mark_walk_immediate level immediate now last todo :
  immediate <> 0 ->
  forall kept sk count bytes sk' count' bytes',
    transmitted_list (sk_outq sk) = rev kept ++ todo ->
    retransmit_mark_walk level immediate now last kept todo
      (sk, count, bytes) = Some (sk', count', bytes') ->
    let lost f :=
      (level =? frame_level f)
      && negb (quic_frame_is_dgram (frame_type f)) in
    transmitted_list (sk_outq sk')
      = rev kept ++ List.filter (fun f => negb (level =? frame_level f)) todo /\
    datagram_list (sk_outq sk') = datagram_list (sk_outq sk) /\
    control_list (sk_outq sk') ++ stream_list (sk_outq sk')
      ≡ₚ List.filter lost todo
         ++ control_list (sk_outq sk) ++ stream_list (sk_outq sk) /\
    u32 count' = u32 (count + Z.of_nat (length (List.filter lost todo))).
Proof.
  intros Himm. cbv zeta.
  induction todo as [|frame todo IH];
    intros kept sk count bytes sk' count' bytes' Ht.
  - intros [= <- <- <-]. simpl. rewrite Z.add_0_r.
    split; [exact Ht|]. split; [reflexivity|split; reflexivity].
  - cbn [retransmit_mark_walk List.filter].
    destruct (level =? frame_level frame) eqn:F; simpl negb; cbv iota.
    2:{ intros Hw. apply IH in Hw; [|simpl; now rewrite <- app_assoc].
        simpl in Hw. now rewrite <- app_assoc in Hw. }
    destruct (quic_pnmap sk level) as [m|] eqn:Hm; [|discriminate].
    cbn [mbind option_bind].
    replace (immediate =? 0) with false
      by (symmetry; now apply Z.eqb_neq).
    simpl andb. cbv iota.
    rewrite (pnmap_update_Some sk level _ m Hm). cbn [mbind option_bind].
    match goal with
    | |- context [quic_frame_free ?s frame] => set (sk4 := s)
    end.
    assert (H4 : transmitted_list (sk_outq sk4) = rev kept ++ todo /\
                 datagram_list (sk_outq sk4) = datagram_list (sk_outq sk) /\
                 control_list (sk_outq sk4) = control_list (sk_outq sk) /\
                 stream_list (sk_outq sk4) = stream_list (sk_outq sk))
      by (subst sk4; repeat split).
    destruct H4 as (T4 & D4 & C4 & L4). clearbody sk4.
    destruct (quic_frame_is_dgram (frame_type frame)) eqn:Hd; simpl negb;
      cbv iota.
    + cbn [mbind option_bind]. cbv iota beta.
      set (sk6 := if negb (frame_bytes frame =? 0) then _ else _).
      assert (H6 : sk_outq sk6 = sk_outq sk4 \/
                   exists w, sk_outq sk6 = quic_outq_set_window (sk_outq sk4) w).
      { subst sk6. destruct (negb _); [right; eexists; reflexivity|now left]. }
      clearbody sk6. intros Hw.
      apply IH in Hw;
        [|destruct H6 as [->|[w ->]]; exact T4].
      destruct Hw as (T & D & P & N).
      split; [exact T|].
      split; [destruct H6 as [E|[w E]]; rewrite E in D; simpl in D; congruence|].
      split; [|exact N].
      destruct H6 as [E|[w E]]; rewrite E in P; simpl in P;
        now rewrite C4, L4 in P.
    + destruct (quic_outq_retransmit_one sk4 frame) as [sk5|] eqn:E5;
        [|discriminate].
      cbn [mbind option_bind]. cbv iota beta.
      apply retransmit_one_pending in E5 as (T5 & D5 & P5).
      set (sk6 := if negb (frame_bytes frame =? 0) then _ else _).
      assert (H6 : sk_outq sk6 = sk_outq sk5 \/
                   exists w, sk_outq sk6 = quic_outq_set_window (sk_outq sk5) w).
      { subst sk6. destruct (negb _); [right; eexists; reflexivity|now left]. }
      clearbody sk6. intros Hw.
      apply IH in Hw;
        [|destruct H6 as [->|[w ->]]; simpl; congruence].
      destruct Hw as (T & D & P & N).
      split; [exact T|].
      split; [destruct H6 as [E|[w E]]; rewrite E in D; simpl in D; congruence|].
      split.
      * assert (P6 : control_list (sk_outq sk6) ++ stream_list (sk_outq sk6)
                     = control_list (sk_outq sk5) ++ stream_list (sk_outq sk5))
          by (destruct H6 as [->|[w ->]]; reflexivity).
        rewrite P, P6, P5, C4, L4. simpl. symmetry. apply Permutation_middle.
      * rewrite N. simpl length. rewrite Nat2Z.inj_succ, u32_succ_add.
        f_equal. lia.
Qed.

(** X12: [quic_outq_retransmit_mark] with [immediate] set drains the
    level.  On a socket whose transmitted frames can be put back it
    returns, no frame of [level] is left in [transmitted_list], the
    frames of the other levels stay in their order, the pending lists
    [control_list] and [stream_list] gain the lost frames that are not
    datagrams, each once, and nothing else, [datagram_list] is as it
    was, and the count returned is the number of those frames as an
    [int]. *)
Theorem retransmit_mark_immediate_drains_level
    sk level immediate now now_timer :
  immediate <> 0 ->
  is_Some (quic_pnmap sk level) ->
  Forall (retransmit_ok sk) (transmitted_list (sk_outq sk)) ->
  let lost f :=
    (level =? frame_level f) && negb (quic_frame_is_dgram (frame_type f)) in
  exists count sk',
    quic_outq_retransmit_mark sk level immediate now now_timer
      = Some (count, sk') /\
    transmitted_list (sk_outq sk')
      = List.filter (fun f => negb (level =? frame_level f))
          (transmitted_list (sk_outq sk)) /\
    control_list (sk_outq sk') ++ stream_list (sk_outq sk')
      ≡ₚ List.filter lost (transmitted_list (sk_outq sk))
         ++ control_list (sk_outq sk) ++ stream_list (sk_outq sk) /\
    datagram_list (sk_outq sk') = datagram_list (sk_outq sk) /\
    count
      = s32 (Z.of_nat
               (length (List.filter lost (transmitted_list (sk_outq sk))))).
Proof.
  intros Himm Hpn Hok. cbv zeta.
  destruct (retransmit_mark_runs sk level immediate now now_timer Hpn Hok)
    as (count & sk' & Hrun & _).
  exists count, sk'. split; [exact Hrun|].
  unfold quic_outq_retransmit_mark in Hrun.
  destruct (pnmap_update sk level _) as [sk1|] eqn:E1; [|discriminate].
  cbn [mbind option_bind] in Hrun.
  destruct (quic_pnmap sk1 level) as [m1|]; [|discriminate].
  cbn [mbind option_bind] in Hrun.
  destruct (retransmit_mark_walk _ _ _ _ _ _ _)
    as [[[sk2 count2] bytes2]|] eqn:E2; [|discriminate].
  cbn [mbind option_bind] in Hrun.
  destruct (quic_outq_update_loss_timer _ _ _) as [sk4|] eqn:E4;
    [|discriminate].
  cbn [mbind option_bind] in Hrun. injection Hrun as <- <-.
  apply update_loss_timer_outq in E4.
  destruct (wfree_fields (s32 bytes2) sk2) as (W & _ & _).
  rewrite W in E4.
  apply pnmap_update_outq in E1.
  apply retransmit_mark_walk_immediate in E2 as (T & D & P & N);
    [|exact Himm|reflexivity].
  rewrite E4, <- E1. simpl in T.
  split; [exact T|]. split; [exact P|]. split; [exact D|].
  rewrite <- s32_u32, N, Z.add_0_l. apply s32_u32.
Qed.

(** Flow-control gate: advertisements. *)

Lemma flow_control_stream_quiet sk a len b s :
  sk_streams sk !! a = Some s ->
  stream_advertises s len = false ->
  flow_control_stream sk (Some a) len b
  = Some (sk, None,
          if send_max_bytes s
             <? wrap (with_u32 (send_bytes_bits B)) (send_bytes s + len)
          then 1 else b).
Proof.
  intros Hs. unfold stream_advertises, flow_control_stream, stream_at.
  simpl. rewrite Hs. simpl.
  destruct (send_max_bytes s <? _); [|reflexivity].
  simpl. now intros ->.
Qed.

Lemma flow_control_conn_quiet sk len nframe b :
  conn_advertises sk len = false ->
  flow_control_conn sk len nframe b
  = (sk, nframe,
     if outq_max_bytes (sk_outq sk)
        <? wrap (with_u32 (bytes_bits B)) (outq_bytes (sk_outq sk) + len)
     then 1 else b).
Proof.
  unfold conn_advertises, flow_control_conn. cbv zeta.
  destruct (outq_max_bytes (sk_outq sk) <? _); [|reflexivity].
  simpl. now intros ->.
Qed.

(** What the stream block leaves: the stream no longer advertises, its
    gate reads the same, and of the outqueue only [control_list] may
    differ. *)
Lemma flow_control_stream_settles sk a len b s sk1 nframe b1 :
  sk_streams sk !! a = Some s ->
  flow_control_stream sk (Some a) len b = Some (sk1, nframe, b1) ->
  exists s1 l,
    sk_streams sk1 !! a = Some s1 /\
    stream_advertises s1 len = false /\
    send_max_bytes s1 = send_max_bytes s /\
    send_bytes s1 = send_bytes s /\
    b1 = (if send_max_bytes s
             <? wrap (with_u32 (send_bytes_bits B)) (send_bytes s + len)
          then 1 else b) /\
    sk_outq sk1 = outq_set_control_list (sk_outq sk) l.
Proof.
  intros Hs. unfold flow_control_stream, stream_at, stream_advertises.
  simpl. rewrite Hs. simpl.
  assert (Hid : sk_outq sk
                = outq_set_control_list (sk_outq sk) (control_list (sk_outq sk)))
    by now destruct (sk_outq sk).
  destruct (send_max_bytes s <? _) eqn:G.
  2:{ intros [= <- <- <-]. exists s, (control_list (sk_outq sk)).
      rewrite G. auto 10. }
  destruct ((send_data_blocked s =? 0)
            && (send_last_max_bytes s <? send_max_bytes s)) eqn:A.
  2:{ intros [= <- <- <-]. exists s, (control_list (sk_outq sk)).
      rewrite G. simpl. rewrite A. auto 10. }
  set (nf := quic_frame_create sk QUIC_FRAME_STREAM_DATA_BLOCKED _).
  set (sk0 := match nf with
              | Some f => quic_outq_ctrl_tail sk f true
              | None => sk
              end).
  assert (H0 : sk_streams sk0 = sk_streams sk /\
               exists l, sk_outq sk0 = outq_set_control_list (sk_outq sk) l).
  { subst sk0. destruct nf as [f|]; [|eauto].
    destruct (ctrl_tail_corked sk f) as (l & -> & _). simpl. eauto. }
  destruct H0 as (S0 & l & Q0). clearbody sk0.
  unfold stream_update. simpl. rewrite S0, Hs. simpl.
  intros [= <- <- <-]. eexists _, l. simpl.
  rewrite lookup_insert_eq. split; [reflexivity|]. simpl.
  rewrite Z.ltb_irrefl, G, !andb_false_r. auto 10.
Qed.

Lemma flow_control_conn_settles sk len nframe b :
  let r := flow_control_conn sk len nframe b in
  conn_advertises r.1.1 len = false /\
  sk_streams r.1.1 = sk_streams sk /\
  outq_max_bytes (sk_outq r.1.1) = outq_max_bytes (sk_outq sk) /\
  outq_bytes (sk_outq r.1.1) = outq_bytes (sk_outq sk) /\
  outq_window (sk_outq r.1.1) = outq_window (sk_outq sk) /\
  outq_data_inflight (sk_outq r.1.1) = outq_data_inflight (sk_outq sk) /\
  r.2 = (if outq_max_bytes (sk_outq sk)
            <? wrap (with_u32 (bytes_bits B)) (outq_bytes (sk_outq sk) + len)
         then 1 else b).
Proof.
  cbv zeta. unfold flow_control_conn, conn_advertises. cbv zeta.
  destruct (outq_max_bytes (sk_outq sk) <? _) eqn:G.
  2:{ simpl. rewrite G. auto 10. }
  destruct ((outq_data_blocked (sk_outq sk) =? 0)
            && (outq_last_max_bytes (sk_outq sk) <? outq_max_bytes (sk_outq sk)))
    eqn:A.
  2:{ simpl. rewrite G. simpl. rewrite A. auto 10. }
  set (nf := quic_frame_create sk QUIC_FRAME_DATA_BLOCKED _).
  set (sk0 := match nf with
              | Some f => quic_outq_ctrl_tail sk f true
              | None => sk
              end).
  assert (H0 : sk_streams sk0 = sk_streams sk /\
               exists l, sk_outq sk0 = outq_set_control_list (sk_outq sk) l).
  { subst sk0. destruct nf as [f|].
    - destruct (ctrl_tail_corked sk f) as (l & -> & _). simpl. eauto.
    - split; [reflexivity|]. exists (control_list (sk_outq sk)).
      now destruct (sk_outq sk). }
  destruct H0 as (S0 & l & Q0). clearbody sk0.
  simpl. rewrite Q0. simpl.
  rewrite Z.ltb_irrefl, G, !andb_false_r. auto 10.
Qed.

(** X13: [quic_outq_flow_control] changes the socket only by
    advertising.  When neither block builds a frame (the gate of the
    stream, or of the connection, is clear, or its blockage has been
    advertised already: [data_blocked] set or [last_max_bytes] not below
    [max_bytes]) the call returns its verdict and the socket exactly as
    it was: nothing is enqueued, no flag is written, and
    [quic_outq_transmit_ctrl] is not called. *)
Theorem flow_control_no_advert_no_change sk frame s :
  stream_at sk (frame_stream frame) = Some s ->
  stream_advertises s (u32 (frame_bytes frame)) = false ->
  conn_advertises sk (u32 (frame_bytes frame)) = false ->
  exists blocked,
    quic_outq_flow_control sk frame = Some (blocked, sk) /\
    (blocked = 0 <->
       ~ cong_gate sk frame /\ ~ stream_gate s frame /\ ~ conn_gate sk frame).
Proof.
  intros Hs Hq Hc. unfold quic_outq_flow_control. cbv zeta.
  destruct (frame_stream frame) as [a|]; [|discriminate]. simpl in Hs.
  rewrite (flow_control_stream_quiet sk a _ _ s Hs Hq).
  cbn [mbind option_bind]. cbv iota beta.
  rewrite (flow_control_conn_quiet sk _ _ _ Hc).
  eexists. split; [reflexivity|].
  unfold flow_control_cong, cong_gate, stream_gate, conn_gate.
  destruct (Z.ltb_spec (outq_max_bytes (sk_outq sk))
              (wrap (with_u32 (bytes_bits B))
                 (outq_bytes (sk_outq sk) + u32 (frame_bytes frame))));
  destruct (Z.ltb_spec (send_max_bytes s)
              (wrap (with_u32 (send_bytes_bits B))
                 (send_bytes s + u32 (frame_bytes frame))));
  destruct (Z.ltb_spec (outq_window (sk_outq sk))
              (wrap (with_u32 (data_inflight_bits B))
                 (outq_data_inflight (sk_outq sk) + u32 (frame_bytes frame)))).
  all: split; [intros E; try discriminate E|intros (? & ? & ?)]; try lia.
Qed.

(** X14: [quic_outq_flow_control] advertises a blockage once.  Let
    [sk2] be the socket at the end of the two blocks of the gate, before
    the control frames are flushed.  The gate run again on [sk2] for the
    same frame returns the same verdict and leaves [sk2] as it is: with
    [data_blocked] set and [last_max_bytes] raised to [max_bytes] by the
    first pass, neither block builds a second frame. *)
Theorem flow_control_advertises_once sk frame s :
  stream_at sk (frame_stream frame) = Some s ->
  exists sk2 nframe blocked,
    flow_control_blocks sk frame = Some (sk2, nframe, blocked) /\
    quic_outq_flow_control sk frame
      = Some (flow_control_ret (sk2, nframe, blocked)) /\
    quic_outq_flow_control sk2 frame = Some (blocked, sk2).
Proof.
  intros Hs. unfold flow_control_blocks, quic_outq_flow_control. cbv zeta.
  destruct (flow_control_stream_spec sk frame
              (flow_control_cong sk (u32 (frame_bytes frame))) s Hs)
    as (sk1 & nf1 & b1 & E1 & _).
  rewrite E1. cbn [mbind option_bind]. cbv iota beta.
  destruct (frame_stream frame) as [a|]; [|discriminate]. simpl in Hs.
  destruct (flow_control_stream_settles _ _ _ _ _ _ _ _ Hs E1)
    as (s1 & l & Hs1 & Q1 & M1 & B1 & -> & O1).
  pose proof (flow_control_conn_settles sk1 (u32 (frame_bytes frame)) nf1
                (if send_max_bytes s
                    <? wrap (with_u32 (send_bytes_bits B))
                         (send_bytes s + u32 (frame_bytes frame))
                 then 1 else flow_control_cong sk (u32 (frame_bytes frame))))
    as H2.
  cbv zeta in H2.
  destruct (flow_control_conn sk1 _ _ _) as [[sk2 nf2] b2].
  cbn [fst snd] in H2. destruct H2 as (Q2 & S2 & M2 & B2 & W2 & D2 & ->).
  exists sk2, nf2. eexists. split; [reflexivity|]. split; [reflexivity|].
  rewrite <- S2 in Hs1.
  rewrite (flow_control_stream_quiet sk2 a _ _ s1 Hs1 Q1).
  cbn [mbind option_bind]. cbv iota beta.
  rewrite (flow_control_conn_quiet sk2 _ _ _ Q2). unfold flow_control_ret.
  f_equal. f_equal.
  unfold flow_control_cong. rewrite M2, B2, W2, D2, M1, B1, O1. reflexivity.
Qed.

Lemma retransmit_list_walk_moves head todo :
  forall sk bytes sk' bytes',
    (head = ref_transmitted -> transmitted_list (sk_outq sk) = todo) ->
    retransmit_list_walk head todo (sk, bytes) = Some (sk', bytes') ->
    transmitted_list (sk_outq sk')
      = match head with
        | ref_transmitted => []
        | ref_external _ => transmitted_list (sk_outq sk)
        end /\
    datagram_list (sk_outq sk') = datagram_list (sk_outq sk) /\
    control_list (sk_outq sk') ++ stream_list (sk_outq sk')
      ≡ₚ List.filter (fun f => negb (quic_frame_is_dgram (frame_type f))) todo
         ++ control_list (sk_outq sk) ++ stream_list (sk_outq sk).
Proof.
  induction todo as [|frame todo IH]; intros sk bytes sk' bytes' Ht.
  - intros [= <- <-]. simpl. split; [|split; reflexivity].
    destruct head; [now apply Ht|reflexivity].
  - cbn [retransmit_list_walk List.filter].
    set (sk2 := with_outq (list_ref_store head todo sk) _).
    assert (H2 : (head = ref_transmitted ->
                  transmitted_list (sk_outq sk2) = todo) /\
                 (forall l, head = ref_external l ->
                  transmitted_list (sk_outq sk2)
                  = transmitted_list (sk_outq sk)) /\
                 datagram_list (sk_outq sk2) = datagram_list (sk_outq sk) /\
                 control_list (sk_outq sk2) = control_list (sk_outq sk) /\
                 stream_list (sk_outq sk2) = stream_list (sk_outq sk))
      by (subst sk2; destruct head; repeat split; discriminate).
    destruct H2 as (T2 & X2 & D2 & C2 & L2). clearbody sk2.
    destruct (quic_frame_is_dgram (frame_type frame)); simpl negb; cbv iota.
    + intros Hw. apply IH in Hw as (T & D & P); [|exact T2].
      simpl in T, D, P. rewrite C2, L2 in P.
      split; [|split; [congruence|exact P]].
      destruct head as [|l]; [exact T|]. rewrite T. now apply (X2 l).
    + destruct (quic_outq_retransmit_one sk2 frame) as [sk3|] eqn:E3;
        [|discriminate].
      cbn [mbind option_bind].
      apply retransmit_one_pending in E3 as (T3 & D3 & P3).
      intros Hw. apply IH in Hw as (T & D & P); [|intros Hh; rewrite T3; auto].
      split; [|split; [congruence|]].
      * destruct head as [|l]; [exact T|]. rewrite T, T3. now apply (X2 l).
      * rewrite P, P3, C2, L2. simpl. symmetry. apply Permutation_middle.
Qed.

(** X15: [quic_outq_retransmit_list] moves frames, it neither copies nor
    loses them.  On a list whose frames can be put back it returns; the
    pending lists [control_list] and [stream_list] then hold what they
    held and the frames of the list that are not datagrams, each once;
    [datagram_list] is as it was; and [transmitted_list] is empty when
    it was the list handed in and untouched when the list was another
    one. *)
Theorem retransmit_list_moves_frames sk head :
  Forall (retransmit_ok sk) (list_ref_frames sk head) ->
  exists sk',
    quic_outq_retransmit_list sk head = Some sk' /\
    control_list (sk_outq sk') ++ stream_list (sk_outq sk')
      ≡ₚ List.filter (fun f => negb (quic_frame_is_dgram (frame_type f)))
           (list_ref_frames sk head)
         ++ control_list (sk_outq sk) ++ stream_list (sk_outq sk) /\
    datagram_list (sk_outq sk') = datagram_list (sk_outq sk) /\
    transmitted_list (sk_outq sk')
      = match head with
        | ref_transmitted => []
        | ref_external _ => transmitted_list (sk_outq sk)
        end.
Proof.
  intros Hok. unfold quic_outq_retransmit_list.
  destruct (retransmit_list_walk_runs head (list_ref_frames sk head) sk 0 Hok)
    as (sk1 & bytes & Hw & _).
  rewrite Hw. cbn [mbind option_bind].
  eexists. split; [reflexivity|].
  destruct (wfree_fields bytes sk1) as (-> & _ & _).
  apply retransmit_list_walk_moves in Hw as (T & D & P);
    [auto|now intros ->].
Qed.

(** Teardown. *)

Lemma wfree_frees_nothing len sk :
  List.filter is_frame_free (sk_log (quic_outq_wfree len sk))
  = List.filter is_frame_free (sk_log sk).
Proof.
  unfold quic_outq_wfree. destruct (len =? 0); [reflexivity|].
  destruct (0 <? _); reflexivity.
Qed.

Lemma filter_frame_free_map frames :
  List.filter is_frame_free (rev (List.map call_frame_free frames))
  = rev (List.map call_frame_free frames).
Proof.
  apply forallb_filter_id, forallb_forall. intros c Hc.
  apply in_rev, List.in_map_iff in Hc as (f & <- & _). reflexivity.
Qed.

Lemma list_purge_queue sk which :
  let sk' := quic_outq_list_purge sk (purge_outq which) in
  sk_outq sk' = outq_set_list (sk_outq sk) which [] /\
  sk_streams sk' = sk_streams sk /\ sk_pnmap sk' = sk_pnmap sk /\
  sk_state sk' = sk_state sk /\
  List.filter is_frame_free (sk_log sk')
  = rev (List.map call_frame_free (outq_get_list (sk_outq sk) which))
    ++ List.filter is_frame_free (sk_log sk).
Proof.
  cbv zeta. unfold quic_outq_list_purge. rewrite list_purge_walk_eq.
  cbn [fst snd purge_frames].
  rewrite wfree_frees_nothing.
  match goal with
  | |- context [quic_outq_wfree ?len ?s] =>
      destruct (wfree_fields len s) as (-> & -> & ->);
      assert (Hst : sk_state (quic_outq_wfree len s) = sk_state s)
        by (unfold quic_outq_wfree; destruct (len =? 0); [reflexivity|];
            destruct (0 <? _); reflexivity);
      rewrite Hst; clear Hst
  end.
  match goal with
  | |- context [free_all ?l ?s] =>
      destruct (free_all_fields l s) as (-> & -> & -> & -> & ->)
  end.
  rewrite List.filter_app, filter_frame_free_map.
  destruct (outq_get_list (sk_outq sk) which) eqn:L.
  - repeat split. destruct (sk_outq sk), which; simpl in *; now subst.
  - destruct which; repeat split.
Qed.

(** X16: [quic_outq_free] leaves the four queues empty and frees every
    frame they held once, those of [transmitted_list] first, then
    [datagram_list], [control_list] and [stream_list], each list first
    to last; the close phrase is released after them.  The streams, the
    packet-number maps, the socket state and every other field of the
    outqueue, the in-flight counters among them, are as before. *)
Theorem outq_free_empties_queues sk calls :
  let r := quic_outq_free sk calls in
  let q := sk_outq sk in
  sk_outq r.1
    = outq_set_stream_list
        (outq_set_control_list
           (outq_set_datagram_list (outq_set_transmitted_list q []) []) [])
        [] /\
  List.filter is_frame_free (sk_log r.1)
    = rev (List.map call_frame_free
             (transmitted_list q ++ datagram_list q ++ control_list q
              ++ stream_list q))
      ++ List.filter is_frame_free (sk_log sk) /\
  sk_streams r.1 = sk_streams sk /\ sk_pnmap r.1 = sk_pnmap sk /\
  sk_state r.1 = sk_state sk /\
  r.2 = mcall_kfree_close_phrase :: calls.
Proof.
  cbv zeta. unfold quic_outq_free. cbn [fst snd].
  pose proof (list_purge_queue sk list_transmitted) as H1. cbv zeta in H1.
  set (sk1 := quic_outq_list_purge sk _) in *.
  destruct H1 as (Q1 & S1 & P1 & T1 & L1).
  pose proof (list_purge_queue sk1 list_datagram) as H2. cbv zeta in H2.
  set (sk2 := quic_outq_list_purge sk1 _) in *.
  destruct H2 as (Q2 & S2 & P2 & T2 & L2).
  pose proof (list_purge_queue sk2 list_control) as H3. cbv zeta in H3.
  set (sk3 := quic_outq_list_purge sk2 _) in *.
  destruct H3 as (Q3 & S3 & P3 & T3 & L3).
  pose proof (list_purge_queue sk3 list_stream) as H4. cbv zeta in H4.
  set (sk4 := quic_outq_list_purge sk3 _) in *.
  destruct H4 as (Q4 & S4 & P4 & T4 & L4).
  clearbody sk1 sk2 sk3 sk4.
  rewrite Q4, L4, S4, P4, T4, Q3, L3, S3, P3, T3, Q2, L2, S2, P2, T2,
    Q1, L1, S1, P1, T1.
  simpl. rewrite !List.map_app, !rev_app_distr, <- !app_assoc.
  repeat split.
Qed.

(** Flow-control gate: what an advertisement writes. *)

Lemma flow_control_conn_lists sk len nframe b :
  let r := flow_control_conn sk len nframe b in
  transmitted_list (sk_outq r.1.1) = transmitted_list (sk_outq sk) /\
  sublist (control_list (sk_outq sk)) (control_list (sk_outq r.1.1)).
Proof.
  cbv zeta. unfold flow_control_conn. cbv zeta.
  destruct (outq_max_bytes (sk_outq sk) <? _); [|now split].
  destruct (_ && _); [|now split].
  destruct (quic_frame_create sk QUIC_FRAME_DATA_BLOCKED data_outq)
    as [nf|]; [|now split].
  destruct (ctrl_tail_linked sk nf true)
    as (queued & before & after & -> & C1 & C2 & Q & _).
  simpl. rewrite C1, C2. split.
  - now apply (f_equal transmitted_list) in Q.
  - apply sublist_app; [reflexivity|]. now apply sublist_cons.
Qed.

(** C3: [quic_outq_flow_control] on a frame whose stream pointer is
    valid returns, and it returns blocked exactly when one of the three
    conditions holds ([data_inflight + bytes > window],
    [send.bytes + bytes > send.max_bytes],
    [outq.bytes + bytes > outq.max_bytes], in the arithmetic of the
    code).  [sk2] is the socket at the end of the gate, which is
    returned, or handed to the control flush when the gate holds a
    frame.  On [sk2] nothing has moved to [transmitted_list] and
    [control_list] has lost no frame.  When the stream gate trips with
    [data_blocked] clear and [last_max_bytes < max_bytes], the stream
    reads [data_blocked = 1] and [last_max_bytes = max_bytes] on [sk2],
    its other fields as before, whether or not the STREAM_DATA_BLOCKED
    frame could be allocated; when it could, the frame is in
    [control_list].  In every other case the stream is as it was. *)
Theorem flow_control_gate sk frame s :
  stream_at sk (frame_stream frame) = Some s ->
  exists blocked sk2 (nframe : option quic_frame),
    quic_outq_flow_control sk frame
      = Some (blocked, match nframe with
                       | Some _ => quic_outq_transmit_ctrl sk2
                       | None => sk2
                       end) /\
    (blocked = 1 \/ blocked = 0) /\
    (blocked = 1 <->
       cong_gate sk frame \/ stream_gate s frame \/ conn_gate sk frame) /\
    transmitted_list (sk_outq sk2) = transmitted_list (sk_outq sk) /\
    sublist (control_list (sk_outq sk)) (control_list (sk_outq sk2)) /\
    (stream_gate s frame -> send_data_blocked s = 0 ->
     send_last_max_bytes s < send_max_bytes s ->
     exists s1,
       stream_at sk2 (frame_stream frame) = Some s1 /\
       send_data_blocked s1 = 1 /\
       send_last_max_bytes s1 = send_max_bytes s /\
       stream_id s1 = stream_id s /\ send_state s1 = send_state s /\
       send_bytes s1 = send_bytes s /\
       send_max_bytes s1 = send_max_bytes s /\
       send_frags s1 = send_frags s /\ send_errcode s1 = send_errcode s /\
       forall nf,
         quic_frame_create sk QUIC_FRAME_STREAM_DATA_BLOCKED
           (from_option data_stream data_null (frame_stream frame)) = Some nf ->
         In nf (control_list (sk_outq sk2))) /\
    (~ (stream_gate s frame /\ send_data_blocked s = 0 /\
        send_last_max_bytes s < send_max_bytes s) ->
     stream_at sk2 (frame_stream frame) = Some s).
Proof.
  intros Hs.
  destruct (flow_control_verdict sk frame s Hs)
    as (blocked & sk' & Hrun & Hbit & Hiff).
  destruct (flow_control_stream_spec sk frame
              (flow_control_cong sk (u32 (frame_bytes frame))) s Hs)
    as (sk1 & nf1 & b1 & E1 & _ & _ & _ & Hflags).
  pose proof (flow_control_conn_settles sk1 (u32 (frame_bytes frame)) nf1 b1)
    as H2.
  pose proof (flow_control_conn_lists sk1 (u32 (frame_bytes frame)) nf1 b1)
    as L2.
  cbv zeta in H2, L2.
  unfold quic_outq_flow_control in Hrun. cbv zeta in Hrun.
  rewrite E1 in Hrun. cbn [mbind option_bind] in Hrun. cbv iota beta in Hrun.
  destruct (flow_control_conn sk1 (u32 (frame_bytes frame)) nf1 b1)
    as [[sk2 nf2] b2] eqn:E2.
  cbn [fst snd] in H2, L2. destruct H2 as (_ & S2 & _).
  destruct L2 as (T2 & C2).
  unfold flow_control_ret in Hrun. injection Hrun as <- <-.
  assert (Hst : stream_at sk2 (frame_stream frame)
                = stream_at sk1 (frame_stream frame))
    by (unfold stream_at; now rewrite S2).
  assert (Hadv : stream_gate s frame /\ send_data_blocked s = 0 /\
                 send_last_max_bytes s < send_max_bytes s \/
                 stream_advertises s (u32 (frame_bytes frame)) = false).
  { unfold stream_advertises, stream_gate.
    destruct (Z.ltb_spec (send_max_bytes s)
                (wrap (with_u32 (send_bytes_bits B))
                   (send_bytes s + u32 (frame_bytes frame)))); [|now right].
    destruct (Z.eqb_spec (send_data_blocked s) 0); [|now right].
    destruct (Z.ltb_spec (send_last_max_bytes s) (send_max_bytes s));
      [now left|now right]. }
  assert (Hsk1 : transmitted_list (sk_outq sk1)
                 = transmitted_list (sk_outq sk) /\
                 sublist (control_list (sk_outq sk))
                         (control_list (sk_outq sk1))).
  { destruct Hadv as [(G & D & M)|Hq].
    - destruct (Hflags G D M) as (-> & -> & _).
      destruct (quic_frame_create sk _ _) as [nf|]; [|now split].
      destruct (ctrl_tail_linked sk nf true)
        as (queued & before & after & -> & C1 & C3 & Q & _).
      rewrite C1, C3. split.
      + now apply (f_equal transmitted_list) in Q.
      + apply sublist_app; [reflexivity|]. now apply sublist_cons.
    - destruct (frame_stream frame) as [a|]; [|discriminate]. simpl in Hs.
      rewrite (flow_control_stream_quiet sk a _ _ s Hs Hq) in E1.
      injection E1 as <- <- <-. now split. }
  destruct Hsk1 as (T1 & C1).
  exists b2, sk2, nf2. split.
  { unfold quic_outq_flow_control. cbv zeta. rewrite E1.
    cbn [mbind option_bind]. cbv iota beta. now rewrite E2. }
  split; [exact Hbit|]. split; [exact Hiff|].
  split; [congruence|]. split; [etransitivity; eassumption|].
  split.
  - intros G D M. destruct (Hflags G D M) as (Hn & Hq & Hs1).
    eexists. rewrite Hst. split; [exact Hs1|]. simpl.
    do 8 (split; [reflexivity|]).
    intros nf Hnf. apply list_elem_of_In.
    apply (sublist_subseteq _ _ C2), list_elem_of_In.
    rewrite Hq, Hn, Hnf.
    destruct (ctrl_tail_linked sk nf true)
      as (queued & before & after & -> & _ & -> & _).
    apply in_or_app. right. now left.
  - intros Hno. rewrite Hst.
    destruct Hadv as [?|Hq]; [contradiction|].
    destruct (frame_stream frame) as [a|]; [|discriminate]. simpl in Hs.
    rewrite (flow_control_stream_quiet sk a _ _ s Hs Hq) in E1.
    now injection E1 as <- <- <-.
Qed.

(** Ack processor: the congestion update. *)

Lemma cong_kept_refl sk : cong_kept sk sk.
Proof. now split. Qed.

Lemma cong_kept_trans sk1 sk2 sk3 :
  cong_kept sk1 sk2 -> cong_kept sk2 sk3 -> cong_kept sk1 sk3.
Proof. intros (A1 & A2) (B1 & B2). split; congruence. Qed.

Lemma stream_update_cong_kept sk p f sk' :
  stream_update sk p f = Some sk' -> cong_kept sk sk'.
Proof.
  unfold stream_update. intros H.
  destruct p as [a|]; [|discriminate]. simpl in H.
  destruct (sk_streams sk !! a); [|discriminate].
  injection H as <-. now split.
Qed.

Lemma pnmap_update_cong_kept sk level f sk' :
  pnmap_update sk level f = Some sk' -> cong_kept sk sk'.
Proof.
  unfold pnmap_update. destruct (sk_pnmap sk !! level); [|discriminate].
  intros [= <-]. now split.
Qed.

Lemma sack_state_cong_kept sk frame u sk' :
  transmitted_sack_state sk frame = Some (u, sk') -> cong_kept sk sk'.
Proof.
  unfold transmitted_sack_state, quic_inq_event_recv. intros H.
  repeat match type of H with
  | Some _ = Some _ => injection H as <- <-
  | None = Some _ => discriminate H
  | context [mbind _ ?x] =>
      let E := fresh "E" in
      destruct x eqn:E; cbn [mbind option_bind] in H
  | context [if ?c then _ else _] => destruct c
  | context [match ?x with _ => _ end] => destruct x
  end.
  all: repeat match goal with
  | E : stream_update _ _ _ = Some _ |- _ =>
      apply stream_update_cong_kept in E
  end.
  all: eauto using cong_kept_refl, cong_kept_trans.
  all: try (repeat split; fail).
  all: try (eapply cong_kept_trans; [|eassumption]; now split).
  all: try (eapply cong_kept_trans; [eassumption|];
            eapply cong_kept_trans; [|eassumption]; now split).
Qed.

(** One turn of the loop that goes on to the next frame: the bytes of
    the frame are counted exactly when it is unlinked, and the turn
    makes no congestion update. *)
Lemma sack_frame_acked level largest smallest ack_largest ack_delay
    rest frame sk acked_bytes acked_number transmit_ts u st' :
  transmitted_sack_frame level largest smallest ack_largest ack_delay
    rest frame (sk, acked_bytes, acked_number, transmit_ts)
  = Some (sack_next u st') ->
  cong_kept sk st'.1.1.1 /\
  st'.1.1.2 = (if u then u32 (acked_bytes + frame_bytes frame)
               else acked_bytes).
Proof.
  unfold transmitted_sack_frame.
  destruct (negb (level =? frame_level frame)).
  { intros [= <- <-]. split; [apply cong_kept_refl|reflexivity]. }
  destruct (largest <? frame_number frame).
  { intros [= <- <-]. split; [apply cong_kept_refl|reflexivity]. }
  destruct (frame_number frame <? smallest); [discriminate|].
  destruct (transmitted_sack_rtt sk level ack_largest ack_delay frame)
    as [sk1|] eqn:E1; [|discriminate].
  cbn [mbind option_bind].
  assert (K1 : cong_kept sk sk1).
  { unfold transmitted_sack_rtt in E1.
    destruct (frame_number frame =? ack_largest).
    2:{ injection E1 as <-. apply cong_kept_refl. }
    cbv zeta in E1.
    destruct (pnmap_update _ level _) as [sk0|] eqn:E0; [|discriminate].
    injection E1 as <-. apply pnmap_update_cong_kept in E0.
    eapply cong_kept_trans; [|instantiate (1 := sk0); now split].
    eapply cong_kept_trans; [|exact E0]. now split. }
  destruct (if acked_number =? 0 then _ else _) as [an1 ts1].
  set (sk2 := if negb (frame_ecn frame =? 0) then _ else sk1).
  assert (K2 : cong_kept sk1 sk2)
    by (subst sk2; destruct (negb _); now split).
  clearbody sk2.
  destruct (transmitted_sack_state sk2 frame) as [[u3 sk3]|] eqn:E3;
    [|discriminate].
  cbn [mbind option_bind fst snd]. cbv zeta.
  apply sack_state_cong_kept in E3.
  assert (K3 : cong_kept sk sk3)
    by (eapply cong_kept_trans; [exact K1|];
        eapply cong_kept_trans; eassumption).
  destruct u3.
  2:{ intros [= <- <-]. now split. }
  destruct (pnmap_update sk3 level _) as [sk4|] eqn:E4; [|discriminate].
  cbn [mbind option_bind].
  destruct (pnmap_update sk4 level _) as [sk5|] eqn:E5; [|discriminate].
  cbn [mbind option_bind].
  apply pnmap_update_cong_kept in E4, E5.
  intros [= <- <-]. cbn [fst snd]. split; [|reflexivity].
  eapply cong_kept_trans; [exact K3|].
  eapply cong_kept_trans; [exact E4|].
  eapply cong_kept_trans; [exact E5|]. now split.
Qed.

Lemma unlinked_step g sk sk1 sk' :
  unlinked g sk sk' = unlinked g sk sk1 + unlinked g sk1 sk'.
Proof. unfold unlinked. lia. Qed.

Lemma sack_walk_acked level largest smallest ack_largest ack_delay todo :
  forall kept sk acked_bytes acked_number transmit_ts st',
    transmitted_list (sk_outq sk) = rev todo ++ kept ->
    is_Some (quic_pnmap sk level) ->
    transmitted_sack_walk level largest smallest ack_largest ack_delay
      todo kept (sk, acked_bytes, acked_number, transmit_ts) = Some st' ->
    cong_kept sk st'.1.1.1 /\
    u32 st'.1.1.2
    = u32 (acked_bytes + unlinked frame_bytes sk st'.1.1.1).
Proof.
  induction todo as [|frame todo IH]; intros kept sk ab an ts st' Ht Hpn.
  - intros [= <-]. simpl. split; [apply cong_kept_refl|].
    unfold unlinked. f_equal. lia.
  - cbn [transmitted_sack_walk].
    simpl rev in *. rewrite <- app_assoc in *. simpl app in *.
    destruct (transmitted_sack_frame _ _ _ _ _ _ _ _)
      as [[|u [[[sk1 ab1] an1] ts1]]|] eqn:E; [|..|discriminate].
    { intros [= <-]. simpl. split; [apply cong_kept_refl|].
      unfold unlinked. f_equal. lia. }
    destruct (sack_frame_settled _ _ _ _ _ _ _ _ _ _ _ _ _ _ Ht Hpn E)
      as (S1 & T1 & _).
    destruct (sack_frame_acked _ _ _ _ _ _ _ _ _ _ _ _ _ E) as (K1 & A1).
    cbn [fst snd] in S1, T1, K1, A1.
    assert (Hpn1 : is_Some (quic_pnmap sk1 level))
      by (destruct S1 as (_ & _ & m & m' & _ & Hm' & _); eauto).
    destruct u; intros Hw.
    + destruct (IH _ _ _ _ _ _ T1 Hpn1 Hw) as (K2 & A2).
      split; [eapply cong_kept_trans; eassumption|].
      rewrite A2, A1, (unlinked_step frame_bytes sk sk1).
      assert (U : unlinked frame_bytes sk sk1 = frame_bytes frame).
      { unfold unlinked. rewrite Ht, T1, !total_app, total_cons. lia. }
      rewrite U. unfold u32, wrap. rewrite Zplus_mod_idemp_l.
      f_equal. lia.
    + destruct (IH (frame :: kept) _ _ _ _ _ T1 Hpn1 Hw) as (K2 & A2).
      split; [eapply cong_kept_trans; eassumption|].
      rewrite A2, A1, (unlinked_step frame_bytes sk sk1).
      assert (U : unlinked frame_bytes sk sk1 = 0).
      { unfold unlinked. rewrite Ht, T1. lia. }
      rewrite U. f_equal; lia.
Qed.

Lemma sack_capture_packet_order first rest :
  packet_order (first :: rest) ->
  sack_capture (first :: rest) (0, 0)
  = (frame_number first, u32 (frame_transmit_ts first)).
Proof.
  intros Hord. apply StronglySorted_inv in Hord as [_ Hrest].
  cbn [sack_capture fst]. rewrite Z.eqb_refl.
  induction rest as [|g rest IH]; [reflexivity|].
  apply List.Forall_cons_iff in Hrest as [Hg Hrest].
  cbn [sack_capture fst].
  destruct (Z.eqb_spec (frame_number first) 0) as [Z0|Z0];
    [|now apply IH].
  destruct Hg as [[-> ->]|Hg]; [|lia].
  now apply IH.
Qed.

(** C4: [quic_outq_transmitted_sack] on a socket whose transmitted
    frames can be walked (the level has its packet-number map, stream
    pointers are valid) and are linked in packet order.  The call
    returns the bytes acked, which are the bytes of the frames that left
    [transmitted_list], and [rtx_count] reads 0 afterwards in every
    case.  When at least one byte was acked, the log gains one
    congestion update, logged last:
    [cwnd_update_after_sack(acked_number, transmit_ts, acked_bytes,
    data_inflight)] with the number and the transmit time of the first
    frame the reverse walk processed and [data_inflight] as it reads
    after the walk; the window then reads what the congestion
    controller gives on the socket so updated.  When no byte was acked
    the log gains no congestion update and the window is as it was. *)
Theorem transmitted_sack_congestion_update
    sk level largest smallest ack_largest ack_delay sk0 :
  transmitted_sack_pl sk largest smallest = Some sk0 ->
  is_Some (quic_pnmap sk0 level) ->
  Forall (sack_stream_ok sk0) (transmitted_list (sk_outq sk0)) ->
  packet_order
    (sack_processed level largest smallest
       (rev (transmitted_list (sk_outq sk0)))) ->
  exists acked_bytes sk',
    quic_outq_transmitted_sack sk level largest smallest ack_largest ack_delay
      = Some (s32 acked_bytes, sk') /\
    acked_bytes = u32 (unlinked frame_bytes sk0 sk') /\
    outq_rtx_count (sk_outq sk') = 0 /\
    (0 < acked_bytes ->
       exists first rest updated,
         sack_processed level largest smallest
           (rev (transmitted_list (sk_outq sk0))) = first :: rest /\
         let update :=
           call_cong_cwnd_update_after_sack (frame_number first)
             (u32 (frame_transmit_ts first)) acked_bytes
             (outq_data_inflight (sk_outq sk')) in
         hd_error (sk_log sk') = Some update /\
         List.filter is_cwnd_update_after_sack (sk_log sk')
         = update :: List.filter is_cwnd_update_after_sack (sk_log sk0) /\
         outq_window (sk_outq sk') = quic_cong_window updated /\
         sk' = with_outq updated (fun q =>
                 quic_outq_set_window q (quic_cong_window updated)) /\
         outq_window (sk_outq updated) = outq_window (sk_outq sk0)) /\
    (acked_bytes = 0 ->
       List.filter is_cwnd_update_after_sack (sk_log sk')
       = List.filter is_cwnd_update_after_sack (sk_log sk0) /\
       outq_window (sk_outq sk') = outq_window (sk_outq sk0)) /\
    0 <= acked_bytes.
Proof.
  intros Hpl Hpn Hok Hord.
  destruct (sack_walk_runs level largest smallest ack_largest ack_delay
              (rev (transmitted_list (sk_outq sk0))) [] sk0 0 0 0 Hpn)
    as (sk1 & ab & Hwalk & _ & Hab).
  { apply List.Forall_rev. exact Hok. }
  { lia. }
  destruct (sack_walk_acked _ _ _ _ _ _ _ _ _ _ _ _
              ltac:(now rewrite rev_involutive, app_nil_r) Hpn Hwalk)
    as ((W & L) & A).
  cbn [fst snd] in W, L, A. rewrite Z.add_0_l in A.
  assert (A' : ab = u32 (unlinked frame_bytes sk0 sk1))
    by (rewrite <- A; unfold u32, wrap; symmetry; now apply Z.mod_small).
  unfold quic_outq_transmitted_sack. rewrite Hpl. cbn [mbind option_bind].
  rewrite Hwalk. cbn [mbind option_bind]. unfold transmitted_sack_finish.
  exists ab.
  destruct (Z.eqb_spec ab 0) as [Z0|Z0]; simpl negb; cbv iota.
  - eexists. split; [reflexivity|]. split; [exact A'|].
    split; [reflexivity|]. split; [lia|]. split; [|lia].
    intros _. now split.
  - eexists. split; [reflexivity|]. split; [exact A'|].
    split; [reflexivity|]. split; [|split; [contradiction|lia]].
    intros _.
    destruct (sack_processed level largest smallest
                (rev (transmitted_list (sk_outq sk0))))
      as [|first rest] eqn:P.
    { rewrite (sack_walk_nothing _ _ _ _ _ _ [] (sk0, 0, 0, 0) P) in Hwalk.
      injection Hwalk as <- <-. contradiction. }
    rewrite (sack_capture_packet_order first rest Hord).
    exists first, rest. eexists. split; [reflexivity|]. cbv zeta. simpl.
    split; [reflexivity|]. split; [now rewrite L|].
    split; [reflexivity|]. split; [reflexivity|exact W].
Qed.

End Outqueue.

(** ** The development on the concrete socket *)

(** C2, the claim as worded fails: with one App-level frame pending, a
    handshake-level frame is linked before it, not appended at the tail;
    and a second App-level frame is appended after the first, not linked
    before it. *)
Lemma ctrl_tail_claim_refuted :
  let ack := Fx.ctrl 2 0 in
  let crypto := Fx.ctrl 6 Fx.INITIAL in
  let ping := Fx.ctrl Fx.PING 0 in
  let sk := Fx.sock0 (outq_set_control_list Fx.outq0 [ack])
                     (Fx.stream4 0 0 1000 0) in
  control_list (sk_outq (quic_outq_ctrl_tail Fx.transmit sk crypto true))
    = [crypto; ack] /\
  claimed_ctrl_tail_add crypto [ack] = [ack; crypto] /\
  control_list (sk_outq (quic_outq_ctrl_tail Fx.transmit sk ping true))
    = [ack; ping] /\
  claimed_ctrl_tail_add ping [ack] = [ping; ack] /\
  control_list (sk_outq (quic_outq_ctrl_tail Fx.transmit sk crypto true))
    <> claimed_ctrl_tail_add crypto (control_list (sk_outq sk)).
Proof. vm_compute. repeat split. discriminate. Qed.

(** C1, the claim as worded fails: a lost handshake-level frame goes back
    before a pending App-level frame (the higher level first), and a lost
    frame goes back before a frame of its level whose offset is 0, which
    is not greater than its own. *)
Lemma retransmit_one_claim_refuted :
  let ack := Fx.ctrl 2 0 in
  let crypto := Fx.ctrl 6 Fx.HANDSHAKE in
  let fresh := Fx.data 50 0 0 0 in
  let lost := Fx.data 50 100 3 10 in
  let s := Fx.stream4 Fx.SENT 150 1000 1 in
  control_list <$> (sk_outq <$>
      quic_outq_retransmit_one Fx.bits
        (Fx.sock0 (outq_set_control_list Fx.outq0 [ack]) s) crypto)
    = Some [crypto; ack] /\
  claimed_retransmit_one_add crypto [ack] = [ack; crypto] /\
  stream_list <$> (sk_outq <$>
      quic_outq_retransmit_one Fx.bits
        (Fx.sock0 (outq_set_stream_list Fx.outq0 [fresh]) s) lost)
    = Some [lost; fresh] /\
  claimed_retransmit_one_add lost [fresh] = [fresh; lost].
Proof. vm_compute. repeat split. Qed.

(** C1 on the concrete socket: a lost stream frame at offset 100 goes
    back between the pending frames at offsets 50 and 200. *)
Lemma retransmit_one_position_witness :
  let lost := Fx.data 50 100 3 10 in
  let sk := Fx.sock0
              (outq_set_stream_list Fx.outq0
                 [Fx.data 50 50 0 0; Fx.data 50 200 0 0])
              (Fx.stream4 Fx.SENT 300 1000 1) in
  (frame_bytes lost = 0 \/ is_Some (stream_at sk (frame_stream lost))) /\
  exists sk',
    quic_outq_retransmit_one Fx.bits sk lost = Some sk' /\
    stream_list (sk_outq sk')
      = [Fx.data 50 50 0 0; lost; Fx.data 50 200 0 0] /\
    levels_descending (stream_list (sk_outq sk')).
Proof.
  cbv zeta.
  assert (Hs : frame_bytes (Fx.data 50 100 3 10) = 0 \/
               is_Some (stream_at
                 (Fx.sock0
                    (outq_set_stream_list Fx.outq0
                       [Fx.data 50 50 0 0; Fx.data 50 200 0 0])
                    (Fx.stream4 Fx.SENT 300 1000 1))
                 (frame_stream (Fx.data 50 100 3 10))))
    by (right; eexists; reflexivity).
  split; [exact Hs|].
  destruct (retransmit_one_position Fx.bits _ _ Hs)
    as (sk' & l' & Hrun & _ & Hdesc & Hl & _).
  exists sk'. split; [exact Hrun|].
  vm_compute in Hrun. injection Hrun as <-.
  split; [reflexivity|].
  subst l'. apply Hdesc. repeat constructor; simpl; lia.
Defined.

(** C3 on the concrete socket (scenario "backpressure"): stream 4 has
    [max_bytes = 1000] and [bytes = 900]; a 200-byte frame is blocked by
    the stream gate alone.  At the end of the gate the stream reads
    [data_blocked = 1] and [last_max_bytes = 1000] and the
    STREAM_DATA_BLOCKED frame is in [control_list]; the control flush,
    which here packs every control frame, then moves it to
    [transmitted_list]. *)
Lemma flow_control_gate_witness :
  let s := Fx.stream4 1 900 1000 0 in
  let sk := Fx.sock0 Fx.outq0 s in
  let frame := Fx.data 200 900 0 0 in
  let sdb := mk_frame Fx.STREAM_DATA_BLOCKED 0 9 0 0 (Some 4) 0 0 0 0 in
  stream_at sk (frame_stream frame) = Some s /\
  stream_gate Fx.bits s frame /\
  ~ cong_gate Fx.bits sk frame /\ ~ conn_gate Fx.bits sk frame /\
  (exists sk2 (nframe : option quic_frame) s1,
     quic_outq_flow_control Fx.bits Fx.DATA_BLOCKED Fx.STREAM_DATA_BLOCKED
       Fx.transmit Fx.transmit Fx.create sk frame
     = Some (1, match nframe with
                | Some _ => Fx.transmit sk2
                | None => sk2
                end) /\
     stream_at sk2 (Some 4) = Some s1 /\
     send_data_blocked s1 = 1 /\ send_last_max_bytes s1 = 1000 /\
     In sdb (control_list (sk_outq sk2))) /\
  (fun r : Z * sock =>
     (r.1, sk_streams r.2 !! 4, control_list (sk_outq r.2),
      transmitted_list (sk_outq r.2)))
    <$> quic_outq_flow_control Fx.bits Fx.DATA_BLOCKED Fx.STREAM_DATA_BLOCKED
          Fx.transmit Fx.transmit Fx.create sk frame
  = Some (1, Some (mk_stream 4 1 900 1000 1000 1 0 0), [], [sdb]).
Proof.
  cbv zeta. split; [reflexivity|].
  assert (G : stream_gate Fx.bits (Fx.stream4 1 900 1000 0)
                (Fx.data 200 900 0 0)) by reflexivity.
  split; [exact G|].
  split; [vm_compute; discriminate|]. split; [vm_compute; discriminate|].
  split; [|reflexivity].
  destruct (flow_control_gate Fx.bits Fx.DATA_BLOCKED Fx.STREAM_DATA_BLOCKED
              Fx.transmit Fx.transmit Fx.create
              (Fx.sock0 Fx.outq0 (Fx.stream4 1 900 1000 0))
              (Fx.data 200 900 0 0) (Fx.stream4 1 900 1000 0) eq_refl)
    as (blocked & sk2 & nframe & Hrun & _ & Hiff & _ & _ & Hadv & _).
  destruct (Hadv G eq_refl eq_refl)
    as (s1 & Hs1 & D & M & _ & _ & _ & _ & _ & _ & Hin).
  exists sk2, nframe, s1.
  replace 1 with blocked at 2 by (apply Hiff; right; left; exact G).
  split; [exact Hrun|]. split; [exact Hs1|].
  split; [exact D|]. split; [exact M|].
  apply (Hin _ eq_refl).
Defined.

(** C6, the defect on the concrete socket.  Stream 4 and the connection
    are both out of credit for a 200-byte frame.  When the factory yields
    the STREAM_DATA_BLOCKED frame and then fails on DATA_BLOCKED, the gate
    returns with the STREAM_DATA_BLOCKED frame enqueued and the control
    phase not run: the frame is still pending.  With a factory that
    yields both frames the control phase runs and packs them. *)
Theorem flow_control_blocked_frame_left_pending :
  let sk := Fx.sock0 (outq_set_bytes Fx.outq0 99900)
                     (Fx.stream4 1 900 1000 0) in
  let frame := Fx.data 200 900 0 0 in
  let sdb := mk_frame Fx.STREAM_DATA_BLOCKED 0 9 0 0 (Some 4) 0 0 0 0 in
  let db := mk_frame Fx.DATA_BLOCKED 0 9 0 0 None 0 0 0 0 in
  (exists sk',
     quic_outq_flow_control Fx.bits Fx.DATA_BLOCKED Fx.STREAM_DATA_BLOCKED
       Fx.transmit Fx.transmit Fx.create_no_data_blocked sk frame
       = Some (1, sk') /\
     control_list (sk_outq sk') = [sdb] /\
     transmitted_list (sk_outq sk') = []) /\
  (exists sk',
     quic_outq_flow_control Fx.bits Fx.DATA_BLOCKED Fx.STREAM_DATA_BLOCKED
       Fx.transmit Fx.transmit Fx.create sk frame
       = Some (1, sk') /\
     control_list (sk_outq sk') = [] /\
     transmitted_list (sk_outq sk') = [sdb; db]).
Proof. vm_compute. split; eexists; repeat split. Qed.

(** C7, the claim as worded fails: with [loss_ts] equal to the clock
    reading 700 the one call the timer gets arms it with delay 0, that
    is for [now], which is earlier than [now + 1]; nothing else is
    logged. *)
Lemma update_loss_timer_claim_refuted :
  let sk := Fx.timer_sock 700 in
  sk_log sk = [] /\
  sk_log <$> quic_outq_update_loss_timer Fx.duration sk 0 700
    = Some [call_timer_reduce 0 0] /\
  ~ (700 + 1 <= 700 + 0).
Proof.
  cbv zeta. split; [reflexivity|]. split; [reflexivity|lia].
Qed.

(** C7 on concrete sockets, by the calls the timer gets at clock
    reading 700: a pending [loss_ts] of 900 arms it with delay 200, one
    of 600, in the past, with delay 1; with no [loss_ts] and 120 bytes
    in flight the third case arms it for [300 * (1 + 2)] after the last
    send at 650; with nothing in flight it is stopped. *)
Lemma update_loss_timer_cases_witness :
  quic_pnmap (Fx.timer_sock 900) 0 = Some (mk_pnmap 8 120 900 650 0 0) /\
  sk_log <$> quic_outq_update_loss_timer Fx.duration (Fx.timer_sock 900) 0 700
    = Some [call_timer_reduce 0 200] /\
  sk_log <$> quic_outq_update_loss_timer Fx.duration (Fx.timer_sock 600) 0 700
    = Some [call_timer_reduce 0 1] /\
  sk_log <$> quic_outq_update_loss_timer Fx.duration (Fx.timer_sock 0) 0 700
    = Some [call_timer_reduce 0 (300 * 3 + 650 - 700)] /\
  sk_log <$> quic_outq_update_loss_timer Fx.duration
               (Fx.sock0 Fx.outq0 (Fx.stream4 Fx.SEND 0 1000 0)) 0 700
    = Some [call_timer_stop 0].
Proof.
  split; [reflexivity|].
  split; [|split; [|split]].
  - destruct (update_loss_timer_cases Fx.duration (Fx.timer_sock 900)
                0 700 (mk_pnmap 8 120 900 650 0 0) eq_refl)
      as (sk' & -> & _ & _ & _ & _ & H & _).
    simpl. now rewrite H by (vm_compute; discriminate).
  - destruct (update_loss_timer_cases Fx.duration (Fx.timer_sock 600)
                0 700 (mk_pnmap 8 120 600 650 0 0) eq_refl)
      as (sk' & -> & _ & _ & _ & _ & H & _).
    simpl. now rewrite H by (vm_compute; discriminate).
  - destruct (update_loss_timer_cases Fx.duration (Fx.timer_sock 0)
                0 700 (mk_pnmap 8 120 0 650 0 0) eq_refl)
      as (sk' & -> & _ & _ & _ & _ & _ & _ & H & _).
    simpl. now rewrite H by (vm_compute; first [reflexivity|discriminate]).
  - destruct (update_loss_timer_cases Fx.duration
                (Fx.sock0 Fx.outq0 (Fx.stream4 Fx.SEND 0 1000 0))
                0 700 Fx.pnmap0 eq_refl)
      as (sk' & -> & _ & _ & _ & _ & _ & H & _).
    simpl. now rewrite H by reflexivity.
Defined.

(** The ack and loss processors on the concrete parameters. *)
Abbreviation fx_sack handled :=
  (quic_outq_transmitted_sack Fx.bits Fx.PING Fx.RESET_STREAM Fx.DATA_BLOCKED
     Fx.STREAM_DATA_BLOCKED Fx.SENT Fx.RECVD Fx.RESET_RECVD Fx.ESTABLISHED
     Fx.HANDSHAKE Fx.ECT_0 Fx.transmit Fx.create handled Fx.rto Fx.window
     Fx.probe_timeout Fx.taglen Fx.pl_send Fx.pl_confirm Fx.pl_recv).
Abbreviation fx_sack_walk handled :=
  (transmitted_sack_walk Fx.bits Fx.RESET_STREAM Fx.DATA_BLOCKED
     Fx.STREAM_DATA_BLOCKED Fx.SENT Fx.RECVD Fx.RESET_RECVD Fx.ECT_0
     handled Fx.rto).
Abbreviation fx_retransmit_mark :=
  (quic_outq_retransmit_mark Fx.bits Fx.is_dgram Fx.rto Fx.window Fx.duration
     Fx.wspace).
Abbreviation fx_retransmit_list :=
  (quic_outq_retransmit_list Fx.bits Fx.is_dgram Fx.wspace).

(** C4 on the concrete socket: an ack of packets 41 to 42.  The walk
    meets the frame of packet 42 first and then the one of packet 41,
    so the congestion update, the call logged last, gets number 42 and
    its [transmit_ts] 10, with the 800 bytes acked, which are those of
    the two frames released, and no data left in flight; [rtx_count],
    which was 3, is 0 and the window is the controller's 12000. *)
Lemma transmitted_sack_congestion_update_witness :
  is_Some (quic_pnmap Fx.inflight_sock 0) /\
  Forall (sack_stream_ok Fx.RESET_STREAM Fx.STREAM_DATA_BLOCKED
            Fx.inflight_sock)
         (transmitted_list (sk_outq Fx.inflight_sock)) /\
  sack_processed 0 42 41 (rev (transmitted_list (sk_outq Fx.inflight_sock)))
    = [Fx.f42; Fx.f41] /\
  packet_order [Fx.f42; Fx.f41] /\
  (fun r : Z * sock =>
     (r.1, outq_rtx_count (sk_outq r.2), hd_error (sk_log r.2),
      transmitted_list (sk_outq r.2), outq_window (sk_outq r.2)))
    <$> fx_sack Fx.delivered Fx.inflight_sock 0 42 41 42 0
  = Some (800, 0, Some (call_cong_cwnd_update_after_sack 42 10 800 0),
          [Fx.f40], 12000).
Proof.
  assert (Hpn : is_Some (quic_pnmap Fx.inflight_sock 0))
    by (eexists; reflexivity).
  assert (Hok : Forall (sack_stream_ok Fx.RESET_STREAM Fx.STREAM_DATA_BLOCKED
                          Fx.inflight_sock)
                       (transmitted_list (sk_outq Fx.inflight_sock))).
  { repeat (apply List.Forall_cons;
            [first [eexists; reflexivity | intros _; split; discriminate]|]).
    apply List.Forall_nil. }
  assert (Hord : packet_order [Fx.f42; Fx.f41]).
  { apply SSorted_cons;
      [apply SSorted_cons; [apply SSorted_nil|apply List.Forall_nil]|].
    apply List.Forall_cons; [|apply List.Forall_nil].
    right. simpl. lia. }
  split; [exact Hpn|]. split; [exact Hok|].
  split; [reflexivity|]. split; [exact Hord|].
  destruct (transmitted_sack_congestion_update Fx.bits Fx.PING Fx.RESET_STREAM
              Fx.DATA_BLOCKED Fx.STREAM_DATA_BLOCKED Fx.SENT Fx.RECVD
              Fx.RESET_RECVD Fx.ESTABLISHED Fx.HANDSHAKE Fx.ECT_0 Fx.transmit
              Fx.create Fx.delivered Fx.rto Fx.window Fx.probe_timeout
              Fx.taglen Fx.pl_send Fx.pl_confirm Fx.pl_recv
              Fx.inflight_sock 0 42 41 42 0 Fx.inflight_sock
              eq_refl Hpn Hok Hord)
    as (ab & sk' & E & _).
  set (run := fx_sack Fx.delivered Fx.inflight_sock 0 42 41 42 0) in *.
  vm_compute in run. subst run. injection E as _ <-. reflexivity.
Defined.

(** C5 on the concrete socket: the ack of packet 42, the last fragment of
    stream 4, with a user that refuses the stream update.  The walk ends
    with nothing acked and the streams and the outqueue as they were. *)
Lemma sack_refused_update_keeps_frame_witness :
  let sk := Fx.last_fragment_sock in
  sk_streams sk !! 4 = Some (Fx.stream4 Fx.SENT 800 1000 1) /\
  is_Some (quic_pnmap sk 0) /\
  exists sk',
    fx_sack_walk Fx.refused 0 42 42 42 0 [Fx.f42] [] (sk, 0, 0, 0)
      = Some (sk', 0, 42, 10) /\
    sk_streams sk' = sk_streams sk /\
    sk_outq sk' = sk_outq sk.
Proof.
  cbv zeta. split; [reflexivity|]. split; [eexists; reflexivity|].
  destruct (sack_refused_update_keeps_frame Fx.bits Fx.RESET_STREAM
              Fx.DATA_BLOCKED Fx.STREAM_DATA_BLOCKED Fx.SENT Fx.RECVD
              Fx.RESET_RECVD Fx.ECT_0 Fx.refused Fx.rto
              0 42 42 42 0 [] [] Fx.f42 Fx.last_fragment_sock 0 0 0
              4 (Fx.stream4 Fx.SENT 800 1000 1))
    as (sk' & an & ts & calls & Hframe & Hwalk & Hs & Hq & _);
    try reflexivity; try (vm_compute; intuition discriminate).
  { intros _. eexists. reflexivity. }
  exists sk'. rewrite Hwalk. cbn [transmitted_sack_walk].
  vm_compute in Hframe. injection Hframe as <- <- <-.
  repeat split.
Defined.

(** C9 on the concrete socket, whose three frames in flight are of level
    0: handed its own transmitted list, [quic_outq_retransmit_list]
    empties it and brings [data_inflight] from 800 to 0 but leaves
    [inflight] and the map's count at 813, where
    [quic_outq_retransmit_mark] brings all three to 0. *)
Lemma retransmit_list_data_inflight_only_witness :
  let sk := Fx.inflight_sock in
  let counters (sk' : sock) :=
    (transmitted_list (sk_outq sk'), outq_data_inflight (sk_outq sk'),
     outq_inflight (sk_outq sk'), pn_inflight <$> quic_pnmap sk' 0) in
  Forall (retransmit_ok Fx.is_dgram sk) (transmitted_list (sk_outq sk)) /\
  is_Some (quic_pnmap sk 0) /\
  counters <$> fx_retransmit_list sk ref_transmitted
    = Some ([], 0, 813, Some 813) /\
  (fun r => counters r.2) <$> fx_retransmit_mark sk 0 1 1000 1001
    = Some ([], 0, 0, Some 0).
Proof.
  cbv zeta.
  assert (Hok : Forall (retransmit_ok Fx.is_dgram Fx.inflight_sock)
                       (transmitted_list (sk_outq Fx.inflight_sock))).
  { repeat (apply List.Forall_cons;
            [first [right; left; reflexivity
                   |right; right; eexists; reflexivity]|]).
    apply List.Forall_nil. }
  assert (Hpn : is_Some (quic_pnmap Fx.inflight_sock 0))
    by (eexists; reflexivity).
  split; [exact Hok|]. split; [exact Hpn|].
  destruct (retransmit_list_data_inflight_only Fx.bits Fx.is_dgram Fx.rto
              Fx.window Fx.duration Fx.wspace Fx.inflight_sock
              ref_transmitted 0 1 1000 1001 Hok Hpn Hok)
    as [(sk1 & Hlist & _) (count & sk2 & Hmark & _)].
  rewrite Hlist, Hmark.
  vm_compute in Hlist. injection Hlist as <-.
  vm_compute in Hmark. injection Hmark as <- <-.
  vm_compute. split; reflexivity.
Defined.

(** The whole ack processor on the socket of the last fragment, with a
    user that refuses the stream update: nothing is acked, the frame is
    still in flight with its counters, the stream is SENT with one
    fragment, and the only calls are the RTT update and its two
    timestamps and the refused event. *)
Example transmitted_sack_refused_example :
  (fun r => (r.1, transmitted_list (sk_outq r.2),
             outq_data_inflight (sk_outq r.2), outq_inflight (sk_outq r.2),
             sk_streams r.2 !! 4, length (sk_log r.2)))
    <$> fx_sack Fx.refused Fx.last_fragment_sock 0 42 42 42 0
  = Some (0, [Fx.f42], 500, 504, Some (Fx.stream4 Fx.SENT 800 1000 1), 3%nat).
Proof. vm_compute. reflexivity. Qed.

(** The same ack with a user that takes no part: the frame is released,
    the stream reaches RECVD and the congestion controller is told. *)
Example transmitted_sack_delivered_example :
  (fun r => (r.1, transmitted_list (sk_outq r.2),
             outq_data_inflight (sk_outq r.2), outq_inflight (sk_outq r.2),
             sk_streams r.2 !! 4, hd_error (sk_log r.2)))
    <$> fx_sack Fx.delivered Fx.last_fragment_sock 0 42 42 42 0
  = Some (500, [], 0, 0, Some (Fx.stream4 Fx.RECVD 800 1000 0),
          Some (call_cong_cwnd_update_after_sack 42 10 500 0)).
Proof. vm_compute. reflexivity. Qed.

(** Three lost stream frames at offsets 0, 100 and 200 of one level, put
    back one after the other into an empty [stream_list]: each later
    frame stops at the frame of offset 0 and is linked before it. *)
Example retransmit_mark_offsets_example :
  let lost offset number := Fx.data 100 offset number 10 in
  let sk := mk_sock
      (mk_outq [lost 0 1; lost 100 2; lost 200 3] [] [] []
               0 300 100000 312 12000 300 0 0 0 0 0)
      {[ 4 := Fx.stream4 1 300 1000 3 ]}
      {[ 0 := mk_pnmap 4 312 0 10 0 0 ]} Fx.ESTABLISHED [] in
  (fun r => (r.1, transmitted_list (sk_outq r.2), stream_list (sk_outq r.2),
             outq_bytes (sk_outq r.2), send_frags <$> sk_streams r.2 !! 4))
    <$> fx_retransmit_mark sk 0 1 1000 1001
  = Some (3, [], [lost 100 2; lost 200 3; lost 0 1], 0, Some 0).
Proof. vm_compute. reflexivity. Qed.

(** ** The further properties on the concrete socket *)

(** X1: a frame of the Initial level enqueued behind the handshake-level
    frame in flight and ahead of the App-level one. *)
Lemma transmitted_tail_keeps_order_witness :
  let sk' := quic_outq_transmitted_tail Fx.hs_sock (Fx.ctrl Fx.PING Fx.INITIAL) in
  transmitted_list (sk_outq sk')
    = [Fx.ctrl Fx.PING Fx.HANDSHAKE; Fx.ctrl Fx.PING Fx.INITIAL; Fx.f41] /\
  handshake_first (transmitted_list (sk_outq sk')).
Proof.
  cbv zeta.
  destruct (transmitted_tail_keeps_order Fx.hs_sock
              (Fx.ctrl Fx.PING Fx.INITIAL)
              [Fx.ctrl Fx.PING Fx.HANDSHAKE] [Fx.f41] eq_refl)
    as [E H]; [repeat constructor..|].
  split; [rewrite E; reflexivity|exact H].
Defined.

(** X2: a batch of four control frames of mixed levels. *)
Lemma ctrl_tail_batch_stable_partition_witness :
  control_list
    (sk_outq
       (ctrl_tail_all Fx.transmit Fx.hs_sock
          [Fx.ctrl Fx.PING 0; Fx.ctrl Fx.PING Fx.HANDSHAKE;
           Fx.ctrl Fx.DATA_BLOCKED 0; Fx.ctrl Fx.PING Fx.INITIAL]))
  = [Fx.ctrl Fx.PING Fx.HANDSHAKE; Fx.ctrl Fx.PING Fx.HANDSHAKE;
     Fx.ctrl Fx.PING Fx.INITIAL;
     Fx.ctrl Fx.PING 0; Fx.ctrl Fx.PING 0; Fx.ctrl Fx.DATA_BLOCKED 0].
Proof.
  rewrite (ctrl_tail_batch_stable_partition Fx.transmit
             [Fx.ctrl Fx.PING 0; Fx.ctrl Fx.PING Fx.HANDSHAKE;
              Fx.ctrl Fx.DATA_BLOCKED 0; Fx.ctrl Fx.PING Fx.INITIAL]
             Fx.hs_sock [Fx.ctrl Fx.PING Fx.HANDSHAKE] [Fx.ctrl Fx.PING 0]
             eq_refl);
    [reflexivity|repeat constructor..].
Defined.

(** X3: the FIN frame of a READY stream that is the active one. *)
Lemma stream_tail_send_state_witness :
  let sk := Fx.sock0 Fx.outq0 (Fx.stream4 Fx.READY 0 1000 0) in
  let frame := mk_frame (Fx.STREAM + Fx.FIN) 0 104 100 0 (Some 4) 0 0 0 0 in
  (fun r : sock * Z =>
     (send_state <$> sk_streams r.1 !! 4, stream_list (sk_outq r.1), r.2))
    <$> quic_outq_stream_tail Fx.SENT Fx.transmit Fx.READY Fx.SEND Fx.FIN
          sk 4 frame true
  = Some (Some Fx.SENT, [frame], -1).
Proof.
  cbv zeta.
  pose proof (stream_tail_send_state Fx.SENT Fx.transmit Fx.READY Fx.SEND
                Fx.FIN (Fx.sock0 Fx.outq0 (Fx.stream4 Fx.READY 0 1000 0)) 4
                (mk_frame (Fx.STREAM + Fx.FIN) 0 104 100 0 (Some 4) 0 0 0 0)
                true 4 (Fx.stream4 Fx.READY 0 1000 0) eq_refl eq_refl
                ltac:(discriminate) ltac:(discriminate)) as H.
  cbv zeta in H. destruct H as [E _]. rewrite E. reflexivity.
Defined.

(** X6 and X7: the purge of stream 4, with fragments of streams 4 and 6
    and a PING in flight and a fragment of stream 4 pending. *)
Lemma stream_purge_removes_stream_witness :
  Forall (purge_ok Fx.two_stream_sock (Some 4))
         (transmitted_list (sk_outq Fx.two_stream_sock)) /\
  (fun sk' => (transmitted_list (sk_outq sk'), stream_list (sk_outq sk')))
    <$> quic_outq_stream_purge Fx.bits Fx.wspace Fx.two_stream_sock (Some 4)
  = Some ([Fx.f40; Fx.f43], []).
Proof.
  assert (Hok : Forall (purge_ok Fx.two_stream_sock (Some 4))
                       (transmitted_list (sk_outq Fx.two_stream_sock))).
  { repeat (apply List.Forall_cons; [intros _; eexists; reflexivity|]).
    apply List.Forall_nil. }
  split; [exact Hok|].
  destruct (stream_purge_removes_stream Fx.bits Fx.wspace Fx.two_stream_sock
              (Some 4) Hok) as (sk' & E & T & L & _).
  rewrite E. simpl. rewrite T, L. reflexivity.
Defined.

Lemma stream_purge_settles_inflight_witness :
  Forall (purge_ok Fx.two_stream_sock (Some 4))
         (transmitted_list (sk_outq Fx.two_stream_sock)) /\
  exists sk',
    quic_outq_stream_purge Fx.bits Fx.wspace Fx.two_stream_sock (Some 4)
      = Some sk' /\
    inflight_settled Fx.bits 0 Fx.two_stream_sock sk' /\
    (outq_data_inflight (sk_outq sk'), outq_inflight (sk_outq sk'),
     pn_inflight <$> quic_pnmap sk' 0) = (100, 109, Some 109).
Proof.
  assert (Hok : Forall (purge_ok Fx.two_stream_sock (Some 4))
                       (transmitted_list (sk_outq Fx.two_stream_sock))).
  { repeat (apply List.Forall_cons; [intros _; eexists; reflexivity|]).
    apply List.Forall_nil. }
  split; [exact Hok|].
  destruct (stream_purge_settles_inflight Fx.bits Fx.wspace
              Fx.two_stream_sock (Some 4) 0 Hok
              ltac:(eexists; reflexivity)) as (sk' & E & S & _).
  exists sk'. split; [exact E|]. split; [exact S|].
  vm_compute in E. injection E as <-. reflexivity.
Defined.

(** X9 and X10: the ack of packet 41 alone.  Its fragment leaves
    [transmitted_list]; the PING of packet 40 and the fragment of packet
    42 stay, in their order. *)
Lemma transmitted_sack_unlinks_covered_only_witness :
  is_Some (quic_pnmap Fx.inflight_sock 0) /\
  Forall (sack_stream_ok Fx.RESET_STREAM Fx.STREAM_DATA_BLOCKED
            Fx.inflight_sock)
         (transmitted_list (sk_outq Fx.inflight_sock)) /\
  (fun r : Z * sock => (r.1, transmitted_list (sk_outq r.2)))
    <$> fx_sack Fx.delivered Fx.inflight_sock 0 41 41 41 0
  = Some (300, [Fx.f40; Fx.f42]).
Proof.
  assert (Hpn : is_Some (quic_pnmap Fx.inflight_sock 0))
    by (eexists; reflexivity).
  assert (Hok : Forall (sack_stream_ok Fx.RESET_STREAM Fx.STREAM_DATA_BLOCKED
                          Fx.inflight_sock)
                       (transmitted_list (sk_outq Fx.inflight_sock))).
  { repeat (apply List.Forall_cons;
            [first [eexists; reflexivity | intros _; split; discriminate]|]).
    apply List.Forall_nil. }
  split; [exact Hpn|]. split; [exact Hok|].
  destruct (transmitted_sack_unlinks_covered_only Fx.bits Fx.PING
              Fx.RESET_STREAM Fx.DATA_BLOCKED Fx.STREAM_DATA_BLOCKED Fx.SENT
              Fx.RECVD Fx.RESET_RECVD Fx.ESTABLISHED Fx.HANDSHAKE Fx.ECT_0
              Fx.transmit Fx.create Fx.delivered Fx.rto Fx.window
              Fx.probe_timeout Fx.taglen Fx.pl_send Fx.pl_confirm Fx.pl_recv
              Fx.inflight_sock 0 41 41 41 0 Fx.inflight_sock
              eq_refl Hpn Hok)
    as (acked & sk' & E & _ & _).
  rewrite E. vm_compute in E. injection E as <- <-. reflexivity.
Defined.

Lemma transmitted_sack_settles_inflight_witness :
  is_Some (quic_pnmap Fx.inflight_sock 0) /\
  Forall (sack_stream_ok Fx.RESET_STREAM Fx.STREAM_DATA_BLOCKED
            Fx.inflight_sock)
         (transmitted_list (sk_outq Fx.inflight_sock)) /\
  exists acked sk',
    fx_sack Fx.delivered Fx.inflight_sock 0 41 41 41 0 = Some (acked, sk') /\
    inflight_settled Fx.bits 0 Fx.inflight_sock sk' /\
    (outq_data_inflight (sk_outq sk'), outq_inflight (sk_outq sk'),
     pn_inflight <$> quic_pnmap sk' 0) = (500, 509, Some 509).
Proof.
  assert (Hpn : is_Some (quic_pnmap Fx.inflight_sock 0))
    by (eexists; reflexivity).
  assert (Hok : Forall (sack_stream_ok Fx.RESET_STREAM Fx.STREAM_DATA_BLOCKED
                          Fx.inflight_sock)
                       (transmitted_list (sk_outq Fx.inflight_sock))).
  { repeat (apply List.Forall_cons;
            [first [eexists; reflexivity | intros _; split; discriminate]|]).
    apply List.Forall_nil. }
  split; [exact Hpn|]. split; [exact Hok|].
  destruct (transmitted_sack_settles_inflight Fx.bits Fx.PING
              Fx.RESET_STREAM Fx.DATA_BLOCKED Fx.STREAM_DATA_BLOCKED Fx.SENT
              Fx.RECVD Fx.RESET_RECVD Fx.ESTABLISHED Fx.HANDSHAKE Fx.ECT_0
              Fx.transmit Fx.create Fx.delivered Fx.rto Fx.window
              Fx.probe_timeout Fx.taglen Fx.pl_send Fx.pl_confirm Fx.pl_recv
              Fx.inflight_sock 0 41 41 41 0 Fx.inflight_sock
              eq_refl Hpn Hok)
    as (acked & sk' & E & S).
  exists acked, sk'. split; [exact E|]. split; [exact S|].
  vm_compute in E. injection E as <- <-. reflexivity.
Defined.

(** X11: an ack for the handshake level, at which nothing is in
    flight. *)
Lemma transmitted_sack_nothing_acked_witness :
  sack_processed Fx.HANDSHAKE 42 41
    (rev (transmitted_list (sk_outq Fx.inflight_sock))) = [] /\
  fx_sack Fx.refused Fx.inflight_sock Fx.HANDSHAKE 42 41 42 0
  = Some (0, with_outq Fx.inflight_sock (fun q => outq_set_rtx_count q 0)).
Proof.
  split; [reflexivity|].
  apply (transmitted_sack_nothing_acked Fx.bits Fx.PING
           Fx.RESET_STREAM Fx.DATA_BLOCKED Fx.STREAM_DATA_BLOCKED Fx.SENT
           Fx.RECVD Fx.RESET_RECVD Fx.ESTABLISHED Fx.HANDSHAKE Fx.ECT_0
           Fx.transmit Fx.create Fx.refused Fx.rto Fx.window
           Fx.probe_timeout Fx.taglen Fx.pl_send Fx.pl_confirm Fx.pl_recv
           Fx.inflight_sock Fx.HANDSHAKE 42 41 42 0 Fx.inflight_sock
           eq_refl eq_refl).
Defined.

(** X12 and X15: everything in flight is declared lost at once; the
    four frames join the pending fragment of stream 4. *)
Lemma retransmit_mark_immediate_drains_level_witness :
  is_Some (quic_pnmap Fx.two_stream_sock 0) /\
  Forall (retransmit_ok Fx.is_dgram Fx.two_stream_sock)
         (transmitted_list (sk_outq Fx.two_stream_sock)) /\
  (fun r : Z * sock =>
     (r.1, transmitted_list (sk_outq r.2), control_list (sk_outq r.2),
      stream_list (sk_outq r.2)))
    <$> fx_retransmit_mark Fx.two_stream_sock 0 1 1000 1001
  = Some (4, [], [Fx.f40], [Fx.f42; Fx.f43; Fx.f41; Fx.f44]).
Proof.
  assert (Hpn : is_Some (quic_pnmap Fx.two_stream_sock 0))
    by (eexists; reflexivity).
  assert (Hok : Forall (retransmit_ok Fx.is_dgram Fx.two_stream_sock)
                       (transmitted_list (sk_outq Fx.two_stream_sock))).
  { repeat (apply List.Forall_cons;
            [first [right; left; reflexivity
                   |right; right; eexists; reflexivity]|]).
    apply List.Forall_nil. }
  split; [exact Hpn|]. split; [exact Hok|].
  pose proof (retransmit_mark_immediate_drains_level Fx.bits Fx.is_dgram
                Fx.rto Fx.window Fx.duration Fx.wspace Fx.two_stream_sock
                0 1 1000 1001 ltac:(discriminate) Hpn Hok) as H.
  cbv zeta in H. destruct H as (count & sk' & E & _).
  rewrite E. vm_compute in E. injection E as <- <-. reflexivity.
Defined.

Lemma retransmit_list_moves_frames_witness :
  Forall (retransmit_ok Fx.is_dgram Fx.two_stream_sock)
         (transmitted_list (sk_outq Fx.two_stream_sock)) /\
  exists sk',
    fx_retransmit_list Fx.two_stream_sock ref_transmitted = Some sk' /\
    control_list (sk_outq sk') ++ stream_list (sk_outq sk')
      ≡ₚ [Fx.f40; Fx.f41; Fx.f43; Fx.f42; Fx.f44] /\
    transmitted_list (sk_outq sk') = [].
Proof.
  assert (Hok : Forall (retransmit_ok Fx.is_dgram Fx.two_stream_sock)
                       (transmitted_list (sk_outq Fx.two_stream_sock))).
  { repeat (apply List.Forall_cons;
            [first [right; left; reflexivity
                   |right; right; eexists; reflexivity]|]).
    apply List.Forall_nil. }
  split; [exact Hok|].
  destruct (retransmit_list_moves_frames Fx.bits Fx.is_dgram Fx.wspace
              Fx.two_stream_sock ref_transmitted Hok)
    as (sk' & E & P & _ & T).
  exists sk'. split; [exact E|]. split; [exact P|exact T].
Defined.

(** X13: the fragment does not fit in the credit of stream 4, which the
    stream has advertised already: the gate blocks and writes nothing. *)
Lemma flow_control_no_advert_no_change_witness :
  let sk := Fx.sock0 Fx.outq0 Fx.advertised_stream in
  let frame := Fx.data 200 900 0 0 in
  stream_gate Fx.bits Fx.advertised_stream frame /\
  quic_outq_flow_control Fx.bits Fx.DATA_BLOCKED Fx.STREAM_DATA_BLOCKED
    Fx.transmit Fx.transmit Fx.create sk frame = Some (1, sk).
Proof.
  cbv zeta. split; [reflexivity|].
  destruct (flow_control_no_advert_no_change Fx.bits Fx.DATA_BLOCKED
              Fx.STREAM_DATA_BLOCKED Fx.transmit Fx.transmit Fx.create
              (Fx.sock0 Fx.outq0 Fx.advertised_stream) (Fx.data 200 900 0 0)
              Fx.advertised_stream eq_refl eq_refl eq_refl)
    as (blocked & E & _).
  rewrite E. vm_compute in E. now injection E as <-.
Defined.

(** X14: the same fragment on a stream that has not advertised yet: the
    first pass builds the STREAM_DATA_BLOCKED frame, a second pass on
    the state it leaves builds nothing. *)
Lemma flow_control_advertises_once_witness :
  let sk := Fx.sock0 Fx.outq0 (Fx.stream4 Fx.SEND 900 1000 0) in
  let frame := Fx.data 200 900 0 0 in
  exists sk2 nframe,
    flow_control_blocks Fx.bits Fx.DATA_BLOCKED Fx.STREAM_DATA_BLOCKED
      Fx.transmit Fx.create sk frame = Some (sk2, Some nframe, 1) /\
    control_list (sk_outq sk2) = [nframe] /\
    quic_outq_flow_control Fx.bits Fx.DATA_BLOCKED Fx.STREAM_DATA_BLOCKED
      Fx.transmit Fx.transmit Fx.create sk2 frame = Some (1, sk2).
Proof.
  cbv zeta.
  destruct (flow_control_advertises_once Fx.bits Fx.DATA_BLOCKED
              Fx.STREAM_DATA_BLOCKED Fx.transmit Fx.transmit Fx.create
              (Fx.sock0 Fx.outq0 (Fx.stream4 Fx.SEND 900 1000 0))
              (Fx.data 200 900 0 0) (Fx.stream4 Fx.SEND 900 1000 0) eq_refl)
    as (sk2 & nf & blocked & E1 & _ & E2).
  vm_compute in E1. injection E1 as <- <- <-.
  eexists _, _. split; [vm_compute; reflexivity|].
  split; [reflexivity|exact E2].
Defined.

(** C8 on the concrete socket: a close with errcode 7 at the Initial
    level.  With a user that leaves the event alone the socket ends
    CLOSED with errcode 7 and frame type 28 recorded and the
    CONNECTION_CLOSE frame, at level 1, packed by the transmit
    scheduler; when the factory fails nothing is enqueued and the rest
    holds; with a user that takes the event only the delivery is
    logged; with errcode 0 nothing happens. *)
Lemma transmit_close_cases_witness :
  let sk := Fx.sock0 Fx.outq0 (Fx.stream4 Fx.SEND 0 1000 0) in
  let close := QUIC_EVENT_CONNECTION_CLOSE 7 28 in
  let view (r : sock) :=
    (sk_state r, outq_close_errcode (sk_outq r), outq_close_frame (sk_outq r),
     control_list (sk_outq r), transmitted_list (sk_outq r), sk_log r) in
  view (quic_outq_transmit_close Fx.CONNECTION_CLOSE Fx.CLOSED Fx.transmit
          Fx.create Fx.delivered sk 28 7 Fx.INITIAL)
  = (Fx.CLOSED, 7, 28, [], [mk_frame 28 1 9 0 0 None 0 0 0 0],
     [call_event_recv close]) /\
  view (quic_outq_transmit_close Fx.CONNECTION_CLOSE Fx.CLOSED Fx.transmit
          Fx.create_fails Fx.delivered sk 28 7 Fx.INITIAL)
  = (Fx.CLOSED, 7, 28, [], [], [call_event_recv close]) /\
  view (quic_outq_transmit_close Fx.CONNECTION_CLOSE Fx.CLOSED Fx.transmit
          Fx.create Fx.refused sk 28 7 Fx.INITIAL)
  = (Fx.ESTABLISHED, 0, 0, [], [], [call_event_recv close]) /\
  quic_outq_transmit_close Fx.CONNECTION_CLOSE Fx.CLOSED Fx.transmit
    Fx.create Fx.delivered sk 28 0 Fx.INITIAL = sk.
Proof.
  cbv zeta.
  pose proof (transmit_close_cases Fx.CONNECTION_CLOSE Fx.CLOSED Fx.transmit
                Fx.create_fails Fx.delivered
                (Fx.sock0 Fx.outq0 (Fx.stream4 Fx.SEND 0 1000 0))
                28 7 Fx.INITIAL) as Hfail.
  pose proof (transmit_close_cases Fx.CONNECTION_CLOSE Fx.CLOSED Fx.transmit
                Fx.create Fx.refused
                (Fx.sock0 Fx.outq0 (Fx.stream4 Fx.SEND 0 1000 0))
                28 7 Fx.INITIAL) as Htaken.
  pose proof (transmit_close_cases Fx.CONNECTION_CLOSE Fx.CLOSED Fx.transmit
                Fx.create Fx.delivered
                (Fx.sock0 Fx.outq0 (Fx.stream4 Fx.SEND 0 1000 0))
                28 0 Fx.INITIAL) as Hzero.
  cbv zeta in Hfail, Htaken, Hzero.
  split; [reflexivity|]. split; [|split].
  - set (r := quic_outq_transmit_close _ _ _ Fx.create_fails _ _ _ _ _) in *.
    destruct Hfail as (_ & _ & Hfail).
    destruct (Hfail ltac:(discriminate) eq_refl)
      as (St & recorded & L & E & F & R & _ & _ & _ & Hnone).
    unfold Fx.create_fails in Hnone. destruct Hnone as (Q & Lr & _).
    clearbody r.
    pose proof (f_equal control_list R) as C.
    pose proof (f_equal transmitted_list R) as T.
    simpl in C, T. rewrite St, Q, Lr, E, F, L, C, T. reflexivity.
  - set (r := quic_outq_transmit_close _ _ _ _ Fx.refused _ _ _ _) in *.
    destruct Htaken as (_ & Htaken & _).
    destruct (Htaken ltac:(discriminate) eq_refl) as (L & Q & St & _).
    clearbody r. rewrite L, Q, St. reflexivity.
  - destruct Hzero as (Hzero & _). exact (Hzero eq_refl).
Defined.

(** C10 on the concrete socket.  When the PING cannot be allocated the
    one call logged is the reset of the PATH timer, number 4, to the
    probe timeout 5000, and the outqueue is as it was; when it can, the
    reset follows the record of probe number 8 with the path, and the
    PING has gone to the transmit scheduler; on a socket that is CLOSED
    nothing is logged. *)
Lemma transmit_probe_timer_witness :
  let sk := Fx.sock0 Fx.outq0 (Fx.stream4 Fx.SEND 0 1000 0) in
  let probe create :=
    quic_outq_transmit_probe Fx.PING Fx.ESTABLISHED Fx.HANDSHAKE Fx.transmit
      create Fx.probe_timeout Fx.taglen Fx.pl_send in
  (fun r => (sk_log r, sk_outq r)) <$> probe Fx.create_fails sk
    = Some ([call_timer_reset 4 5000], sk_outq sk) /\
  (fun r => (sk_log r, control_list (sk_outq r), transmitted_list (sk_outq r)))
    <$> probe Fx.create sk
    = Some ([call_timer_reset 4 5000; call_path_pl_send 8], [],
            [mk_frame Fx.PING 0 9 0 0 None 0 0 0 0]) /\
  probe Fx.create (quic_set_state sk Fx.CLOSED)
    = Some (quic_set_state sk Fx.CLOSED).
Proof.
  cbv zeta. split; [|split].
  - destruct (proj2 (transmit_probe_timer Fx.PING Fx.ESTABLISHED Fx.HANDSHAKE
                       Fx.transmit Fx.create_fails Fx.probe_timeout Fx.taglen
                       Fx.pl_send
                       (Fx.sock0 Fx.outq0 (Fx.stream4 Fx.SEND 0 1000 0)))
                eq_refl (or_introl eq_refl))
      as (sk1 & sk' & E & L & Q & _ & _ & _ & Hnone & _).
    rewrite E. simpl. rewrite L, Q, (Hnone eq_refl). reflexivity.
  - assert (Hpn : is_Some (quic_pnmap
                             (Fx.sock0 Fx.outq0 (Fx.stream4 Fx.SEND 0 1000 0))
                             QUIC_CRYPTO_APP))
      by (eexists; reflexivity).
    destruct (proj2 (transmit_probe_timer Fx.PING Fx.ESTABLISHED Fx.HANDSHAKE
                       Fx.transmit Fx.create Fx.probe_timeout Fx.taglen
                       Fx.pl_send
                       (Fx.sock0 Fx.outq0 (Fx.stream4 Fx.SEND 0 1000 0)))
                eq_refl (or_intror Hpn))
      as (sk1 & sk' & E & L & _).
    set (run := quic_outq_transmit_probe _ _ _ _ _ _ _ _ _) in *.
    vm_compute in run. subst run. injection E as <-. reflexivity.
  - exact (proj1 (transmit_probe_timer Fx.PING Fx.ESTABLISHED Fx.HANDSHAKE
                    Fx.transmit Fx.create Fx.probe_timeout Fx.taglen
                    Fx.pl_send
                    (quic_set_state
                       (Fx.sock0 Fx.outq0 (Fx.stream4 Fx.SEND 0 1000 0))
                       Fx.CLOSED))
            eq_refl).
Defined.
